(** * PRGsheet: key-based reconciliation and incremental merge

    A shallow embedding of the reconciliation logic of the PRGsheet
    reporting scripts, and the properties its specification states
    about it:

    - [SSH.py], [SshManager.verileri_birlestir]: the upsert merger that
      carries the operator-entered column "Parça Durumu" forward;
    - [BekleyenFast.py], [_process_data], [_get_existing_data],
      [_filter_new_records] and [save_to_sheets]: key normalisation and
      the incremental, append-only variant;
    - [Stok.py], [stok_verilerini_duzenle_ve_kaydet]: the joins of the
      stock table and its derived columns Fazla, Ver, "###" and INDIRIM;
    - [Irsaliye.py], [merge_and_analyze_differences]: the outer join.

    Part III covers the code around these: the readers of the sheet
    "Ssh" and of the Excel extract and the pipeline of [run_update]
    ([SSH.py]); the settings, the filter of the response, the batch
    writer and the column labels of [BekleyenFast.py]; the grouping and
    the join with the price list of [Stok.py]; [get_settings] of
    [central_config.py]; the match key of [Irsaliye.py].

    The scripts are written against pandas.  A DataFrame is modelled as
    its list of column names and its list of rows, a row being a finite
    map from column name to cell; a Python [set] of keys is a [gset]; a
    Python [dict] record is an association list in insertion order.
    Python exceptions are values of [result].  A string has one
    [ascii] per character: the model covers the characters with the
    code points 0 to 255, among them the digits and letters of the
    codes the key rules work on and the white space of that range. *)

From Stdlib Require Import ZArith Lia.
From Stdlib Require Import Strings.Ascii.
From Stdlib Require Import Floats.SpecFloat.
From stdpp Require Import gmap strings list sorting.

Local Open Scope Z_scope.

(* ================================================================= *)
(** * Part I: the embedding *)
(* ================================================================= *)

(** ** Python scalars, exceptions and string methods *)

(** A cell of a DataFrame on the paths modelled here is a string (the
    sheet is read with [get_all_values], the Excel columns go through
    [str(int(float(x)))] and [fillna('')]) or the missing value NaN that
    [pd.concat] and [pd.merge] fill in. *)
Inductive cell : Type :=
  | CStr (s : string)
  | CNaN.

#[global] Instance cell_eq_dec : EqDecision cell.
Proof. solve_decision. Defined.

#[global] Instance cell_inhabited : Inhabited cell := populate CNaN.

(** [str(x)], which is also what [astype(str)] does to each cell. *)
Definition py_str (v : cell) : string :=
  match v with
  | CStr s => s
  | CNaN => "nan"
  end.

Inductive exn : Type :=
  | KeyError (k : string)
  | ValueError
  | IndexError
  | OverflowError.

Inductive result (A : Type) : Type :=
  | Ok (a : A)
  | Raise (e : exn).
Arguments Ok {A} a.
Arguments Raise {A} e.

#[global] Instance result_ret : MRet result := λ A a, Ok a.
#[global] Instance result_bind : MBind result := λ A B f m,
  match m with
  | Ok a => f a
  | Raise e => Raise e
  end.

Module Py.

(** The characters [str.isspace] accepts, which [str.strip()] without
    argument removes: of the code points 0 to 255 these are 9 to 13,
    28 to 32, 133 (next line) and 160 (no-break space). *)
Definition isspace (a : ascii) : bool :=
  let n := N_of_ascii a in
  ((9 <=? n) && (n <=? 13) || (28 <=? n) && (n <=? 32)
   || (n =? 133) || (n =? 160))%N.

(** [s.lstrip(chars)], the set of characters given as a predicate. *)
Fixpoint lstrip (p : ascii → bool) (s : string) : string :=
  match s with
  | EmptyString => EmptyString
  | String a s' => if p a then lstrip p s' else s
  end.

Fixpoint rstrip (p : ascii → bool) (s : string) : string :=
  match s with
  | EmptyString => EmptyString
  | String a s' =>
      match rstrip p s' with
      | EmptyString => if p a then EmptyString else String a EmptyString
      | t => String a t
      end
  end.

(** [s.strip()] *)
Definition strip (s : string) : string := lstrip isspace (rstrip isspace s).

Fixpoint zeros (n : nat) : string :=
  match n with
  | O => EmptyString
  | S n' => String "0" (zeros n')
  end.

(** [s.zfill(width)]: pad with zeros on the left up to [width]
    characters, after a leading sign if there is one. *)
Definition zfill (width : nat) (s : string) : string :=
  let n := String.length s in
  if (width <=? n)%nat then s
  else
    match s with
    | String a s' =>
        if bool_decide (a = "+"%char ∨ a = "-"%char)
        then String a (zeros (width - n) +:+ s')
        else zeros (width - n) +:+ s
    | EmptyString => zeros (width - n)
    end.

(** The slice [s[:n]]. *)
Fixpoint take (n : nat) (s : string) : string :=
  match n, s with
  | S n', String a s' => String a (take n' s')
  | _, _ => EmptyString
  end.

(** [''.join(xs)] *)
Definition join (xs : list string) : string := foldr String.app "" xs.

End Py.

(** ** pandas: DataFrames *)

Abbreviation row := (gmap string cell).

Record DataFrame : Type := mkDF {
  columns : list string;
  rows : list row
}.

(** The cell of row [r] under column [c]. *)
Definition cell_of (r : row) (c : string) : cell := default CNaN (r !! c).

(** Every row has a cell exactly under the columns of the frame. *)
Definition wf_df (df : DataFrame) : Prop :=
  Forall (λ r : row, dom r = list_to_set (columns df)) (rows df).

Module Pandas.

(** [df.empty]: no rows or no columns. *)
Definition empty (df : DataFrame) : bool :=
  bool_decide (columns df = [] ∨ rows df = []).

(** [df[c] = f(row)]: replaces column [c], or appends it when new. *)
Definition set_column (c : string) (f : row → cell) (df : DataFrame) : DataFrame :=
  {| columns := if decide (c ∈ columns df) then columns df else columns df ++ [c];
     rows := (λ r, <[c := f r]> r) <$> rows df |}.

(** [df[mask]], the mask given row by row. *)
Definition filter_rows (P : row → Prop) `{!∀ r, Decision (P r)} (df : DataFrame) : DataFrame :=
  {| columns := columns df; rows := filter P (rows df) |}.

(** [df.drop(columns=[c])] *)
Definition drop_column (c : string) (df : DataFrame) : result DataFrame :=
  if decide (c ∈ columns df)
  then Ok {| columns := filter (λ c', c' ≠ c) (columns df);
             rows := delete c <$> rows df |}
  else Raise (KeyError c).

(** The union of column lists, each name at its first occurrence. *)
Definition union_columns (cs : list string) : list string :=
  foldl (λ acc c, if decide (c ∈ acc) then acc else acc ++ [c]) [] cs.

(** The row [r] laid out on the columns [cols], NaN where it has no
    cell. *)
Definition reindex (cols : list string) (r : row) : row :=
  list_to_map ((λ c, (c, cell_of r c)) <$> cols).

(** [pd.concat(dfs, ignore_index=True)] of a non-empty list. *)
Definition concat (dfs : list DataFrame) : DataFrame :=
  let cols := union_columns (mjoin (columns <$> dfs)) in
  {| columns := cols; rows := reindex cols <$> mjoin (rows <$> dfs) |}.

(** The order of [sort_values(ascending=False)] on a column of
    strings: larger strings first, NaN last. *)
Definition cell_desc (a b : cell) : Prop :=
  match a, b with
  | CStr x, CStr y => String.le y x
  | _, CNaN => True
  | CNaN, CStr _ => False
  end.

#[global] Instance cell_desc_dec : RelDecision cell_desc.
Proof. intros [x|] [y|]; simpl; apply _. Defined.

Definition row_desc (c : string) (r1 r2 : row) : Prop :=
  cell_desc (cell_of r1 c) (cell_of r2 c).

#[global] Instance row_desc_dec c : RelDecision (row_desc c).
Proof. intros r1 r2; unfold row_desc; apply _. Defined.

(** Ascending order, NaN last: the key order of an outer merge. *)
Definition cell_asc (a b : cell) : Prop :=
  match a, b with
  | CStr x, CStr y => String.le x y
  | _, CNaN => True
  | CNaN, CStr _ => False
  end.

#[global] Instance cell_asc_dec : RelDecision cell_asc.
Proof. intros [x|] [y|]; simpl; apply _. Defined.

Definition row_asc (c : string) (r1 r2 : row) : Prop :=
  cell_asc (cell_of r1 c) (cell_of r2 c).

#[global] Instance row_asc_dec c : RelDecision (row_asc c).
Proof. intros r1 r2; unfold row_asc; apply _. Defined.

(** [df.sort_values(by=c, ascending=False)].  A column that does not
    exist is a KeyError.  pandas leaves the order of rows with equal
    values open (its default sort is not stable); the model sorts
    stably. *)
Definition sort_values_desc (c : string) (df : DataFrame) : result DataFrame :=
  if decide (c ∈ columns df)
  then Ok {| columns := columns df;
             rows := merge_sort (row_desc c) (rows df) |}
  else Raise (KeyError c).

(** The row of NaN under the columns [cols]. *)
Definition nan_row (cols : list string) : row :=
  list_to_map ((λ c, (c, CNaN)) <$> cols).

Inductive how : Type := Left | Outer.

(** The rows of [right] whose key equals that of [a].  As in pandas,
    a NaN key matches a NaN key. *)
Definition matches (on : string) (right : DataFrame) (a : row) : list row :=
  filter (λ b, cell_of b on = cell_of a on) (rows right).

(** The rows a left row contributes: one per matching right row, or
    itself with NaN under the right columns when nothing matches. *)
Definition left_rows (on : string) (right : DataFrame) (a : row) : list row :=
  match matches on right a with
  | [] => [a ∪ nan_row (columns right)]
  | ms => (λ b, a ∪ b) <$> ms
  end.

(** The right rows no left row matches, NaN under the left columns. *)
Definition right_only (on : string) (left right : DataFrame) : list row :=
  (λ b, b ∪ nan_row (columns left)) <$>
    filter (λ b, matches on left b = []) (rows right).

(** [pd.merge(left, right, on=on, how=how)] for [how] in 'left' and
    'outer'.  The frames share no column but the key, as at the call
    sites modelled below (pandas would rename other shared columns
    with the suffixes _x and _y; here the left cell is kept).  A left
    merge keeps the order of the left rows; an outer merge orders the
    result by key. *)
Definition merge (h : how) (on : string) (left right : DataFrame) : result DataFrame :=
  if decide (on ∈ columns left ∧ on ∈ columns right) then
    let cols := columns left ++ filter (λ c, c ≠ on) (columns right) in
    let lrows := rows left ≫= left_rows on right in
    match h with
    | Left => Ok {| columns := cols; rows := lrows |}
    | Outer =>
        Ok {| columns := cols;
              rows := merge_sort (row_asc on) (lrows ++ right_only on left right) |}
    end
  else Raise (KeyError on).

End Pandas.

(** ** SSH.py: the upsert merger *)

Module SSH.
Import Pandas.

Definition servis_bakim_id : string := "Servis Bakım ID".
Definition parca_durumu : string := "Parça Durumu".
Definition birlestirme_anahtari : string := "_birlestirme_anahtari".

Definition anahtar_sutunlar : list string :=
  ["Servis Bakım ID"; "Yedek Parça Sipariş No"; "Ürün ID"; "Yedek Parça Ürün ID"].

(** Lines 262-264: [df[sutun] = df[sutun].astype(str).str.strip()] for
    each key column, in place. *)
Definition anahtar_temizle (df : DataFrame) : DataFrame :=
  foldl (λ d sutun, set_column sutun (λ r, CStr (Py.strip (py_str (cell_of r sutun)))) d)
        df anahtar_sutunlar.

(** The lambda of lines 267-268, [''.join(x)] on the key cells of a
    row.  It runs after [anahtar_temizle], on strings. *)
Definition anahtar_birlestir (r : row) : string :=
  Py.join ((λ sutun, py_str (cell_of r sutun)) <$> anahtar_sutunlar).

(** Lines 267-268: [df['_birlestirme_anahtari'] = df[anahtar_sutunlar]
    .apply(lambda x: ''.join(x), axis=1)].  On a frame without rows
    [apply(axis=1)] probes the lambda with a row of NaN, the join
    fails, and pandas (2.x) hands back an empty DataFrame instead of a
    Series; assigning its four columns to the one new column raises
    ValueError. *)
Definition anahtar_sutunu_ekle (df : DataFrame) : result DataFrame :=
  match rows df with
  | [] => Raise ValueError
  | _ => Ok (set_column birlestirme_anahtari (λ r, CStr (anahtar_birlestir r)) df)
  end.

(** The key a keyed row carries. *)
Definition anahtar (r : row) : string := py_str (cell_of r birlestirme_anahtari).

(** [set(df['_birlestirme_anahtari'])] *)
Definition anahtarlar (df : DataFrame) : gset string :=
  list_to_set (anahtar <$> rows df).

Definition guncelleme_anahtarlari (yeni_df mevcut_df : DataFrame) : gset string :=
  anahtarlar mevcut_df ∩ anahtarlar yeni_df.
Definition ekleme_anahtarlari (yeni_df mevcut_df : DataFrame) : gset string :=
  anahtarlar yeni_df ∖ anahtarlar mevcut_df.
Definition saklama_anahtarlari (yeni_df mevcut_df : DataFrame) : gset string :=
  anahtarlar mevcut_df ∖ anahtarlar yeni_df.

(** [df['_birlestirme_anahtari'] == k] *)
Definition anahtar_esit (k : string) (r : row) : Prop :=
  cell_of r birlestirme_anahtari = CStr k.

#[global] Instance anahtar_esit_dec k r : Decision (anahtar_esit k r).
Proof. unfold anahtar_esit; apply _. Defined.

(** [df['_birlestirme_anahtari'].isin(s)] *)
Definition anahtar_isin (s : gset string) (r : row) : Prop :=
  anahtar r ∈ s.

#[global] Instance anahtar_isin_dec s r : Decision (anahtar_isin s r).
Proof. unfold anahtar_isin; apply _. Defined.

(** Lines 283-289, the body of the loop over the keys to update. *)
Definition guncelle_kayit (yeni_df mevcut_df : DataFrame) (k : string) : result DataFrame :=
  let yeni_kayit := filter_rows (anahtar_esit k) yeni_df in
  let mevcut_kayit := filter_rows (anahtar_esit k) mevcut_df in
  if decide (parca_durumu ∈ columns mevcut_kayit ∧ parca_durumu ∈ columns yeni_kayit) then
    match rows mevcut_kayit with
    | ilk :: _ => Ok (set_column parca_durumu (λ _, cell_of ilk parca_durumu) yeni_kayit)
    | [] => Raise IndexError
    end
  else Ok yeni_kayit.

(** Lines 291-294: the frame of the records to insert, if any. *)
Definition yeni_kayitlar (yeni_df mevcut_df : DataFrame) : list DataFrame :=
  let ekleme := ekleme_anahtarlari yeni_df mevcut_df in
  if decide (ekleme = ∅) then [] else [filter_rows (anahtar_isin ekleme) yeni_df].

(** Lines 296-299: the frame of the old records to keep, if any. *)
Definition saklanacak_eski_kayitlar (yeni_df mevcut_df : DataFrame) : list DataFrame :=
  let saklama := saklama_anahtarlari yeni_df mevcut_df in
  if decide (saklama = ∅) then [] else [filter_rows (anahtar_isin saklama) mevcut_df].

(** Lines 301-305 *)
Definition son_df (son_df_listesi : list DataFrame) (yeni_df : DataFrame) : DataFrame :=
  match son_df_listesi with
  | [] => yeni_df
  | _ => concat son_df_listesi
  end.

(** Lines 270-313, on the two keyed frames.  The loop runs over the
    set in the order [elements] lists it; Python fixes no order. *)
Definition birlestir (yeni_df mevcut_df : DataFrame) : result DataFrame :=
  guncellenenler ← mapM (guncelle_kayit yeni_df mevcut_df)
                        (elements (guncelleme_anahtarlari yeni_df mevcut_df));
  let son_df_listesi :=
    guncellenenler ++ yeni_kayitlar yeni_df mevcut_df
                   ++ saklanacak_eski_kayitlar yeni_df mevcut_df in
  son ← drop_column birlestirme_anahtari (son_df son_df_listesi yeni_df);
  sort_values_desc servis_bakim_id son.

(** [SshManager.verileri_birlestir(yeni_df, mevcut_df)].  The frames
    are mutated in place, so the handler of the [try] sorts [yeni_df]
    as the failing statement left it. *)
Definition verileri_birlestir (yeni_df mevcut_df : DataFrame) : result DataFrame :=
  if empty mevcut_df then sort_values_desc servis_bakim_id yeni_df
  else if bool_decide (Exists (λ sutun, sutun ∉ columns yeni_df ∨ sutun ∉ columns mevcut_df)
                              anahtar_sutunlar)
  then sort_values_desc servis_bakim_id yeni_df
  else
    let yeni1 := anahtar_temizle yeni_df in
    let mevcut1 := anahtar_temizle mevcut_df in
    match anahtar_sutunu_ekle yeni1 with
    | Raise _ => sort_values_desc servis_bakim_id yeni1
    | Ok yeni2 =>
        match mevcut2 ← anahtar_sutunu_ekle mevcut1; birlestir yeni2 mevcut2 with
        | Ok son_df => Ok son_df
        | Raise _ => sort_values_desc servis_bakim_id yeni2
        end
    end.

End SSH.

(** ** BekleyenFast.py: key rules and the incremental variant *)

Module BekleyenFast.

(** A record of [df.to_dict('records')]: a dict in insertion order. *)
Definition order : Type := list (string * cell).

(** [order.get(k)] *)
Fixpoint dict_get (k : string) (d : order) : option cell :=
  match d with
  | [] => None
  | (k', v) :: d' => if decide (k' = k) then Some v else dict_get k d'
  end.

(** Line 360: [astype(str).str.lstrip('0').str.zfill(1)] on one cell
    of the column Malzeme. *)
Definition malzeme_duzenle (x : cell) : string :=
  Py.zfill 1 (Py.lstrip (λ a, bool_decide (a = "0"%char)) (py_str x)).

(** Line 436: [str(order.get('BagKoduBekleyen', ''))] *)
Definition bag_kodu (o : order) : string :=
  py_str (default (CStr "") (dict_get "BagKoduBekleyen" o)).

(** [_filter_new_records(processed_orders, existing_codes)] *)
Definition filter_new_records (processed_orders : list order)
    (existing_codes : gset string) : list order :=
  if bool_decide (processed_orders = [] ∨ existing_codes = ∅) then processed_orders
  else
    foldl (λ new_records o,
             if decide (bag_kodu o ∉ existing_codes) then new_records ++ [o]
             else new_records)
          [] processed_orders.

(** The worksheet "Bekleyen" as [get_all_values] returns it: the
    header row, then the data rows. *)
Definition sheet : Type := list (list cell).

(** [_get_existing_data], the worksheet read without error.  The
    frame is [pd.DataFrame(all_values[1:], columns=all_values[0])]:
    rows shorter than the longest one are filled up with missing
    values, and when the longest row and the header differ in length
    the constructor raises, which the handler turns into the empty
    set.  With the label "BagKoduBekleyen" once in the header the
    result is [set(df['BagKoduBekleyen'].dropna().astype(str))]; with
    the label more than once [df['BagKoduBekleyen']] is a frame, and
    the [set] of a frame is the set of its column labels; without the
    label, and on an empty sheet, the result is the empty set. *)
Definition get_existing_data (all_values : sheet) : gset string :=
  match all_values with
  | [] => ∅
  | header :: data =>
      if bool_decide (data ≠ [] ∧ max_list (length <$> data) ≠ length header) then ∅
      else
        match list_find (λ h, h = CStr "BagKoduBekleyen") header with
        | Some (i, _) =>
            if bool_decide (length (filter (λ h, h = CStr "BagKoduBekleyen") header) = 1%nat)
            then list_to_set
                   (py_str <$> filter (λ v, v ≠ CNaN) ((λ r, default CNaN (r !! i)) <$> data))
            else {["BagKoduBekleyen"]}
        | None => ∅
        end
  end.

(** [pd.DataFrame(new_records)]: the columns are the keys of the
    records at their first occurrence, a record without a key gets
    NaN there. *)
Definition records_columns (rs : list order) : list string :=
  Pandas.union_columns (mjoin ((λ r, r.*1) <$> rs)).

(** [df.values.tolist()] *)
Definition records_values (rs : list order) : list (list cell) :=
  (λ r, (λ c, default CNaN (dict_get c r)) <$> records_columns rs) <$> rs.

Fixpoint overlay_row (new old : list cell) : list cell :=
  match new, old with
  | [], _ => old
  | v :: new', [] => v :: new'
  | v :: new', _ :: old' => v :: overlay_row new' old'
  end.

(** [worksheet.update(values=values, range_name='A1')]: the block of
    values is written from the first cell on, over what is there. *)
Fixpoint update_A1 (values : list (list cell)) (s : sheet) : sheet :=
  match values, s with
  | [], _ => s
  | v :: values', [] => v :: values'
  | v :: values', r :: s' => overlay_row v r :: update_A1 values' s'
  end.

(** [worksheet.append_rows(values)]: the rows go below the table. *)
Definition append_rows (values : list (list cell)) (s : sheet) : sheet :=
  s ++ values.

(** [save_to_sheets] from step 2 on, given the processed orders and
    the worksheet; the result is the worksheet after the call. *)
Definition save_to_sheets (processed_orders : list order) (s : sheet) : sheet :=
  match processed_orders with
  | [] => s
  | _ =>
      let existing_codes := get_existing_data s in
      let new_records := filter_new_records processed_orders existing_codes in
      match new_records with
      | [] => s
      | _ =>
          if bool_decide (size existing_codes = 0%nat)
          then update_A1 ((CStr <$> records_columns new_records) :: records_values new_records) s
          else append_rows (records_values new_records) s
      end
  end.

End BekleyenFast.

(** ** Stok.py: joins and derived columns of the stock table *)

Module Stok.

(** Line 767 (and 770, 773, 780 the same way): the material table is
    the left side of a left merge on the material code. *)
Definition malzeme_birlestir (malzeme grouped_bekleyen : DataFrame) : result DataFrame :=
  Pandas.merge Pandas.Left "Malzeme Kodu" malzeme grouped_bekleyen.

(** Line 777: [astype(str).str[:10]] on one cell of Malzeme Kodu. *)
Definition sap_kodu (malzeme_kodu : cell) : string :=
  Py.take 10 (py_str malzeme_kodu).

(** The integer columns of a row after [fillna(0).astype(int)]. *)
Record satir : Type := mkSatir {
  DEPO : Z;
  Bekleyen : Z;
  Plan : Z;
  Borc : Z;
  ID2 : Z;
  PERAKENDE : Z;
  LISTE : Z
}.

Section Width.

(** The width of the integer columns: [astype(int)] is int64, and
    int32 on Windows with numpy 1.x. *)
Variable bits : Z.

(** Two's complement wrap-around of column arithmetic. *)
Definition wrap (x : Z) : Z :=
  (x + 2 ^ (bits - 1)) mod 2 ^ bits - 2 ^ (bits - 1).

Definition add (x y : Z) : Z := wrap (x + y).
Definition sub (x y : Z) : Z := wrap (x - y).

(** [s.where(s > 0, 0)] on one value. *)
Definition where_pos (x : Z) : Z := if 0 <? x then x else 0.

(** Line 807 *)
Definition fazla_hesaplama (r : satir) : Z :=
  sub (add (add (DEPO r) (Bekleyen r)) (Plan r)) (Borc r).

(** Line 808 *)
Definition Fazla (r : satir) : Z := where_pos (fazla_hesaplama r).

(** Line 812 *)
Definition ver_hesaplama (r : satir) : Z :=
  sub (sub (sub (Borc r) (DEPO r)) (Bekleyen r)) (Plan r).

(** Line 813 *)
Definition Ver (r : satir) : Z := where_pos (ver_hesaplama r).

End Width.

(** Python floats are binary64. *)
Definition prec : Z := 53.
Definition emax : Z := 1024.

(** [float(z)], to nearest even: the constants 1 and 100 of the
    formula, which are exact. *)
Definition float_of_int (z : Z) : spec_float := binary_normalize prec emax z 0 false.

(** A Python integer as the operand of a division: the number itself,
    not rounded to a float. *)
Definition exact_int (z : Z) : spec_float :=
  match z with
  | Z0 => S754_zero false
  | Zpos p => S754_finite false p 0
  | Zneg p => S754_finite true p 0
  end.

(** [pay / payda] on two Python integers, [payda] other than zero: the
    quotient of the two numbers, rounded once, to the nearest float
    (ties to even). *)
Definition int_truediv (pay payda : Z) : spec_float :=
  SFdiv prec emax (exact_int pay) (exact_int payda).

(** [(1 - (pay / payda)) * 100] in float arithmetic, for [payda]
    other than zero. *)
Definition yuzde_float (pay payda : Z) : spec_float :=
  SFmul prec emax
    (SFsub prec emax (float_of_int 1) (int_truediv pay payda))
    (float_of_int 100).

(** The integer part of a positive mantissa [m] scaled by [2^e]. *)
Definition trunc_pos (m : positive) (e : Z) : Z :=
  if 0 <=? e then Z.shiftl (Zpos m) e else Z.shiftr (Zpos m) (- e).

(** [int(x)] of a float: truncation toward zero; infinities and NaN
    raise. *)
Definition py_int (x : spec_float) : result Z :=
  match x with
  | S754_zero _ => Ok 0
  | S754_finite s m e => Ok (cond_Zopp s (trunc_pos m e))
  | S754_infinity _ => Raise OverflowError
  | S754_nan => Raise ValueError
  end.

(** [round(x)] of a float, the rounding the specification names: to
    the nearest integer, ties to the even one. *)
Definition py_round (x : spec_float) : result Z :=
  match x with
  | S754_zero _ => Ok 0
  | S754_finite s m e =>
      if 0 <=? e then Ok (cond_Zopp s (Z.shiftl (Zpos m) e))
      else
        let q := Z.shiftr (Zpos m) (- e) in
        let r := Zpos m - Z.shiftl q (- e) in
        let half := Z.shiftl 1 (- e - 1) in
        Ok (cond_Zopp s
              (if r <? half then q
               else if half <? r then q + 1
               else if Z.even q then q else q + 1))
  | S754_infinity _ => Raise OverflowError
  | S754_nan => Raise ValueError
  end.

(** The lambda of lines 859-861 and 867-869:
    [int((1 - (pay / payda)) * 100) if payda != 0 else 0]. *)
Definition yuzde (pay payda : Z) : result Z :=
  if bool_decide (payda ≠ 0) then py_int (yuzde_float pay payda) else Ok 0.

(** Column "###", lines 858-863. *)
Definition diyez (r : satir) : result Z := yuzde (ID2 r) (PERAKENDE r).

(** Column INDIRIM, lines 866-871. *)
Definition INDIRIM (r : satir) : result Z := yuzde (PERAKENDE r) (LISTE r).

End Stok.

(** ** Irsaliye.py: the outer join *)

Module Irsaliye.

(** Line 323 of [merge_and_analyze_differences]. *)
Definition merged_df (prosap_df mikro_df : DataFrame) : result DataFrame :=
  Pandas.merge Pandas.Outer "Esle" prosap_df mikro_df.

End Irsaliye.

(** ** Notions the properties are stated with *)

(** The key column of a frame, row by row. *)
Definition key_col (on : string) (df : DataFrame) : list cell :=
  (λ r, cell_of r on) <$> rows df.

(** How often the key [k] stands in the key column of a frame. *)
Definition key_count (on : string) (df : DataFrame) (k : cell) : nat :=
  length (filter (λ x, x = k) (key_col on df)).

(** The composite key the merger gives a record: the four key fields,
    each as a stripped string, joined without separator. *)
Definition kayit_anahtari (r : row) : string :=
  Py.join ((λ sutun, Py.strip (py_str (cell_of r sutun))) <$> SSH.anahtar_sutunlar).

(** The composite keys of a table, row by row. *)
Definition df_keys (df : DataFrame) : list string := kayit_anahtari <$> rows df.

(** The table has the four key columns. *)
Definition has_keys (df : DataFrame) : Prop :=
  Forall (λ sutun, sutun ∈ columns df) SSH.anahtar_sutunlar.

(** What lines 262-264 of SSH.py do to one row. *)
Definition temizle (r : row) : row :=
  foldl (λ r' sutun, <[sutun := CStr (Py.strip (py_str (cell_of r' sutun)))]> r')
        r SSH.anahtar_sutunlar.

(** What lines 262-268 do to one row. *)
Definition hazirla (r : row) : row :=
  <[SSH.birlestirme_anahtari := CStr (SSH.anahtar_birlestir (temizle r))]> (temizle r).

(** The frame after lines 262-268. *)
Definition keyed (df : DataFrame) : DataFrame :=
  Pandas.set_column SSH.birlestirme_anahtari (λ r, CStr (SSH.anahtar_birlestir r))
    (SSH.anahtar_temizle df).

(** The old record line 287 of SSH.py reads the status from, for the
    key [k] of the keyed sheet [M]. *)
Definition ilk (M : DataFrame) (k : string) : row :=
  default ∅ (head (filter (SSH.anahtar_esit k) (rows M))).

(** The frame line 289 appends for the key [k], from the keyed frames
    [Y] (new) and [M] (old). *)
Definition guncel (Y M : DataFrame) (k : string) : DataFrame :=
  if decide (SSH.parca_durumu ∈ columns M ∧ SSH.parca_durumu ∈ columns Y)
  then Pandas.set_column SSH.parca_durumu (λ _, cell_of (ilk M k) SSH.parca_durumu)
         (Pandas.filter_rows (SSH.anahtar_esit k) Y)
  else Pandas.filter_rows (SSH.anahtar_esit k) Y.

(** The frames of line 303, in order. *)
Definition liste (Y M : DataFrame) : list DataFrame :=
  (guncel Y M <$> elements (SSH.guncelleme_anahtarlari Y M))
    ++ SSH.yeni_kayitlar Y M ++ SSH.saklanacak_eski_kayitlar Y M.

(** Their rows: updated, inserted, retained. *)
Definition birlesen (Y M : DataFrame) : list row :=
  (elements (SSH.guncelleme_anahtarlari Y M) ≫= (λ k, rows (guncel Y M k)))
    ++ filter (λ r, kayit_anahtari r ∈ SSH.ekleme_anahtarlari Y M) (rows Y)
    ++ filter (λ r, kayit_anahtari r ∈ SSH.saklama_anahtarlari Y M) (rows M).

(** The columns of the concatenated frame. *)
Definition son_sutunlar (Y M : DataFrame) : list string :=
  Pandas.union_columns (mjoin (columns <$> liste Y M)).

(** What lines 303-308 leave of a row. *)
Definition son_kayit (Y M : DataFrame) (r : row) : row :=
  delete SSH.birlestirme_anahtari (Pandas.reindex (son_sutunlar Y M) r).

(** The result of the merger on tables with the key columns and with
    rows on both sides. *)
Definition sonuc (yeni mevcut : DataFrame) : DataFrame :=
  {| columns := filter (λ c, c ≠ SSH.birlestirme_anahtari)
                  (son_sutunlar (keyed yeni) (keyed mevcut));
     rows := merge_sort (Pandas.row_desc SSH.servis_bakim_id)
               (son_kayit (keyed yeni) (keyed mevcut)
                  <$> birlesen (keyed yeni) (keyed mevcut)) |}.

(** The merged record of a new record [rn] whose key the old record
    [ro] has: [rn] after lines 262-268, with the status of [ro]. *)
Definition guncellenen (yeni mevcut : DataFrame) (rn ro : row) : row :=
  son_kayit (keyed yeni) (keyed mevcut)
    (<[SSH.parca_durumu := cell_of (hazirla ro) SSH.parca_durumu]> (hazirla rn)).

(** The record the merger keeps of an old record [ro]. *)
Definition saklanan (yeni mevcut : DataFrame) (ro : row) : row :=
  son_kayit (keyed yeni) (keyed mevcut) (hazirla ro).

(** The values an integer column of width [bits] holds. *)
Definition fits (bits x : Z) : Prop :=
  - 2 ^ (bits - 1) ≤ x < 2 ^ (bits - 1).

(** The sums of lines 807 and 812 of Stok.py do not overflow the
    column. *)
Definition no_overflow (bits : Z) (r : Stok.satir) : Prop :=
  fits bits (Stok.DEPO r + Stok.Bekleyen r) ∧
  fits bits (Stok.DEPO r + Stok.Bekleyen r + Stok.Plan r) ∧
  fits bits (Stok.DEPO r + Stok.Bekleyen r + Stok.Plan r - Stok.Borc r) ∧
  fits bits (Stok.Borc r - Stok.DEPO r) ∧
  fits bits (Stok.Borc r - Stok.DEPO r - Stok.Bekleyen r) ∧
  fits bits (Stok.Borc r - Stok.DEPO r - Stok.Bekleyen r - Stok.Plan r).

(** The float [x] is zero or finite, of magnitude below [2^B]. *)
Definition below (B : Z) (x : spec_float) : Prop :=
  match x with
  | S754_zero _ => True
  | S754_finite _ m e => Zpos m < 2 ^ (B - e) ∧ e < B
  | _ => False
  end.

(** The integer [z] is the float [x] cut toward zero: [z] has the sign
    of [x], and its magnitude is the integer part of the magnitude
    [m * 2^e] of [x]. *)
Definition cut_toward_zero (x : spec_float) (z : Z) : Prop :=
  match x with
  | S754_zero _ => z = 0
  | S754_finite s m e =>
      z = cond_Zopp s (Z.abs z) ∧
      Z.abs z * 2 ^ Z.max 0 (- e) ≤ Zpos m * 2 ^ Z.max 0 e
        < (Z.abs z + 1) * 2 ^ Z.max 0 (- e)
  | _ => False
  end.

(** ** Sample data *)

Module Ornek.
Import SSH.

(** The columns of the sheet "Ssh", as [excel_verisi_oku] orders them
    (a few of them). *)
Definition sutunlar : list string :=
  ["Parça Durumu"; "Müşteri Adı"; "Servis Bakım ID"; "Yedek Parça Sipariş No";
   "Ürün ID"; "Yedek Parça Ürün ID"].

(** A row of the sheet: status, customer and the four key fields. *)
Definition kayit (durum musteri servis siparis urun parca : string) : row :=
  list_to_map
    [("Parça Durumu", CStr durum); ("Müşteri Adı", CStr musteri);
     ("Servis Bakım ID", CStr servis); ("Yedek Parça Sipariş No", CStr siparis);
     ("Ürün ID", CStr urun); ("Yedek Parça Ürün ID", CStr parca)].

(** The sheet as it stands, and a fresh Excel extract: one record of
    the extract is on the sheet already, one is new, and one record of
    the sheet is no longer in the extract. *)
Definition mevcut_ornek : DataFrame :=
  mkDF sutunlar
    [kayit "Geldi" "Ayse Kaya" "41" "9001" "310" "77";
     kayit "Bekliyor" "Ali Demir" "40" "9000" "309" "76"].

Definition yeni_ornek : DataFrame :=
  mkDF sutunlar
    [kayit "" "Ayse Kaya" "41" "9001" "310" "77";
     kayit "" "Can Er" "42" "9002" "311" "78"].

(** An extract without rows. *)
Definition yeni_bos : DataFrame := mkDF sutunlar [].

(** An extract whose service id has a blank in front. *)
Definition yeni_bosluklu : DataFrame :=
  mkDF sutunlar [kayit "" "Ayse Kaya" " 41" "9001" "310" "77"].

(** A sheet whose service id has a blank in front. *)
Definition mevcut_bosluklu : DataFrame :=
  mkDF sutunlar [kayit "Bekliyor" "Ali Demir" " 40" "9000" "309" "76"].

(** An extract without the status column. *)
Definition yeni_durumsuz : DataFrame :=
  mkDF ["Müşteri Adı"; "Servis Bakım ID"; "Yedek Parça Sipariş No";
        "Ürün ID"; "Yedek Parça Ürün ID"]
    [delete "Parça Durumu" (kayit "" "Ayse Kaya" "41" "9001" "310" "77")].

(** An extract without the column Servis Bakım ID. *)
Definition yeni_servissiz : DataFrame :=
  mkDF ["Parça Durumu"; "Müşteri Adı"; "Yedek Parça Sipariş No";
        "Ürün ID"; "Yedek Parça Ürün ID"]
    [delete "Servis Bakım ID" (kayit "" "Ayse Kaya" "41" "9001" "310" "77")].

(** Two invoices and one delivery note, keyed by "Esle". *)
Definition prosap_ornek : DataFrame :=
  mkDF ["Esle"; "UPB Tutarı"]
    [list_to_map [("Esle", CStr "2024-05-02 - 11"); ("UPB Tutarı", CStr "100")];
     list_to_map [("Esle", CStr "2024-05-03 - 12"); ("UPB Tutarı", CStr "250")]].

Definition mikro_ornek : DataFrame :=
  mkDF ["SIRA NO"; "Esle"]
    [list_to_map [("SIRA NO", CStr "9007"); ("Esle", CStr "2024-05-03 - 12")];
     list_to_map [("SIRA NO", CStr "9008"); ("Esle", CStr "2024-05-04 - 13")]].

(** The same invoice key on two rows. *)
Definition prosap_cift : DataFrame :=
  mkDF ["Esle"; "UPB Tutarı"]
    [list_to_map [("Esle", CStr "2024-05-03 - 12"); ("UPB Tutarı", CStr "100")];
     list_to_map [("Esle", CStr "2024-05-03 - 12"); ("UPB Tutarı", CStr "250")]].

(** One material, and pending orders for another one. *)
Definition malzeme_ornek : DataFrame :=
  mkDF ["Malzeme Kodu"; "Malzeme Adı"]
    [list_to_map [("Malzeme Kodu", CStr "3120001234"); ("Malzeme Adı", CStr "Koltuk")]].

Definition bekleyen_ornek : DataFrame :=
  mkDF ["Malzeme Kodu"; "Bekleyen Adet"]
    [list_to_map [("Malzeme Kodu", CStr "3120009999"); ("Bekleyen Adet", CStr "4")]].

End Ornek.

(** ** More of Python's built-ins *)

Module PyStr.

(** [ord(a)] and [chr(z)], on the code points 0 to 255. *)
Definition ord (a : ascii) : Z := Z.of_N (N_of_ascii a).
Definition chr (z : Z) : ascii := ascii_of_N (Z.to_N z).

(** [s.startswith(p)] *)
Fixpoint startswith (p s : string) : bool :=
  match p, s with
  | EmptyString, _ => true
  | String a p', String b s' => bool_decide (a = b) && startswith p' s'
  | String _ _, EmptyString => false
  end.

(** [s.endswith(p)]: one of the suffixes of [s] is [p]. *)
Fixpoint endswith (p s : string) : bool :=
  bool_decide (s = p)
  || match s with
     | EmptyString => false
     | String _ s' => endswith p s'
     end.

(** [s.replace(old, new)] for a non-empty [old]: the occurrences of
    [old] are found from the left and do not overlap.  [skip] counts
    the characters of an occurrence still to pass over. *)
Fixpoint replace_from (skip : nat) (old new s : string) : string :=
  match s with
  | EmptyString => EmptyString
  | String a s' =>
      match skip with
      | S k => replace_from k old new s'
      | O =>
          if startswith old s
          then new +:+ replace_from (String.length old - 1) old new s'
          else String a (replace_from 0 old new s')
      end
  end.

Definition replace (old new s : string) : string := replace_from 0 old new s.

(** [l.index(x)]: the first position of [x], ValueError without one. *)
Definition index (x : string) (l : list string) : result nat :=
  match list_find (λ y, y = x) l with
  | Some (i, _) => Ok i
  | None => Raise ValueError
  end.

(** [range(0, n, step)] for a positive [step]. *)
Definition range_step (n step : nat) : list nat :=
  (λ k, k * step)%nat <$> seq 0 ((n + step - 1) / step).

(** The slice [l[i:j]] of a list. *)
Definition slice {A} (i j : nat) (l : list A) : list A := take (j - i) (drop i l).

End PyStr.

(** ** pandas: frames from and to lists, selection, grouping *)

Module Pd.

(** [pd.DataFrame(data, columns=cols)] for a table of strings, each
    row as long as [cols], and column names that differ. *)
Definition from_rows (cols : list string) (data : list (list string)) : DataFrame :=
  {| columns := cols;
     rows := (λ r, list_to_map (zip cols (CStr <$> r))) <$> data |}.

(** [df.values.tolist()] *)
Definition values_tolist (df : DataFrame) : list (list cell) :=
  (λ r, (λ c, cell_of r c) <$> columns df) <$> rows df.

(** [df.head(n)] *)
Definition head (n : nat) (df : DataFrame) : DataFrame :=
  {| columns := columns df; rows := take n (rows df) |}.

(** [df[cols]] for a list of column names: KeyError when one of them
    is not a column. *)
Definition select (cols : list string) (df : DataFrame) : result DataFrame :=
  match list_find (λ c, c ∉ columns df) cols with
  | Some (_, c) => Raise (KeyError c)
  | None =>
      Ok {| columns := cols;
            rows := (λ r : row, filter (λ kv, kv.1 ∈ cols) r) <$> rows df |}
  end.

(** [df.groupby(by, as_index=False).agg({col: agg})]: one row per
    value of the column [by], rows with NaN there left out, the values
    in ascending order; under [col] the aggregate of the cells of the
    group, in the order of the rows. *)
Definition groupby_agg (agg : list cell → cell) (by_ col : string) (df : DataFrame) :
    result DataFrame :=
  if decide (by_ ∈ columns df) then
    if decide (col ∈ columns df) then
      let keys :=
        merge_sort Pandas.cell_asc
          (remove_dups (filter (λ k, k ≠ CNaN) (key_col by_ df))) in
      Ok {| columns := [by_; col];
            rows := (λ k, {[ by_ := k;
                             col := agg ((λ r, cell_of r col)
                                           <$> filter (λ r, cell_of r by_ = k) (rows df)) ]})
                    <$> keys |}
    else Raise (KeyError col)
  else Raise (KeyError by_).

End Pd.

(** ** BekleyenFast.py: the other methods of DogtasFastSiparisSorgu *)

Module DogtasFastSiparisSorgu.
Import BekleyenFast.

(** [row[i].strip() if row[i] else ''], lines 108-109; the index is
    within the row where the code gets here. *)
Definition hucre (row : list string) (i : nat) : string :=
  let x := default "" (row !! i) in
  if decide (x ≠ "") then Py.strip x else "".

(** Lines 107-111, the body of the loop over the rows below the
    header. *)
Definition config_satir (key_index value_index : nat) (config : gmap string string)
    (row : list string) : gmap string string :=
  if decide (key_index `max` value_index < length row)%nat then
    let key := hucre row key_index in
    let value := hucre row value_index in
    if decide (key ≠ "") then <[key := value]> config else config
  else config.

(** Lines 88-111 of [_load_config]: the dict built from the rows of
    the worksheet "Ayar". *)
Definition config_oku (all_values : list (list string)) : result (gmap string string) :=
  match all_values with
  | [] => Raise ValueError
  | headers :: satirlar =>
      key_index ← PyStr.index "Key" headers;
      value_index ← PyStr.index "Value" headers;
      Ok (foldl (config_satir key_index value_index) ∅ satirlar)
  end.

(** The fields [_load_config] sets. *)
Record ayar : Type := mkAyar {
  base_url : string;
  endpoint : string;
  customer_no : string;
  auth_data : list (string * string)
}.

(** [_load_config], the worksheet read without error. *)
Definition load_config (all_values : list (list string)) : ayar :=
  match config_oku all_values with
  | Ok config =>
      let get k := default "" (config !! k) in
      mkAyar (get "base_url") (get "bekleyenler") (get "CustomerNo")
        [("userName", get "userName"); ("password", get "password");
         ("clientId", get "clientId"); ("clientSecret", get "clientSecret");
         ("applicationCode", get "applicationCode")]
  | Raise _ => mkAyar "" "" "" []
  end.

(** Lines 221-224 of [_fetch_orders_for_period], on the list [data] of
    a successful response. *)
Definition fetch_orders_for_period (data : list order) : list order :=
  filter (λ record, default (CStr "") (dict_get "purchaseInvoiceDate" record) = CStr "00000000")
         data.

(** Line 274: [f"{order.get('orderId', '')}-{order.get('orderLineId', '')}"] *)
Definition combination (o : order) : string :=
  py_str (default (CStr "") (dict_get "orderId" o))
  +:+ "-" +:+ py_str (default (CStr "") (dict_get "orderLineId" o)).

(** Lines 269-278: the loop that keeps the first record of each
    combination. *)
Definition unique_orders (all_orders : list order) : list order :=
  (foldl (λ '(unique, seen_combinations) o,
            if decide (combination o ∈ seen_combinations)
            then (unique, seen_combinations)
            else (unique ++ [o], seen_combinations ∪ {[combination o]}))
         ([], ∅ : gset string) all_orders).1.

(** [get_orders], given the list [data] of the response. *)
Definition get_orders (data : list order) : list order :=
  match fetch_orders_for_period data with
  | [] => []
  | all_orders => unique_orders all_orders
  end.

(** The [while] loop of [_get_column_letter], the number of rounds
    bounded by [fuel]; [None] when the fuel ends before [col_num]
    reaches zero. *)
Fixpoint column_letter_loop (fuel : nat) (col_num : Z) (result : string) : option string :=
  if bool_decide (0 < col_num) then
    match fuel with
    | O => None
    | S fuel' =>
        let col_num := col_num - 1 in
        column_letter_loop fuel' (col_num / 26)
          (String (PyStr.chr (col_num mod 26 + PyStr.ord "A")) result)
    end
  else Some result.

(** [_get_column_letter(col_num)] *)
Definition get_column_letter (col_num : Z) : option string :=
  column_letter_loop (Z.to_nat col_num) col_num "".

(** [worksheet.update(values=values, range_name='A<start_row>:...')]:
    the block is written from the first cell of row [start_row] on;
    rows the sheet does not have yet above it are empty. *)
Definition update_range (start_row : Z) (values : list (list cell)) (s : sheet) : sheet :=
  let k := Z.to_nat (start_row - 1) in
  take k s ++ replicate (k - length s) [] ++ update_A1 values (drop k s).

Definition batch_size : nat := 1000.

(** One call of [worksheet.update] in the loop of [_batch_upload]: the
    range [A<start_row>:<end_col><end_row>] and the rows written. *)
Record update_call : Type := mkCall {
  start_row : Z;
  end_col : string;
  end_row : Z;
  batch : list (list cell)
}.

(** Lines 535-545, the calls of the loop in order. *)
Definition batch_calls (df : DataFrame) : option (list update_call) :=
  let data_values := Pd.values_tolist df in
  mapM (λ i,
          let batch := PyStr.slice i (i + batch_size) data_values in
          let start_row := Z.of_nat i + 2 in
          let end_row := start_row + Z.of_nat (length batch) - 1 in
          end_col ← get_column_letter (Z.of_nat (length (columns df)));
          Some (mkCall start_row end_col end_row batch))
       (PyStr.range_step (length data_values) batch_size).

(** [_batch_upload(worksheet, df)] for a frame with a column: the
    worksheet after the header and the batches are written. *)
Definition batch_upload (worksheet : sheet) (df : DataFrame) : option sheet :=
  let worksheet := update_A1 [CStr <$> columns df] worksheet in
  calls ← batch_calls df;
  Some (foldl (λ ws c, update_range (start_row c) (batch c) ws) worksheet calls).

End DogtasFastSiparisSorgu.

(** ** SSH.py: reading the sheet and the Excel extract *)

Module GoogleSheetsManager.

Definition numeric_columns : list string :=
  ["Servis Bakım ID"; "Sözleşme Numarası"; "Yedek Parça Sipariş No";
   "Ürün ID"; "Yedek Parça Ürün ID"; "Yedek Parça Ürün Miktarı"].

(** The lambda of line 120:
    [str(x).replace('.0', '') if str(x).endswith('.0') else str(x)]. *)
Definition sayisal_temizle (x : string) : string :=
  if PyStr.endswith ".0" x then PyStr.replace ".0" "" x else x.

(** [GoogleSheetsManager.mevcut_veriyi_al], given the values of the
    worksheet "Ssh"; an empty frame when there is no row below the
    header. *)
Definition mevcut_veriyi_al (mevcut_veri : list (list string)) : DataFrame :=
  match mevcut_veri with
  | basliklar :: ((_ :: _) as veri_satirlari) =>
      let df := Pd.from_rows basliklar veri_satirlari in
      let df :=
        foldl (λ df col,
                 if decide (col ∈ columns df)
                 then Pandas.set_column col
                        (λ r, CStr (sayisal_temizle (py_str (cell_of r col)))) df
                 else df)
              df numeric_columns in
      if decide (SSH.parca_durumu ∈ columns df) then df
      else Pandas.set_column SSH.parca_durumu (λ _, CStr "") df
  | _ => mkDF [] []
  end.

End GoogleSheetsManager.

Module SshManager.

Definition siparis_no : string := "Yedek Parça Sipariş No".

(** The mask of line 222. *)
Definition siparis_no_dolu (r : row) : Prop :=
  Py.strip (py_str (cell_of r siparis_no)) ≠ "".

#[global] Instance siparis_no_dolu_dec r : Decision (siparis_no_dolu r).
Proof. unfold siparis_no_dolu; apply _. Defined.

Definition istenen_sutun_sirasi : list string :=
  ["Parça Durumu"; "Belge Durum Nedeni"; "Montaj Belgesi Tarihi"; "Müşteri Adı";
   "Ürün Adı"; "Yedek Parça Ürün Tanımı"; "Yedek Parça Ürün Miktarı";
   "Sözleşme Numarası"; "Servis Bakım ID"; "Yedek Parça Sipariş No";
   "Ürün ID"; "Yedek Parça Ürün ID"].

(** [excel_verisi_oku] from line 220 on, given the frame [df] the
    lines before leave: rows without order number dropped, the status
    column added, the columns put in order. *)
Definition excel_verisi_oku (df : DataFrame) : result DataFrame :=
  let df :=
    if decide (siparis_no ∈ columns df) then Pandas.filter_rows siparis_no_dolu df else df in
  let df :=
    if decide (SSH.parca_durumu ∈ columns df) then df
    else Pandas.set_column SSH.parca_durumu (λ _, CStr "") df in
  let mevcut_sutunlar := filter (λ sutun, sutun ∈ columns df) istenen_sutun_sirasi in
  let kalan_sutunlar := filter (λ sutun, sutun ∉ mevcut_sutunlar) (columns df) in
  Pd.select (mevcut_sutunlar ++ kalan_sutunlar) df.

(** Lines 323-329 of [run_update]: the merged frame, from the frame of
    the Excel file and the values of the worksheet. *)
Definition son_veri (excel_df : DataFrame) (ssh_sayfasi : list (list string)) :
    result DataFrame :=
  yeni_veri ← excel_verisi_oku excel_df;
  SSH.verileri_birlestir yeni_veri (GoogleSheetsManager.mevcut_veriyi_al ssh_sayfasi).

End SshManager.

(** ** Stok.py: grouping before the join, the join with the price list *)

Module StokBirlesim.

(** Line 764: [bekleyen.groupby('Malzeme Kodu', as_index=False)
    .agg({'Bekleyen Adet': 'sum'})].  The sum of a group is a
    parameter: the properties below hold whatever it computes. *)
Definition grouped_bekleyen (sum : list cell → cell) (bekleyen : DataFrame) : result DataFrame :=
  Pd.groupby_agg sum "Malzeme Kodu" "Bekleyen Adet" bekleyen.

(** Lines 764 and 767: [merged_df] before the [fillna] of line 768. *)
Definition merged_bekleyen (sum : list cell → cell) (malzeme bekleyen : DataFrame) : result DataFrame :=
  grouped ← grouped_bekleyen sum bekleyen;
  Stok.malzeme_birlestir malzeme grouped.

(** Line 777: the first ten characters of the material code as the
    column "SAP Kodu". *)
Definition sap_kodu_ekle (merged_df : DataFrame) : result DataFrame :=
  if decide ("Malzeme Kodu" ∈ columns merged_df)
  then Ok (Pandas.set_column "SAP Kodu"
             (λ r, CStr (Stok.sap_kodu (cell_of r "Malzeme Kodu"))) merged_df)
  else Raise (KeyError "Malzeme Kodu").

(** Lines 777-781: the left join with the four columns of the price
    list. *)
Definition fiyat_birlestir (merged_df liste : DataFrame) : result DataFrame :=
  merged_df ← sap_kodu_ekle merged_df;
  fiyat ← Pd.select ["SAP Kodu"; "TOPTAN"; "PERAKENDE"; "LISTE"] liste;
  Pandas.merge Pandas.Left "SAP Kodu" merged_df fiyat.

End StokBirlesim.

(** ** central_config.py: the settings *)

Module CentralConfigManager.
Import BekleyenFast.

(** [str(row.get(k, '')).strip()] on a record of [get_all_records]. *)
Definition alan (row : order) (k : string) : string :=
  Py.strip (py_str (default (CStr "") (dict_get k row))).

(** Lines 365-377 of [get_settings], the body of the loop. *)
Definition settings_satir (settings_dict : gmap string string) (row : order) :
    gmap string string :=
  let app_name := alan row "App Name" in
  let key := alan row "Key" in
  let value := alan row "Value" in
  if decide (key = "") then settings_dict
  else if decide (app_name = "Global" ∨ app_name = "")
       then <[key := value]> settings_dict
       else <[app_name +:+ "_" +:+ key := value]> settings_dict.

(** [get_settings] on the records of the worksheet, no cache in
    play. *)
Definition get_settings (settings : list order) : gmap string string :=
  foldl settings_satir ∅ settings.

End CentralConfigManager.

(** ** Irsaliye.py: the match key *)

Module IrsaliyeProcessor.

(** Lines 279 and 316: the date as a string, [" - "], the number as a
    string. *)
Definition Esle (tarih no : string) : string := tarih +:+ " - " +:+ no.

End IrsaliyeProcessor.

(** ** Further notions the properties are stated with *)

(** The number a column label stands for: A is 1, Z is 26, AA is 27. *)
Definition column_number (s : string) : Z :=
  foldl (λ n a, n * 26 + (PyStr.ord a - PyStr.ord "A" + 1)) 0
        (String.list_ascii_of_string s).

(** The capital letters A to Z. *)
Definition is_capital (a : ascii) : Prop :=
  PyStr.ord "A" ≤ PyStr.ord a ≤ PyStr.ord "Z".

(** The value the rows [satirlar] of the worksheet "Ayar" give the key
    [k]: that of the last row that reaches both columns and has [k],
    blanks around it aside, in the key column; the empty string when
    there is none. *)
Definition ayar_degeri (key_index value_index : nat) (satirlar : list (list string))
    (k : string) : string :=
  default ""
    ((λ row, DogtasFastSiparisSorgu.hucre row value_index)
       <$> last (filter (λ row, (key_index `max` value_index < length row)%nat ∧
                                DogtasFastSiparisSorgu.hucre row key_index = k) satirlar)).

(** The name under which [get_settings] files a record: the key
    itself for the application "Global" or none, the key behind the
    name of the application otherwise. *)
Definition ayar_adi (row : BekleyenFast.order) : string :=
  let app_name := CentralConfigManager.alan row "App Name" in
  if decide (app_name = "Global" ∨ app_name = "")
  then CentralConfigManager.alan row "Key"
  else app_name +:+ "_" +:+ CentralConfigManager.alan row "Key".

(** The number of rows of the price list with the SAP code of the
    material [a]. *)
Definition fiyat_sayisi (liste : DataFrame) (a : row) : nat :=
  length (filter (λ b, cell_of b "SAP Kodu" = CStr (Stok.sap_kodu (cell_of a "Malzeme Kodu")))
                 (rows liste)).

(** The call of [worksheet.update] in round [k] of the loop of
    [_batch_upload], [col] the label of the last column. *)
Definition call_of (df : DataFrame) (col : string) (k : nat) :
    DogtasFastSiparisSorgu.update_call :=
  let B := DogtasFastSiparisSorgu.batch_size in
  let b := PyStr.slice (k * B) (k * B + B) (Pd.values_tolist df) in
  DogtasFastSiparisSorgu.mkCall (Z.of_nat (k * B) + 2) col
    (Z.of_nat (k * B) + 2 + Z.of_nat (length b) - 1) b.

(** The character [a] occurs in [s]. *)
Definition has_char (a : ascii) (s : string) : Prop :=
  a ∈ String.list_ascii_of_string s.

(** ** More sample data *)

Module OrnekEk.

(** A price list that holds one SAP code twice. *)
Definition fiyat_cift : DataFrame :=
  mkDF ["SAP Kodu"; "TOPTAN"; "PERAKENDE"; "LISTE"]
    [list_to_map [("SAP Kodu", CStr "3120001234"); ("TOPTAN", CStr "100");
                  ("PERAKENDE", CStr "150"); ("LISTE", CStr "200")];
     list_to_map [("SAP Kodu", CStr "3120001234"); ("TOPTAN", CStr "110");
                  ("PERAKENDE", CStr "160"); ("LISTE", CStr "210")]].

(** The sheet "Ssh" as [get_all_values] returns it: the header and
    one row, the service id written as a float. *)
Definition ssh_sayfasi : list (list string) :=
  [["Servis Bakım ID"; "Müşteri Adı"]; ["41.0"; "Ayse Kaya"]].

(** A response of the order service: one order line twice, and a line
    that is invoiced already. *)
Definition siparis (order_id line_id invoice_date : string) : BekleyenFast.order :=
  [("orderId", CStr order_id); ("orderLineId", CStr line_id);
   ("purchaseInvoiceDate", CStr invoice_date)].

Definition siparisler : list BekleyenFast.order :=
  [siparis "7001" "10" "00000000"; siparis "7001" "10" "00000000";
   siparis "7002" "20" "20240503"].

(** Processed orders with the columns of one frame. *)
Definition islenmis : list BekleyenFast.order :=
  [[("BagKoduBekleyen", CStr "A1"); ("Miktar", CStr "2")];
   [("BagKoduBekleyen", CStr "B2"); ("Miktar", CStr "5")]].

(** The first cell of each group. *)
Definition ilk_hucre (l : list cell) : cell := default CNaN (head l).

End OrnekEk.

(* ================================================================= *)
(** * Part II: properties *)
(* ================================================================= *)

(** Closed, decidable facts about sample data are settled by
    evaluation. *)
Ltac by_evaluation := apply (bool_decide_unpack _); vm_compute; exact I.

(** ** Key rules *)

Lemma string_app_cons a s t : String a s +:+ t = String a (s +:+ t).
Proof. reflexivity. Qed.

Lemma lstrip_zero_split s :
  ∃ n, s = Py.zeros n +:+ Py.lstrip (λ a, bool_decide (a = "0"%char)) s.
Proof.
  induction s as [|a s [n IH]]; simpl.
  - by exists O.
  - case_bool_decide as Ha.
    + exists (S n). subst a. simpl. rewrite string_app_cons. by f_equal.
    + by exists O.
Qed.

Lemma lstrip_zero_head s t :
  Py.lstrip (λ a, bool_decide (a = "0"%char)) s ≠ String "0" t.
Proof.
  induction s as [|a s IH]; simpl; [done|].
  case_bool_decide as Ha; [done|]. intros [= -> _]. by apply Ha.
Qed.

Lemma zfill_one t : Py.zfill 1 t = if decide (t = "") then "0" else t.
Proof. by destruct t. Qed.

Lemma take_prefix n s : ∃ t, s = Py.take n s +:+ t.
Proof.
  revert s. induction n as [|n IH]; intros s; simpl.
  - by exists s.
  - destruct s as [|a s]; [by exists ""|].
    destruct (IH s) as [t Ht]. exists t.
    rewrite string_app_cons. by f_equal.
Qed.

Lemma length_take n s : String.length (Py.take n s) = (n `min` String.length s)%nat.
Proof.
  revert s. induction n as [|n IH]; intros [|a s]; simpl; try done.
  by rewrite IH.
Qed.

(** C8.  Zero-normalisation ([lstrip('0')] then [zfill(1)], line 360 of
    BekleyenFast.py) removes exactly the leading zeros of the code and
    puts a single "0" back when nothing is left, so the key is never
    empty; the fixed-width rule ([str[:10]], line 777 of Stok.py) is the
    prefix of the code of length 10, or the whole code when it is
    shorter.  "0000" normalises to "0", and "0007001318" gives
    "0007001318" under the fixed-width rule and "7001318" once its zeros
    are stripped. *)
Theorem key_rules_zero_strip_and_prefix (s : string) :
  (∃ n t, s = Py.zeros n +:+ t ∧ (∀ t', t ≠ String "0" t') ∧
     BekleyenFast.malzeme_duzenle (CStr s) = if decide (t = "") then "0" else t) ∧
  (1 ≤ String.length (BekleyenFast.malzeme_duzenle (CStr s)))%nat ∧
  (∃ t, s = Stok.sap_kodu (CStr s) +:+ t) ∧
  String.length (Stok.sap_kodu (CStr s)) = (10 `min` String.length s)%nat ∧
  BekleyenFast.malzeme_duzenle (CStr "0000") = "0" ∧
  Stok.sap_kodu (CStr "0007001318") = "0007001318" ∧
  BekleyenFast.malzeme_duzenle (CStr "0007001318") = "7001318".
Proof.
  unfold BekleyenFast.malzeme_duzenle, Stok.sap_kodu; simpl py_str.
  split_and!; try reflexivity.
  - destruct (lstrip_zero_split s) as [n Hn].
    exists n, (Py.lstrip (λ a, bool_decide (a = "0"%char)) s).
    split_and!; [done|apply lstrip_zero_head|apply zfill_one].
  - rewrite zfill_one. case_decide as Ht; [simpl; lia|].
    destruct (Py.lstrip _ s); [done|simpl; lia].
  - apply take_prefix.
  - apply length_take.
Qed.

(** ** The incremental variant *)

Section Incremental.
Import BekleyenFast.

Lemma foldl_snoc_filter (P : order → Prop) `{!∀ o, Decision (P o)} acc l :
  foldl (λ new_records o, if decide (P o) then new_records ++ [o] else new_records) acc l
  = acc ++ filter P l.
Proof.
  revert acc. induction l as [|o l IH]; intros acc; simpl.
  - by rewrite app_nil_r.
  - rewrite IH. rewrite filter_cons. destruct (decide (P o)); [|done].
    by rewrite <-app_assoc.
Qed.

Lemma filter_new_records_filter processed existing :
  filter_new_records processed existing
  = filter (λ o, bag_kodu o ∉ existing) processed.
Proof.
  unfold filter_new_records. case_bool_decide as Hc.
  - destruct Hc as [-> | ->]; [done|].
    induction processed as [|o l IH]; [done|].
    rewrite filter_cons_True; [by f_equal|set_solver].
  - by rewrite (foldl_snoc_filter (λ o, bag_kodu o ∉ existing)).
Qed.

Lemma save_to_sheets_append processed s :
  get_existing_data s ≠ ∅ →
  save_to_sheets processed s
  = s ++ records_values (filter_new_records processed (get_existing_data s)).
Proof.
  intros Hne. unfold save_to_sheets.
  destruct processed as [|o l]; [by rewrite app_nil_r|].
  destruct (filter_new_records (o :: l) (get_existing_data s)) as [|o' l'] eqn:Hf;
    [by rewrite app_nil_r|].
  case_bool_decide as Hsz; [|done].
  by apply size_empty_inv, leibniz_equiv in Hsz.
Qed.

Lemma save_to_sheets_first_write processed s :
  get_existing_data s = ∅ → processed ≠ [] →
  save_to_sheets processed s
  = update_A1 ((CStr <$> records_columns processed) :: records_values processed) s.
Proof.
  intros He Hp. unfold save_to_sheets. rewrite He.
  destruct processed as [|o l]; [done|].
  unfold filter_new_records. rewrite bool_decide_eq_true_2 by (by right).
  by rewrite bool_decide_eq_true_2.
Qed.

End Incremental.

(** ** Derived columns of the stock table *)

Section StokFormulas.
Import Stok.

Lemma pow2_double bits : 0 < bits → 2 ^ bits = 2 * 2 ^ (bits - 1).
Proof.
  intros Hb. replace bits with (Z.succ (bits - 1)) at 1 by lia.
  rewrite Z.pow_succ_r by lia. done.
Qed.

Lemma wrap_fits bits x : 0 < bits → fits bits (wrap bits x).
Proof.
  intros Hb. unfold fits, wrap.
  assert (0 < 2 ^ (bits - 1)) by (apply Z.pow_pos_nonneg; lia).
  pose proof (pow2_double bits Hb).
  pose proof (Z.mod_pos_bound (x + 2 ^ (bits - 1)) (2 ^ bits)). lia.
Qed.

Lemma wrap_congr bits x : 0 < bits → ∃ k, wrap bits x = x + k * 2 ^ bits.
Proof.
  intros Hb. unfold wrap.
  assert (0 < 2 ^ (bits - 1)) by (apply Z.pow_pos_nonneg; lia).
  pose proof (pow2_double bits Hb).
  exists (- ((x + 2 ^ (bits - 1)) / 2 ^ bits)).
  pose proof (Z.div_mod (x + 2 ^ (bits - 1)) (2 ^ bits)). lia.
Qed.

Lemma wrap_small bits x : 0 < bits → fits bits x → wrap bits x = x.
Proof.
  intros Hb [Hl Hu]. unfold wrap.
  pose proof (pow2_double bits Hb).
  rewrite Z.mod_small; lia.
Qed.

Lemma where_pos_max x : where_pos x = Z.max 0 x.
Proof. unfold where_pos. destruct (Z.ltb_spec 0 x); lia. Qed.

Lemma fazla_ver_congr bits r :
  0 < bits → ∃ k, fazla_hesaplama bits r + ver_hesaplama bits r = k * 2 ^ bits.
Proof.
  intros Hb. unfold fazla_hesaplama, ver_hesaplama, add, sub.
  destruct (wrap_congr bits (DEPO r + Bekleyen r) Hb) as [k1 ->].
  destruct (wrap_congr bits (DEPO r + Bekleyen r + k1 * 2 ^ bits + Plan r) Hb) as [k2 ->].
  destruct (wrap_congr bits
    (DEPO r + Bekleyen r + k1 * 2 ^ bits + Plan r + k2 * 2 ^ bits - Borc r) Hb) as [k3 ->].
  destruct (wrap_congr bits (Borc r - DEPO r) Hb) as [k4 ->].
  destruct (wrap_congr bits (Borc r - DEPO r + k4 * 2 ^ bits - Bekleyen r) Hb) as [k5 ->].
  destruct (wrap_congr bits
    (Borc r - DEPO r + k4 * 2 ^ bits - Bekleyen r + k5 * 2 ^ bits - Plan r) Hb) as [k6 ->].
  exists (k1 + k2 + k3 + k4 + k5 + k6). lia.
Qed.

End StokFormulas.

(** C6.  On every row, Fazla is [max(0, DEPO + Bekleyen + Plan - Borç)]
    and Ver is [max(0, Borç - DEPO - Bekleyen - Plan)], the sums being
    the ones the integer columns compute, and the two are never both
    positive.  As long as the sums fit the column they are the integer
    sums themselves. *)
Theorem fazla_ver_zero_floor (bits : Z) (r : Stok.satir) :
  0 < bits →
  Stok.Fazla bits r = Z.max 0 (Stok.fazla_hesaplama bits r) ∧
  Stok.Ver bits r = Z.max 0 (Stok.ver_hesaplama bits r) ∧
  ¬ (0 < Stok.Fazla bits r ∧ 0 < Stok.Ver bits r) ∧
  (no_overflow bits r →
     Stok.Fazla bits r
       = Z.max 0 (Stok.DEPO r + Stok.Bekleyen r + Stok.Plan r - Stok.Borc r) ∧
     Stok.Ver bits r
       = Z.max 0 (Stok.Borc r - Stok.DEPO r - Stok.Bekleyen r - Stok.Plan r)).
Proof.
  intros Hb. unfold Stok.Fazla, Stok.Ver. rewrite !where_pos_max.
  split_and!; try done.
  - intros [Hf Hv].
    destruct (fazla_ver_congr bits r Hb) as [k Hk].
    assert (fits bits (Stok.fazla_hesaplama bits r)) as [_ Hfu]
      by (apply wrap_fits, Hb).
    assert (fits bits (Stok.ver_hesaplama bits r)) as [_ Hvu]
      by (apply wrap_fits, Hb).
    pose proof (pow2_double bits Hb).
    assert (0 < 2 ^ (bits - 1)) by (apply Z.pow_pos_nonneg; lia).
    assert (0 < k * 2 ^ bits < 2 ^ bits) as [Hlo Hhi] by lia.
    destruct (Z_le_gt_dec k 0); nia.
  - intros (H1 & H2 & H3 & H4 & H5 & H6).
    unfold Stok.fazla_hesaplama, Stok.ver_hesaplama, Stok.add, Stok.sub.
    rewrite (wrap_small bits (Stok.DEPO r + Stok.Bekleyen r)) by done.
    rewrite (wrap_small bits (Stok.DEPO r + Stok.Bekleyen r + Stok.Plan r)) by done.
    rewrite (wrap_small bits (Stok.DEPO r + Stok.Bekleyen r + Stok.Plan r - Stok.Borc r)) by done.
    rewrite (wrap_small bits (Stok.Borc r - Stok.DEPO r)) by done.
    rewrite (wrap_small bits (Stok.Borc r - Stok.DEPO r - Stok.Bekleyen r)) by done.
    rewrite (wrap_small bits (Stok.Borc r - Stok.DEPO r - Stok.Bekleyen r - Stok.Plan r)) by done.
    done.
Qed.

Lemma fazla_ver_zero_floor_witness :
  0 < 64 ∧ no_overflow 64 (Stok.mkSatir 10 2 0 15 0 0 0) ∧
  Stok.Fazla 64 (Stok.mkSatir 10 2 0 15 0 0 0) = 0 ∧
  Stok.Ver 64 (Stok.mkSatir 10 2 0 15 0 0 0) = 3.
Proof.
  assert (Hb : 0 < 64) by lia.
  assert (Hn : no_overflow 64 (Stok.mkSatir 10 2 0 15 0 0 0))
    by (unfold no_overflow, fits; simpl; lia).
  destruct (fazla_ver_zero_floor 64 (Stok.mkSatir 10 2 0 15 0 0 0) Hb) as (_ & _ & _ & H).
  destruct (H Hn) as [Hf Hv].
  split_and!; [exact Hb|exact Hn|rewrite Hf; reflexivity|rewrite Hv; reflexivity].
Defined.

Section StokPercent.
Import Stok.

Lemma cond_Zopp_mul s x y : cond_Zopp s x * y = cond_Zopp s (x * y).
Proof. destruct s; simpl; lia. Qed.

(** [int(x)] is the quotient, rounded toward zero, of the signed
    mantissa by the power of two its exponent stands for. *)
Lemma py_int_quot s m e :
  py_int (S754_finite s m e)
  = Ok (Z.quot (cond_Zopp s (Zpos m) * 2 ^ Z.max 0 e) (2 ^ Z.max 0 (- e))).
Proof.
  unfold py_int, trunc_pos. f_equal.
  destruct (Z.leb_spec 0 e) as [He|He].
  - rewrite Z.max_r, Z.max_l by lia. rewrite Z.pow_0_r, Z.quot_1_r.
    rewrite Z.shiftl_mul_pow2 by lia. by rewrite cond_Zopp_mul.
  - rewrite Z.max_l, Z.max_r by lia. rewrite Z.pow_0_r, Z.mul_1_r.
    rewrite Z.shiftr_div_pow2 by lia.
    assert (0 < 2 ^ (- e)) by (apply Z.pow_pos_nonneg; lia).
    destruct s; simpl.
    + change (Z.neg m) with (- Z.pos m).
      rewrite Z.quot_opp_l by lia. f_equal.
      symmetry. apply Z.quot_div_nonneg; lia.
    + symmetry. apply Z.quot_div_nonneg; lia.
Qed.

End StokPercent.

(** *** No overflow, and the cut toward zero *)

Section Digits.

Lemma digits2_pos_bounds p :
  2 ^ (Zpos (digits2_pos p) - 1) ≤ Zpos p < 2 ^ Zpos (digits2_pos p).
Proof.
  induction p as [p IH|p IH|]; cbn [digits2_pos].
  - rewrite Pos2Z.inj_succ. replace (Z.succ (Z.pos (digits2_pos p)) - 1) with (Z.pos (digits2_pos p)) by lia.
    rewrite Z.pow_succ_r by lia.
    replace (Z.pos (digits2_pos p)) with (Z.succ (Z.pos (digits2_pos p) - 1)) at 1 by lia.
    rewrite Z.pow_succ_r by lia. lia.
  - rewrite Pos2Z.inj_succ. replace (Z.succ (Z.pos (digits2_pos p)) - 1) with (Z.pos (digits2_pos p)) by lia.
    rewrite Z.pow_succ_r by lia.
    replace (Z.pos (digits2_pos p)) with (Z.succ (Z.pos (digits2_pos p) - 1)) at 1 by lia.
    rewrite Z.pow_succ_r by lia. lia.
  - cbn. lia.
Qed.

Lemma Zdigits2_nonneg m : 0 ≤ Zdigits2 m.
Proof. destruct m; cbn; lia. Qed.

Lemma Zdigits2_upper m : 0 ≤ m → m < 2 ^ Zdigits2 m.
Proof.
  destruct m as [|p|p]; intros Hm; [cbn; lia| |lia].
  apply digits2_pos_bounds.
Qed.

Lemma Zdigits2_le m d : 0 ≤ m → 0 ≤ d → m < 2 ^ d → Zdigits2 m ≤ d.
Proof.
  destruct m as [|p|p]; intros Hm Hd Hlt; [done| |lia].
  cbn. pose proof (digits2_pos_bounds p) as [Hlo _].
  destruct (Z.le_gt_cases (Z.pos (digits2_pos p)) d) as [|Hgt]; [done|].
  assert (2 ^ d ≤ 2 ^ (Z.pos (digits2_pos p) - 1)) by (apply Z.pow_le_mono_r; lia).
  lia.
Qed.

End Digits.

Section Shift.
Import Stok.

Lemma shr_m_of_loc m l : shr_m (shr_record_of_loc m l) = m.
Proof. by destruct l as [|[]]. Qed.

Lemma shr_1_m mrs : 0 ≤ shr_m mrs → shr_m (shr_1 mrs) = shr_m mrs / 2.
Proof.
  destruct mrs as [m r s]. cbn [shr_m]. intros Hm. rewrite <-Z.div2_div.
  destruct m as [|[p|p|]|p]; try done; lia.
Qed.

Lemma iter_shr_1_m p : ∀ mrs,
  0 ≤ shr_m mrs → shr_m (SpecFloat.iter_pos shr_1 p mrs) = shr_m mrs / 2 ^ Zpos p.
Proof.
  induction p as [p IH|p IH|]; intros mrs Hm; cbn [SpecFloat.iter_pos].
  - assert (0 < 2 ^ Z.pos p) as Hp by (apply Z.pow_pos_nonneg; lia).
    assert (0 ≤ shr_m (shr_1 mrs)) as H1
      by (rewrite shr_1_m by done; apply Z.div_pos; lia).
    assert (0 ≤ shr_m (SpecFloat.iter_pos shr_1 p (shr_1 mrs))) as H2
      by (rewrite IH by done; by apply Z.div_pos).
    rewrite IH, IH, shr_1_m by done.
    replace (2 ^ Z.pos p~1) with (2 * 2 ^ Z.pos p * 2 ^ Z.pos p).
    + rewrite !Z.div_div by lia. f_equal; lia.
    + replace (Z.pos p~1) with (1 + Z.pos p + Z.pos p) by lia.
      rewrite !Z.pow_add_r by lia. by rewrite Z.pow_1_r.
  - assert (0 < 2 ^ Z.pos p) as Hp by (apply Z.pow_pos_nonneg; lia).
    assert (0 ≤ shr_m (SpecFloat.iter_pos shr_1 p mrs)) as H2
      by (rewrite IH by done; by apply Z.div_pos).
    rewrite IH, IH by done.
    replace (2 ^ Z.pos p~0) with (2 ^ Z.pos p * 2 ^ Z.pos p).
    + rewrite !Z.div_div by lia. f_equal; lia.
    + replace (Z.pos p~0) with (Z.pos p + Z.pos p) by lia.
      by rewrite !Z.pow_add_r by lia.
  - rewrite shr_1_m by done. done.
Qed.

Lemma fexp_le B t : t ≤ B → -1074 < B → fexp prec emax t < B.
Proof. unfold fexp, emin, prec, emax. lia. Qed.

(** Shifting to the exponent of the format keeps a mantissa below the
    bound it was below. *)
Lemma shr_fexp_below B m e l :
  0 ≤ m → m < 2 ^ (B - e) → e < B → -1074 < B →
  0 ≤ shr_m (shr_fexp prec emax m e l).1 ∧
  shr_m (shr_fexp prec emax m e l).1 < 2 ^ (B - (shr_fexp prec emax m e l).2) ∧
  (shr_fexp prec emax m e l).2 < B.
Proof.
  intros Hm Hlt He HB. unfold shr_fexp, shr.
  assert (Zdigits2 m + e ≤ B) as Hd.
  { assert (Zdigits2 m ≤ B - e) by (apply Zdigits2_le; lia). lia. }
  pose proof (fexp_le B (Zdigits2 m + e) Hd HB) as Hf.
  destruct (fexp prec emax (Zdigits2 m + e) - e) as [|p|p] eqn:Hn; cbn [fst snd].
  - by rewrite shr_m_of_loc.
  - rewrite iter_shr_1_m by (by rewrite shr_m_of_loc). rewrite shr_m_of_loc.
    assert (0 < 2 ^ Z.pos p) by (apply Z.pow_pos_nonneg; lia).
    split_and!.
    + by apply Z.div_pos.
    + apply Z.div_lt_upper_bound; [done|].
      rewrite <-Z.pow_add_r by lia. by replace (Z.pos p + (B - (e + Z.pos p))) with (B - e) by lia.
    + lia.
  - by rewrite shr_m_of_loc.
Qed.

Lemma round_nearest_even_bounds m l :
  m ≤ round_nearest_even m l ≤ m + 1.
Proof. unfold round_nearest_even. destruct l as [|[]]; try destruct (Z.even m); lia. Qed.

(** Rounding a mantissa of magnitude below [2^B] gives zero or a
    finite float of magnitude below [2^(B+1)]: no overflow as long as
    [B] stays below the largest exponent. *)
Lemma binary_round_aux_below B s m e l :
  0 ≤ m → m < 2 ^ (B - e) → e < B → -1074 < B → B ≤ 971 →
  below (B + 1) (binary_round_aux prec emax s m e l).
Proof.
  intros Hm Hlt He HB HB'. unfold binary_round_aux.
  destruct (shr_fexp_below B m e l Hm Hlt He HB) as (H1 & H2 & H3).
  destruct (shr_fexp prec emax m e l) as [mrs1 e1]. cbn [fst snd] in H1, H2, H3.
  pose proof (round_nearest_even_bounds (shr_m mrs1) (loc_of_shr_record mrs1)) as [Hr1 Hr2].
  assert (round_nearest_even (shr_m mrs1) (loc_of_shr_record mrs1) < 2 ^ (B + 1 - e1)) as Hr3.
  { replace (B + 1 - e1) with (Z.succ (B - e1)) by lia. rewrite Z.pow_succ_r by lia. lia. }
  destruct (shr_fexp_below (B + 1) (round_nearest_even (shr_m mrs1) (loc_of_shr_record mrs1))
              e1 loc_Exact) as (H4 & H5 & H6); [lia..|].
  destruct (shr_fexp prec emax _ e1 loc_Exact) as [mrs2 e2]. cbn [fst snd] in H4, H5, H6.
  destruct (shr_m mrs2) as [|p|p]; [done| |lia].
  rewrite (proj2 (Z.leb_le e2 (emax - prec))) by (unfold emax, prec; lia).
  done.
Qed.

End Shift.

Section Below.
Import Stok.

Lemma below_mono B B' x : B ≤ B' → below B x → below B' x.
Proof.
  intros HB. destruct x as [| | |s m e]; try done. intros [Hm He]. split; [|lia].
  eapply Z.lt_le_trans; [done|]. apply Z.pow_le_mono_r; lia.
Qed.

Lemma iter_xO_val m d : Zpos (Pos.iter xO m d) = Zpos m * 2 ^ Zpos d.
Proof.
  rewrite <-Z.shiftl_mul_pow2 by lia. cbn [Z.shiftl].
  apply (Pos.iter_swap_gen _ _ Zpos xO (Z.mul 2)). done.
Qed.

(** Aligning a mantissa to a smaller exponent does not change the
    number. *)
Lemma shl_align_below B m e e' :
  Zpos m < 2 ^ (B - e) → e < B →
  Zpos (shl_align m e e').1 < 2 ^ (B - (shl_align m e e').2) ∧ (shl_align m e e').2 ≤ e.
Proof.
  intros Hm He. unfold shl_align.
  destruct (e' - e) as [|d|d] eqn:Hd; cbn [fst snd]; [done|done|].
  split; [|lia]. rewrite iter_xO_val.
  replace (B - e') with ((B - e) + Z.pos d) by lia.
  rewrite Z.pow_add_r by lia.
  apply Z.mul_lt_mono_pos_r; [apply Z.pow_pos_nonneg; lia|done].
Qed.

Lemma binary_round_below B s m e :
  Zpos m < 2 ^ (B - e) → e < B → -1074 < B → B ≤ 971 →
  below (B + 1) (binary_round prec emax s m e).
Proof.
  intros Hm He HB HB'. unfold binary_round.
  destruct (shl_align_below B m e (fexp prec emax (Z.pos (digits2_pos m) + e)) Hm He)
    as [H1 H2].
  destruct (shl_align m e _) as [mz ez]. cbn [fst snd] in H1, H2.
  apply binary_round_aux_below; lia.
Qed.

Lemma binary_normalize_below B z e s0 :
  Z.abs z < 2 ^ (B - e) → e < B → -1074 < B → B ≤ 971 →
  below (B + 1) (binary_normalize prec emax z e s0).
Proof.
  intros Hz He HB HB'. destruct z as [|p|p]; [done|..]; cbn [binary_normalize];
    by apply binary_round_below.
Qed.

Lemma SFsub_below B x y :
  below B x → below B y → -1074 < B → B + 1 ≤ 971 →
  below (B + 2) (SFsub prec emax x y).
Proof.
  intros Hx Hy HB HB'.
  destruct x as [sx| | |sx mx ex], y as [sy| | |sy my ey]; try done.
  - by destruct sx, sy.
  - cbn [SFsub]. apply (below_mono B); [lia|exact Hy].
  - cbn [SFsub]. apply (below_mono B); [lia|exact Hx].
  - destruct Hx as [Hmx Hex], Hy as [Hmy Hey]. cbn [SFsub].
    set (ez := Z.min ex ey).
    destruct (shl_align_below B mx ex ez Hmx Hex) as [H1 _].
    destruct (shl_align_below B my ey ez Hmy Hey) as [H2 _].
    assert ((shl_align mx ex ez).2 = ez) as E1.
    { unfold shl_align. destruct (ez - ex) eqn:Hd; cbn [snd]; lia. }
    assert ((shl_align my ey ez).2 = ez) as E2.
    { unfold shl_align. destruct (ez - ey) eqn:Hd; cbn [snd]; lia. }
    rewrite E1 in H1. rewrite E2 in H2.
    replace (B + 2) with (B + 1 + 1) by lia.
    apply binary_normalize_below; [|lia..].
    replace (B + 1 - ez) with (Z.succ (B - ez)) by lia. rewrite Z.pow_succ_r by lia.
    destruct sx, sy; cbn [cond_Zopp]; lia.
Qed.

Lemma SFmul_below Bx By x y :
  below Bx x → below By y → -1074 < Bx + By → Bx + By ≤ 971 →
  below (Bx + By + 1) (SFmul prec emax x y).
Proof.
  intros Hx Hy HB HB'.
  destruct x as [sx| | |sx mx ex], y as [sy| | |sy my ey]; try done.
  destruct Hx as [Hmx Hex], Hy as [Hmy Hey]. cbn [SFmul].
  apply binary_round_aux_below; [lia| |lia..].
  rewrite Pos2Z.inj_mul.
  replace (Bx + By - (ex + ey)) with ((Bx - ex) + (By - ey)) by lia.
  rewrite Z.pow_add_r by lia.
  apply Z.mul_lt_mono_nonneg; lia.
Qed.

(** The quotient of two integers is below the dividend. *)
Lemma int_truediv_below B pay payda :
  payda ≠ 0 → Z.abs pay < 2 ^ B → 0 < B → B ≤ 971 →
  below (B + 1) (int_truediv pay payda).
Proof.
  intros Hp Hpay HB HB'. unfold int_truediv.
  assert (∀ sx mx sy my, Zpos mx < 2 ^ B →
            below (B + 1) (SFdiv prec emax (S754_finite sx mx 0) (S754_finite sy my 0)))
    as Hdiv.
  { intros sx mx sy my Hmx. cbn [SFdiv]. unfold SFdiv_core_binary.
    set (e' := Z.min (fexp prec emax (Zdigits2 (Z.pos mx) + 0 - (Zdigits2 (Z.pos my) + 0)))
                     (0 - 0)).
    assert (e' ≤ 0) as He' by (unfold e'; lia).
    set (m' := match 0 - 0 - e' with
               | 0 => Z.pos mx
               | Z.pos _ => Z.shiftl (Z.pos mx) (0 - 0 - e')
               | Z.neg _ => 0
               end).
    assert (m' = Z.pos mx * 2 ^ (- e')) as Hm'.
    { unfold m'. destruct (0 - 0 - e') as [|p|p] eqn:Hs.
      - replace (- e') with 0 by lia. lia.
      - rewrite Z.shiftl_mul_pow2 by lia. f_equal. f_equal. lia.
      - lia. }
    assert (0 < 2 ^ (- e')) by (apply Z.pow_pos_nonneg; lia).
    assert (0 ≤ m') by lia.
    destruct (Z.div_eucl m' (Z.pos my)) as [q r] eqn:Hde.
    assert (q = m' / Z.pos my) as Hq by (unfold Z.div; by rewrite Hde).
    assert (0 ≤ q) by (rewrite Hq; apply Z.div_pos; lia).
    assert (q ≤ m') by (rewrite Hq; apply Z.div_le_upper_bound; [lia|nia]).
    apply binary_round_aux_below; [done| |lia..].
    replace (B - e') with (B + - e') by lia. rewrite Z.pow_add_r by lia.
    assert (m' < 2 ^ B * 2 ^ (- e')); [|lia].
    rewrite Hm'. apply Z.mul_lt_mono_pos_r; lia. }
  destruct pay as [|mx|mx], payda as [|my|my]; try done; cbn [exact_int];
    apply Hdiv; lia.
Qed.

(** The percentage of two integers of a 64-bit column is computed
    without overflow. *)
Lemma yuzde_float_below pay payda :
  payda ≠ 0 → fits 64 pay → below 76 (yuzde_float pay payda).
Proof.
  intros Hp [Hl Hu]. unfold yuzde_float.
  assert (below 65 (int_truediv pay payda)) as Hq.
  { apply (int_truediv_below 64); [done| |lia..].
    change (2 ^ (64 - 1)) with 9223372036854775808 in Hl, Hu.
    change (2 ^ 64) with 18446744073709551616. lia. }
  assert (below 65 (float_of_int 1)) as H1 by (vm_compute; split; reflexivity).
  assert (below 8 (float_of_int 100)) as H100 by (vm_compute; split; reflexivity).
  pose proof (SFsub_below 65 _ _ H1 Hq ltac:(lia) ltac:(lia)) as Hd.
  apply (SFmul_below 67 8 _ _ Hd H100); lia.
Qed.

End Below.

Section Cut.
Import Stok.

Lemma py_int_cut B x : below B x → ∃ z, py_int x = Ok z ∧ cut_toward_zero x z.
Proof.
  destruct x as [s| | |s m e]; try done; intros _.
  - by exists 0.
  - exists (cond_Zopp s (trunc_pos m e)). split; [done|].
    assert (0 ≤ trunc_pos m e ∧
            trunc_pos m e * 2 ^ Z.max 0 (- e) ≤ Zpos m * 2 ^ Z.max 0 e
              < (trunc_pos m e + 1) * 2 ^ Z.max 0 (- e)) as [Hn Hb].
    { unfold trunc_pos. destruct (Z.leb_spec 0 e) as [He|He].
      - rewrite Z.max_l, Z.max_r by lia. rewrite Z.shiftl_mul_pow2 by lia.
        assert (0 < 2 ^ e) by (apply Z.pow_pos_nonneg; lia). cbn [Z.pow]. lia.
      - rewrite Z.max_r, Z.max_l by lia. rewrite Z.shiftr_div_pow2 by lia.
        assert (0 < 2 ^ (- e)) as Hp by (apply Z.pow_pos_nonneg; lia).
        pose proof (Z.div_mod (Z.pos m) (2 ^ (- e)) ltac:(lia)) as Hdm.
        pose proof (Z.mod_pos_bound (Z.pos m) (2 ^ (- e)) Hp) as Hmod.
        assert (0 ≤ Z.pos m / 2 ^ (- e)) by (apply Z.div_pos; lia).
        cbn [Z.pow]. lia. }
    cbn [cut_toward_zero].
    assert (Z.abs (cond_Zopp s (trunc_pos m e)) = trunc_pos m e) as ->
      by (destruct s; cbn [cond_Zopp]; lia).
    done.
Qed.

End Cut.

(** C7, as the code has it.  On every row, "###" (from ID2 and
    PERAKENDE) and INDIRIM (from PERAKENDE and LISTE) are exactly 0 when
    the divisor is zero, the division not being evaluated.  When the
    divisor is not zero and the dividend is a value of a 64-bit column,
    the float [(1 - pay/payda) * 100] is finite, so [int] does not
    fail, and the column holds that float cut toward zero: the integer
    of its sign whose magnitude is the integer part of its magnitude,
    not the nearest integer. *)
Theorem yuzde_truncates (r : Stok.satir) :
  (Stok.PERAKENDE r = 0 → Stok.diyez r = Ok 0) ∧
  (Stok.LISTE r = 0 → Stok.INDIRIM r = Ok 0) ∧
  (Stok.PERAKENDE r ≠ 0 → fits 64 (Stok.ID2 r) →
     ∃ z, Stok.diyez r = Ok z ∧
          cut_toward_zero (Stok.yuzde_float (Stok.ID2 r) (Stok.PERAKENDE r)) z) ∧
  (Stok.LISTE r ≠ 0 → fits 64 (Stok.PERAKENDE r) →
     ∃ z, Stok.INDIRIM r = Ok z ∧
          cut_toward_zero (Stok.yuzde_float (Stok.PERAKENDE r) (Stok.LISTE r)) z).
Proof.
  unfold Stok.diyez, Stok.INDIRIM, Stok.yuzde. split_and!.
  - intros ->. by rewrite bool_decide_eq_false_2 by (intros H; by apply H).
  - intros ->. by rewrite bool_decide_eq_false_2 by (intros H; by apply H).
  - intros Hp Hf. rewrite bool_decide_eq_true_2 by done.
    apply (py_int_cut 76). by apply yuzde_float_below.
  - intros Hp Hf. rewrite bool_decide_eq_true_2 by done.
    apply (py_int_cut 76). by apply yuzde_float_below.
Qed.

Lemma yuzde_truncates_witness :
  (∃ z, Stok.diyez (Stok.mkSatir 0 0 0 0 1 3 0) = Ok z ∧
        cut_toward_zero (Stok.yuzde_float 1 3) z ∧ z = 66) ∧
  Stok.INDIRIM (Stok.mkSatir 0 0 0 0 1 3 0) = Ok 0.
Proof.
  destruct (yuzde_truncates (Stok.mkSatir 0 0 0 0 1 3 0)) as (_ & H2 & H3 & _).
  split.
  - destruct H3 as (z & Hz & Hcut); [by cbn|unfold fits; cbn; lia|].
    exists z. split_and!; [exact Hz|exact Hcut|].
    vm_compute in Hz. by injection Hz.
  - apply H2. reflexivity.
Defined.

(** With ID2 = 1 and PERAKENDE = 3 the float value is 66.67: the code
    stores 66 where rounding gives 67. *)
Lemma yuzde_is_not_rounded :
  Stok.PERAKENDE (Stok.mkSatir 0 0 0 0 1 3 0) ≠ 0 ∧
  Stok.diyez (Stok.mkSatir 0 0 0 0 1 3 0) = Ok 66 ∧
  Stok.py_round (Stok.yuzde_float 1 3) = Ok 67 ∧
  Stok.diyez (Stok.mkSatir 0 0 0 0 1 3 0) ≠ Stok.py_round (Stok.yuzde_float 1 3).
Proof. split_and!; [by simpl|by vm_compute..]. Qed.

(** The quotient is rounded once, from the two integers: a dividend
    that no float holds exactly, 2^53 + 1, is not rounded before the
    division. *)
Lemma yuzde_divides_the_integers :
  Stok.diyez (Stok.mkSatir 0 0 0 0 9007199254740993 3 0) = Ok (-300239975158033024) ∧
  Stok.INDIRIM (Stok.mkSatir 0 0 0 0 0 93 100) = Ok 6.
Proof. split; by vm_compute. Qed.

(** ** The incremental variant: filter and append *)

(** The filter and the two ways of writing.  A processed record
    survives [_filter_new_records] exactly when its BagKoduBekleyen is
    not among the existing keys, and the survivors keep their input
    order.  When the worksheet yields at least one existing key they
    are appended below its rows, which stay as they are; when it yields
    none, all records are written, under a header row, from cell A1
    on. *)
Theorem filter_new_records_append (processed : list BekleyenFast.order)
    (existing : gset string) (s : BekleyenFast.sheet) :
  let kept := BekleyenFast.filter_new_records processed existing in
  kept = filter (λ o, BekleyenFast.bag_kodu o ∉ existing) processed ∧
  (∀ o, o ∈ kept ↔ o ∈ processed ∧ BekleyenFast.bag_kodu o ∉ existing) ∧
  kept `sublist_of` processed ∧
  (BekleyenFast.get_existing_data s ≠ ∅ →
     BekleyenFast.save_to_sheets processed s
     = s ++ BekleyenFast.records_values
              (BekleyenFast.filter_new_records processed (BekleyenFast.get_existing_data s))) ∧
  (BekleyenFast.get_existing_data s = ∅ → processed ≠ [] →
     BekleyenFast.save_to_sheets processed s
     = BekleyenFast.update_A1
         ((CStr <$> BekleyenFast.records_columns processed)
            :: BekleyenFast.records_values processed) s).
Proof.
  simpl. rewrite filter_new_records_filter. split_and!.
  - done.
  - intros o. rewrite list_elem_of_filter. tauto.
  - apply sublist_filter.
  - apply save_to_sheets_append.
  - apply save_to_sheets_first_write.
Qed.

Lemma filter_new_records_append_witness :
  BekleyenFast.save_to_sheets
    [[("BagKoduBekleyen", CStr "A1")]; [("BagKoduBekleyen", CStr "B2")]]
    [[CStr "BagKoduBekleyen"]; [CStr "A1"]]
  = [[CStr "BagKoduBekleyen"]; [CStr "A1"]; [CStr "B2"]].
Proof.
  destruct (filter_new_records_append
              [[("BagKoduBekleyen", CStr "A1")]; [("BagKoduBekleyen", CStr "B2")]]
              ∅
              [[CStr "BagKoduBekleyen"]; [CStr "A1"]]) as (_ & _ & _ & H & _).
  rewrite H; [vm_compute; reflexivity|].
  vm_compute. discriminate.
Defined.

(** C9 at a worksheet that has rows but no column BagKoduBekleyen: it
    yields no existing key, the code takes this for a first write, and
    the one new record is written from cell A1 on, over the header and
    the row below it, where it should have been appended. *)
Theorem save_to_sheets_overwrites :
  BekleyenFast.get_existing_data [[CStr "Malzeme"]; [CStr "7001318"]] = ∅ ∧
  BekleyenFast.save_to_sheets
    [[("BagKoduBekleyen", CStr "A1")]] [[CStr "Malzeme"]; [CStr "7001318"]]
  = [[CStr "BagKoduBekleyen"]; [CStr "A1"]] ∧
  ¬ (∃ added,
       BekleyenFast.save_to_sheets
         [[("BagKoduBekleyen", CStr "A1")]] [[CStr "Malzeme"]; [CStr "7001318"]]
       = [[CStr "Malzeme"]; [CStr "7001318"]] ++ added).
Proof.
  split_and!; [by vm_compute..|].
  intros [added H]. vm_compute in H. discriminate.
Qed.

(** ** Joins *)

Section ListKeys.
Context {A K : Type} `{!EqDecision K} (f : A → K).

(** Among elements with distinct keys, at most one has a given key. *)
Lemma filter_key_unique (k : K) (l : list A) :
  NoDup (f <$> l) →
  filter (λ x, f x = k) l = [] ∨ ∃ x, filter (λ x, f x = k) l = [x].
Proof.
  induction l as [|x l IH]; intros Hnd; [by left|].
  rewrite fmap_cons in Hnd. apply NoDup_cons in Hnd as [Hx Hnd].
  rewrite filter_cons. destruct (decide (f x = k)) as [Hk|Hk]; [|by apply IH].
  right. exists x. f_equal.
  destruct (filter (λ y, f y = k) l) as [|y l'] eqn:Hf; [done|].
  assert (y ∈ filter (λ y, f y = k) l) as Hy by (rewrite Hf; left).
  apply list_elem_of_filter in Hy as [Hyk Hyl].
  exfalso. apply Hx. rewrite Hk, <-Hyk. by apply list_elem_of_fmap_2.
Qed.

Lemma filter_key_nil (k : K) (l : list A) :
  filter (λ x, f x = k) l = [] ↔ k ∉ f <$> l.
Proof.
  split.
  - intros Hf [x [-> Hx]]%list_elem_of_fmap.
    by eapply (filter_nil_not_elem_of (λ y, f y = f x)).
  - intros Hk. destruct (filter (λ x, f x = k) l) as [|y l'] eqn:Hf; [done|].
    assert (y ∈ filter (λ y, f y = k) l) as Hy by (rewrite Hf; left).
    apply list_elem_of_filter in Hy as [Hyk Hyl].
    exfalso. apply Hk. rewrite <-Hyk. by apply list_elem_of_fmap_2.
Qed.

(** Two elements of a list with distinct keys that share a key are
    the same element. *)
Lemma NoDup_fmap_eq (l : list A) (x y : A) :
  NoDup (f <$> l) → x ∈ l → y ∈ l → f x = f y → x = y.
Proof.
  induction l as [|z l IH]; intros Hnd Hx Hy Hxy; [by apply elem_of_nil in Hx|].
  rewrite fmap_cons in Hnd. apply NoDup_cons in Hnd as [Hz Hnd].
  apply elem_of_cons in Hx as [->|Hx]; apply elem_of_cons in Hy as [->|Hy].
  - done.
  - exfalso. apply Hz. rewrite Hxy. by apply list_elem_of_fmap_2.
  - exfalso. apply Hz. rewrite <-Hxy. by apply list_elem_of_fmap_2.
  - by apply IH.
Qed.

End ListKeys.

Section Merge.
Import Pandas.

Lemma lookup_nan_row cols c : c ∈ cols → nan_row cols !! c = Some CNaN.
Proof.
  unfold nan_row. induction cols as [|c' cols IH]; intros Hc.
  - by apply elem_of_nil in Hc.
  - rewrite fmap_cons. simpl. destruct (decide (c' = c)) as [->|Hne].
    + by rewrite lookup_insert_eq.
    + rewrite lookup_insert_ne by done. apply IH.
      apply elem_of_cons in Hc as [->|Hc]; done.
Qed.

Lemma cell_of_union_nan (a : row) cols c :
  c ∈ cols → cell_of (a ∪ nan_row cols) c = cell_of a c.
Proof.
  intros Hc. unfold cell_of. rewrite lookup_union, (lookup_nan_row _ _ Hc).
  by destruct (a !! c).
Qed.

Lemma cell_of_union_match (a b : row) c :
  cell_of b c = cell_of a c → cell_of (a ∪ b) c = cell_of a c.
Proof.
  unfold cell_of. rewrite lookup_union.
  by destruct (a !! c), (b !! c).
Qed.

Lemma lookup_union_nan_None (a : row) cols c :
  a !! c = None → c ∈ cols → (a ∪ nan_row cols) !! c = Some CNaN.
Proof.
  intros Ha Hc. by rewrite lookup_union, Ha, (lookup_nan_row _ _ Hc).
Qed.

Context (on : string) (left right : DataFrame).
Hypothesis on_left : on ∈ columns left.
Hypothesis on_right : on ∈ columns right.

Lemma matches_nil (other : DataFrame) (a : row) :
  matches on other a = [] ↔ cell_of a on ∉ key_col on other.
Proof. apply (filter_key_nil (λ r, cell_of r on)). Qed.

Lemma left_rows_inv (a r : row) :
  r ∈ left_rows on right a →
  cell_of r on = cell_of a on ∧
  (((cell_of a on ∉ key_col on right) ∧ r = a ∪ nan_row (columns right)) ∨
   (cell_of a on ∈ key_col on right)).
Proof.
  unfold left_rows. destruct (matches on right a) as [|b ms] eqn:Hm.
  - intros ->%list_elem_of_singleton. split.
    + by apply cell_of_union_nan.
    + left. split; [by apply matches_nil|done].
  - intros [b' [-> Hb']]%list_elem_of_fmap. rewrite <-Hm in Hb'.
    apply list_elem_of_filter in Hb' as [Hk Hb'].
    split; [by apply cell_of_union_match|].
    right. rewrite <-Hk. by apply (list_elem_of_fmap_2 (λ r, cell_of r on)).
Qed.

Lemma left_rows_keys_unique :
  NoDup (key_col on right) →
  (λ r, cell_of r on) <$> (rows left ≫= left_rows on right) = key_col on left.
Proof.
  intros Hnd. unfold key_col. induction (rows left) as [|a l IH]; [done|].
  rewrite bind_cons, fmap_app, fmap_cons, IH. f_equal.
  unfold left_rows, matches.
  destruct (filter_key_unique (λ r, cell_of r on) (cell_of a on) (rows right) Hnd)
    as [->|[b Hb]].
  - simpl. f_equal. by apply cell_of_union_nan.
  - rewrite Hb. simpl. f_equal. apply cell_of_union_match.
    assert (b ∈ filter (λ r, cell_of r on = cell_of a on) (rows right)) as Hin
      by (rewrite Hb; left).
    by apply list_elem_of_filter in Hin as [? _].
Qed.

Lemma right_only_keys :
  (λ r, cell_of r on) <$> right_only on left right
  = filter (λ k, k ∉ key_col on left) (key_col on right).
Proof.
  unfold right_only, key_col. induction (rows right) as [|b l IH]; [done|].
  rewrite fmap_cons, !filter_cons.
  destruct (decide (matches on left b = [])) as [Hm|Hm];
    destruct (decide (cell_of b on ∉ (λ r, cell_of r on) <$> rows left)) as [Hk|Hk].
  - rewrite !fmap_cons, IH. f_equal. by apply cell_of_union_nan.
  - by apply matches_nil in Hm.
  - by apply matches_nil in Hk.
  - done.
Qed.

Lemma right_only_inv (r : row) :
  r ∈ right_only on left right →
  ∃ b, b ∈ rows right ∧ (cell_of b on ∉ key_col on left) ∧
       r = b ∪ nan_row (columns left) ∧ cell_of r on = cell_of b on.
Proof.
  unfold right_only. intros [b [-> Hb]]%list_elem_of_fmap.
  apply list_elem_of_filter in Hb as [Hm Hb].
  exists b. split_and!; [done|by apply matches_nil|done|by apply cell_of_union_nan].
Qed.

Lemma merge_ok h :
  merge h on left right
  = Ok {| columns := columns left ++ filter (λ c, c ≠ on) (columns right);
          rows := match h with
                  | Left => rows left ≫= left_rows on right
                  | Outer => merge_sort (row_asc on)
                               ((rows left ≫= left_rows on right) ++ right_only on left right)
                  end |}.
Proof. unfold merge. rewrite decide_True by done. by destruct h. Qed.

(** The keys of an outer merge of frames with distinct keys. *)
Lemma merge_outer_keys out :
  NoDup (key_col on left) → NoDup (key_col on right) →
  merge Outer on left right = Ok out →
  key_col on out ≡ₚ key_col on left ++ filter (λ k, k ∉ key_col on left) (key_col on right).
Proof.
  intros Hl Hr. rewrite merge_ok. intros [= <-]. unfold key_col at 1. simpl.
  rewrite merge_sort_Permutation, fmap_app.
  by rewrite (left_rows_keys_unique Hr), right_only_keys.
Qed.

(** The rows of either merge that come from one side only. *)
Lemma merge_rows_inv h out r :
  merge h on left right = Ok out → r ∈ rows out →
  (∃ a, a ∈ rows left ∧ cell_of r on = cell_of a on ∧
        (cell_of a on ∈ key_col on right ∨ r = a ∪ nan_row (columns right))) ∨
  (h = Outer ∧ ∃ b, b ∈ rows right ∧ cell_of r on = cell_of b on ∧
        (cell_of b on ∉ key_col on left) ∧ r = b ∪ nan_row (columns left)).
Proof.
  rewrite merge_ok. intros [= <-]. simpl.
  assert (r ∈ rows left ≫= left_rows on right →
    ∃ a, a ∈ rows left ∧ cell_of r on = cell_of a on ∧
        (cell_of a on ∈ key_col on right ∨ r = a ∪ nan_row (columns right))) as Hleft.
  { intros [a [Hr Ha]]%list_elem_of_bind.
    apply left_rows_inv in Hr as [Hk [[_ ->]|Hin]]; exists a; eauto. }
  destruct h; [by left; apply Hleft|].
  rewrite merge_sort_Permutation. intros [Hr|Hr]%elem_of_app; [by left; apply Hleft|].
  right. split; [done|].
  apply right_only_inv in Hr as (b & Hb & Hk & -> & Hkr). exists b. by rewrite Hkr.
Qed.

End Merge.

Lemma wf_df_lookup df r c :
  wf_df df → r ∈ rows df → is_Some (r !! c) ↔ c ∈ columns df.
Proof.
  intros Hwf Hr. unfold wf_df in Hwf. rewrite Forall_forall in Hwf.
  rewrite <-elem_of_dom, (Hwf r Hr). apply elem_of_list_to_set.
Qed.

Lemma wf_df_lookup_None df r c :
  wf_df df → r ∈ rows df → c ∉ columns df → r !! c = None.
Proof.
  intros Hwf Hr Hc. apply eq_None_not_Some. by rewrite (wf_df_lookup df).
Qed.

Section MergeSpec.
Import Pandas.
Context (on : string) (left right : DataFrame).
Hypothesis on_left : on ∈ columns left.
Hypothesis on_right : on ∈ columns right.
Hypothesis wf_left : wf_df left.
Hypothesis wf_right : wf_df right.

(** A row of the result whose key the right side does not have is NaN
    under the columns only the right side has. *)
Lemma merge_left_only_nan h out r c :
  merge h on left right = Ok out → r ∈ rows out →
  cell_of r on ∉ key_col on right →
  c ∈ columns right → c ∉ columns left → r !! c = Some CNaN.
Proof.
  intros Hm Hr Hk Hc Hnc.
  destruct (merge_rows_inv on left right on_left on_right h out r Hm Hr)
    as [(a & Ha & Hka & [Hin| ->])|(_ & b & Hb & Hkb & _)].
  - by rewrite Hka in Hk.
  - apply lookup_union_nan_None; [|done]. by apply (wf_df_lookup_None left).
  - exfalso. apply Hk. rewrite Hkb.
    by apply (list_elem_of_fmap_2 (λ r, cell_of r on)).
Qed.

(** And the other way round. *)
Lemma merge_right_only_nan h out r c :
  merge h on left right = Ok out → r ∈ rows out →
  cell_of r on ∉ key_col on left →
  c ∈ columns left → c ∉ columns right → r !! c = Some CNaN.
Proof.
  intros Hm Hr Hk Hc Hnc.
  destruct (merge_rows_inv on left right on_left on_right h out r Hm Hr)
    as [(a & Ha & Hka & _)|(_ & b & Hb & Hkb & _ & ->)].
  - exfalso. apply Hk. rewrite Hka.
    by apply (list_elem_of_fmap_2 (λ r, cell_of r on)).
  - apply lookup_union_nan_None; [|done]. by apply (wf_df_lookup_None right).
Qed.

Lemma merge_outer_exactly_once out :
  NoDup (key_col on left) → NoDup (key_col on right) →
  merge Outer on left right = Ok out →
  NoDup (key_col on out) ∧
  ∀ k, k ∈ key_col on out ↔ k ∈ key_col on left ∨ k ∈ key_col on right.
Proof.
  intros Hl Hr Hm.
  pose proof (merge_outer_keys on left right on_left on_right out Hl Hr Hm) as Hp.
  split.
  - rewrite Hp. apply NoDup_app. split_and!; [done| |by apply NoDup_filter].
    intros k Hk [Hnk _]%list_elem_of_filter. done.
  - intros k. rewrite Hp, elem_of_app, list_elem_of_filter.
    destruct (decide (k ∈ key_col on left)); tauto.
Qed.

Lemma merge_left_keys out :
  NoDup (key_col on right) →
  merge Left on left right = Ok out → key_col on out = key_col on left.
Proof.
  intros Hr. rewrite merge_ok by done. intros [= <-]. unfold key_col at 1. simpl.
  by apply left_rows_keys_unique.
Qed.

End MergeSpec.

(** ** Counting the keys of a merge *)

Section Counting.
Context {A K : Type} `{!EqDecision K}.

Lemma count_replicate (k x : K) n :
  length (filter (λ y, y = k) (replicate n x)) = if decide (x = k) then n else 0%nat.
Proof.
  destruct (decide (x = k)) as [Hx|Hx]; induction n as [|n IH]; try done.
  - cbn [replicate]. rewrite filter_cons, decide_True by done. cbn [length]. by rewrite IH.
  - cbn [replicate]. by rewrite filter_cons, decide_False.
Qed.

Lemma count_bind_replicate (g : K → nat) (l : list K) (k : K) :
  length (filter (λ y, y = k) (l ≫= λ x, replicate (g x) x))
  = (length (filter (λ y, y = k) l) * g k)%nat.
Proof.
  induction l as [|x l IH]; [done|].
  rewrite bind_cons, filter_app, length_app, IH, count_replicate, filter_cons.
  case_decide as Hx; [subst x; cbn [length]|]; lia.
Qed.

Lemma count_filter_not_in (l l' : list K) (k : K) :
  length (filter (λ y, y = k) (filter (λ y, y ∉ l') l))
  = if decide (k ∈ l') then 0%nat else length (filter (λ y, y = k) l).
Proof.
  destruct (decide (k ∈ l')) as [Hk|Hk].
  - destruct (filter (λ y, y = k) (filter (λ y, y ∉ l') l)) as [|y t] eqn:Hf; [done|].
    assert (y ∈ filter (λ y, y = k) (filter (λ y, y ∉ l') l)) as Hin by (rewrite Hf; by left).
    apply list_elem_of_filter in Hin as [-> Hin].
    by apply list_elem_of_filter in Hin as [Hin _].
  - induction l as [|x l IH]; [done|].
    rewrite !filter_cons. destruct (decide (x = k)) as [->|Hx].
    + rewrite decide_True by done. rewrite filter_cons, decide_True by done.
      cbn [length]. by rewrite IH.
    + case_decide; [rewrite filter_cons, decide_False by done|]; apply IH.
Qed.

Lemma count_pos (l : list K) (k : K) :
  k ∈ l ↔ (1 ≤ length (filter (λ y, y = k) l))%nat.
Proof.
  split.
  - intros Hk. assert (k ∈ filter (λ y, y = k) l) as Hin by (by apply list_elem_of_filter).
    destruct (filter (λ y, y = k) l); [by apply elem_of_nil in Hin|cbn [length]; lia].
  - intros Hlen. destruct (filter (λ y, y = k) l) as [|y l'] eqn:Hf; [cbn [length] in Hlen; lia|].
    assert (y ∈ filter (λ y, y = k) l) as Hin by (rewrite Hf; by left).
    apply list_elem_of_filter in Hin as [-> Hin]. done.
Qed.

Lemma count_NoDup (l : list K) :
  NoDup l ↔ ∀ k, (length (filter (λ y, y = k) l) ≤ 1)%nat.
Proof.
  induction l as [|x l IH].
  - split; [intros _ k; cbn; lia|intros _; apply NoDup_nil_2].
  - rewrite NoDup_cons, IH. split.
    + intros [Hx Hl] k. rewrite filter_cons. case_decide as Hk; [|apply Hl].
      subst x. cbn [length]. rewrite count_pos in Hx. lia.
    + intros Hall. split.
      * intros Hx%count_pos. specialize (Hall x). rewrite filter_cons, decide_True in Hall by done.
        cbn [length] in Hall. lia.
      * intros k. specialize (Hall k). rewrite filter_cons in Hall.
        case_decide; [cbn [length] in Hall|]; lia.
Qed.

Lemma filter_fmap_length (g : A → K) (P : K → Prop) `{!∀ y, Decision (P y)} (l : list A) :
  length (filter P (g <$> l)) = length (filter (λ x, P (g x)) l).
Proof.
  induction l as [|x l IH]; [done|].
  rewrite fmap_cons, !filter_cons. case_decide; cbn [length]; by rewrite IH.
Qed.

Lemma fmap_constant (g : A → K) (y : K) (l : list A) :
  (∀ x, x ∈ l → g x = y) → g <$> l = replicate (length l) y.
Proof.
  induction l as [|x l IH]; intros Hall; [done|].
  rewrite fmap_cons. cbn [length replicate]. f_equal.
  - apply Hall. by left.
  - apply IH. intros z Hz. apply Hall. by right.
Qed.

Lemma bind_fmap_list (g : A → K) (h : K → list K) (l : list A) :
  l ≫= (λ a, h (g a)) = (g <$> l) ≫= h.
Proof. induction l as [|x l IH]; [done|]. by rewrite fmap_cons, !bind_cons, IH. Qed.

End Counting.

Section MergeCount.
Import Pandas.
Context (on : string) (left right : DataFrame).
Hypothesis on_left : on ∈ columns left.
Hypothesis on_right : on ∈ columns right.

Lemma length_matches (other : DataFrame) (a : row) :
  length (matches on other a) = key_count on other (cell_of a on).
Proof.
  unfold matches, key_count, key_col.
  by rewrite (filter_fmap_length (λ r : row, cell_of r on) (λ x, x = cell_of a on)).
Qed.

(** The keys of the rows a left row contributes: its own key, once
    for each matching right row and once when there is none. *)
Lemma left_rows_keys (a : row) :
  (λ r, cell_of r on) <$> left_rows on right a
  = replicate (key_count on right (cell_of a on) `max` 1) (cell_of a on).
Proof.
  rewrite <-length_matches. unfold left_rows.
  destruct (matches on right a) as [|b ms] eqn:Hm.
  - cbn. f_equal. by apply cell_of_union_nan.
  - rewrite (fmap_constant _ (cell_of a on)).
    + rewrite length_fmap. f_equal. cbn [length]. lia.
    + intros r [b' [-> Hb']]%list_elem_of_fmap. apply cell_of_union_match.
      rewrite <-Hm in Hb'. by apply list_elem_of_filter in Hb' as [? _].
Qed.

Lemma bind_left_rows_keys :
  (λ r, cell_of r on) <$> (rows left ≫= left_rows on right)
  = key_col on left ≫= (λ k, replicate (key_count on right k `max` 1) k).
Proof.
  unfold key_col at 1.
  rewrite <-(bind_fmap_list (λ r : row, cell_of r on)
               (λ k, replicate (key_count on right k `max` 1) k)).
  induction (rows left) as [|a l IH]; [done|].
  by rewrite !bind_cons, fmap_app, IH, left_rows_keys.
Qed.

(** The key column of either merge. *)
Lemma merge_key_col h out :
  merge h on left right = Ok out →
  key_col on out ≡ₚ
    (key_col on left ≫= (λ k, replicate (key_count on right k `max` 1) k))
    ++ match h with
       | Left => []
       | Outer => filter (λ k, k ∉ key_col on left) (key_col on right)
       end.
Proof.
  rewrite merge_ok by done. intros [= <-]. unfold key_col at 1. cbn [rows].
  destruct h.
  - by rewrite app_nil_r, bind_left_rows_keys.
  - by rewrite merge_sort_Permutation, fmap_app, bind_left_rows_keys, right_only_keys.
Qed.

(** How often a key stands in the result. *)
Lemma merge_key_count h out k :
  merge h on left right = Ok out →
  key_count on out k
  = (key_count on left k * (key_count on right k `max` 1)
     + match h with
       | Left => 0
       | Outer => if decide (k ∈ key_col on left) then 0 else key_count on right k
       end)%nat.
Proof.
  intros Hm. unfold key_count at 1. rewrite (merge_key_col h out Hm).
  rewrite filter_app, length_app, count_bind_replicate. f_equal.
  destruct h; [done|]. apply count_filter_not_in.
Qed.

Lemma merge_key_elem h out k :
  merge h on left right = Ok out →
  k ∈ key_col on out
  ↔ k ∈ key_col on left ∨ (h = Outer ∧ k ∈ key_col on right).
Proof.
  intros Hm. rewrite !count_pos. fold (key_count on out k).
  rewrite (merge_key_count h out k Hm).
  fold (key_count on left k) (key_count on right k).
  destruct h.
  - split; [intros H; left; nia|intros [H|[[=] _]]; nia].
  - case_decide as Hk.
    + apply count_pos in Hk. fold (key_count on left k) in Hk.
      split; [intros _; by left|intros _; nia].
    + rewrite count_pos in Hk. fold (key_count on left k) in Hk.
      split; [intros H; right; split; [done|nia]|intros [H|[_ H]]; nia].
Qed.

End MergeCount.

(** C4, as the code has it.  The outer merge of Irsaliye.py holds
    every key of either frame, whatever the frames are.  A key stands
    in the result once for every pair of a left and a right row that
    have it, and once for every row that has it when the other side has
    it not: exactly once when each side has it at most once, and more
    than once as soon as one side has it twice.  The stock table is
    built by left merges: the result has the keys of the material
    table and no key that only the right frame has; with distinct keys
    on the right it has them row for row.  In both, a row whose key
    only one side has is NaN under the columns only the other side
    has. *)
Theorem merge_keys_and_missing_cells
    (prosap_df mikro_df malzeme grouped_bekleyen : DataFrame) :
  ("Esle" ∈ columns prosap_df → "Esle" ∈ columns mikro_df →
   wf_df prosap_df → wf_df mikro_df →
   ∃ out, Irsaliye.merged_df prosap_df mikro_df = Ok out ∧
     (∀ k, k ∈ key_col "Esle" out ↔
           k ∈ key_col "Esle" prosap_df ∨ k ∈ key_col "Esle" mikro_df) ∧
     (∀ k, key_count "Esle" out k
           = (key_count "Esle" prosap_df k * (key_count "Esle" mikro_df k `max` 1)
              + (if decide (k ∈ key_col "Esle" prosap_df) then 0
                 else key_count "Esle" mikro_df k))%nat) ∧
     (∀ k, (key_count "Esle" prosap_df k ≤ 1)%nat → (key_count "Esle" mikro_df k ≤ 1)%nat →
           k ∈ key_col "Esle" prosap_df ∨ k ∈ key_col "Esle" mikro_df →
           key_count "Esle" out k = 1%nat) ∧
     (∀ k, (2 ≤ key_count "Esle" prosap_df k)%nat ∨ (2 ≤ key_count "Esle" mikro_df k)%nat →
           (2 ≤ key_count "Esle" out k)%nat) ∧
     (NoDup (key_col "Esle" prosap_df) → NoDup (key_col "Esle" mikro_df) →
      NoDup (key_col "Esle" out)) ∧
     (∀ r c, r ∈ rows out → (cell_of r "Esle" ∉ key_col "Esle" mikro_df) →
             c ∈ columns mikro_df → c ∉ columns prosap_df → r !! c = Some CNaN) ∧
     (∀ r c, r ∈ rows out → (cell_of r "Esle" ∉ key_col "Esle" prosap_df) →
             c ∈ columns prosap_df → c ∉ columns mikro_df → r !! c = Some CNaN)) ∧
  ("Malzeme Kodu" ∈ columns malzeme → "Malzeme Kodu" ∈ columns grouped_bekleyen →
   wf_df malzeme →
   ∃ out, Stok.malzeme_birlestir malzeme grouped_bekleyen = Ok out ∧
     (∀ k, k ∈ key_col "Malzeme Kodu" out ↔ k ∈ key_col "Malzeme Kodu" malzeme) ∧
     (∀ k, key_count "Malzeme Kodu" out k
           = (key_count "Malzeme Kodu" malzeme k
              * (key_count "Malzeme Kodu" grouped_bekleyen k `max` 1))%nat) ∧
     (NoDup (key_col "Malzeme Kodu" grouped_bekleyen) →
      key_col "Malzeme Kodu" out = key_col "Malzeme Kodu" malzeme) ∧
     (∀ r c, r ∈ rows out →
             (cell_of r "Malzeme Kodu" ∉ key_col "Malzeme Kodu" grouped_bekleyen) →
             c ∈ columns grouped_bekleyen → c ∉ columns malzeme → r !! c = Some CNaN)).
Proof.
  split.
  - intros Hl Hr Hwl Hwr. unfold Irsaliye.merged_df.
    eexists. split; [by apply merge_ok|].
    pose proof (merge_ok "Esle" prosap_df mikro_df Hl Hr Pandas.Outer) as Hm.
    pose proof (λ k, merge_key_count "Esle" prosap_df mikro_df Hl Hr Pandas.Outer _ k Hm)
      as Hcount.
    split_and!.
    + intros k. rewrite (merge_key_elem "Esle" prosap_df mikro_df Hl Hr Pandas.Outer _ k Hm).
      tauto.
    + done.
    + intros k Hp Hq Hk. rewrite Hcount.
      destruct (decide (k ∈ key_col "Esle" prosap_df)) as [Hin|Hin].
      * apply count_pos in Hin. fold (key_count "Esle" prosap_df k) in Hin. nia.
      * destruct Hk as [Hk|Hk]; [done|].
        pose proof Hin as Hin'. rewrite count_pos in Hin'.
        fold (key_count "Esle" prosap_df k) in Hin'.
        apply count_pos in Hk. fold (key_count "Esle" mikro_df k) in Hk. nia.
    + intros k Hk. rewrite Hcount.
      destruct (decide (k ∈ key_col "Esle" prosap_df)) as [Hin|Hin].
      * apply count_pos in Hin. fold (key_count "Esle" prosap_df k) in Hin. nia.
      * rewrite count_pos in Hin. fold (key_count "Esle" prosap_df k) in Hin. nia.
    + intros Hnl Hnr.
      by destruct (merge_outer_exactly_once "Esle" prosap_df mikro_df Hl Hr _ Hnl Hnr Hm).
    + intros r c. by apply (merge_left_only_nan "Esle" prosap_df mikro_df Hl Hr Hwl Pandas.Outer).
    + intros r c. by apply (merge_right_only_nan "Esle" prosap_df mikro_df Hl Hr Hwr Pandas.Outer).
  - intros Hl Hr Hwl. unfold Stok.malzeme_birlestir.
    eexists. split; [by apply merge_ok|].
    pose proof (merge_ok "Malzeme Kodu" malzeme grouped_bekleyen Hl Hr Pandas.Left) as Hm.
    split_and!.
    + intros k.
      rewrite (merge_key_elem "Malzeme Kodu" malzeme grouped_bekleyen Hl Hr Pandas.Left _ k Hm).
      split; [intros [?|[[=] _]]; done|by left].
    + intros k.
      rewrite (merge_key_count "Malzeme Kodu" malzeme grouped_bekleyen Hl Hr Pandas.Left _ k Hm).
      lia.
    + intros Hnr. by apply (merge_left_keys "Malzeme Kodu" malzeme grouped_bekleyen Hl Hr).
    + intros r c. by apply (merge_left_only_nan "Malzeme Kodu" malzeme grouped_bekleyen Hl Hr Hwl Pandas.Left).
Qed.

Lemma merge_keys_and_missing_cells_witness :
  (∃ out, Irsaliye.merged_df Ornek.prosap_ornek Ornek.mikro_ornek = Ok out ∧
          NoDup (key_col "Esle" out)) ∧
  (∃ out, Stok.malzeme_birlestir Ornek.malzeme_ornek Ornek.bekleyen_ornek = Ok out ∧
          key_col "Malzeme Kodu" out = key_col "Malzeme Kodu" Ornek.malzeme_ornek).
Proof.
  destruct (merge_keys_and_missing_cells Ornek.prosap_ornek Ornek.mikro_ornek
              Ornek.malzeme_ornek Ornek.bekleyen_ornek) as [H1 H2].
  split.
  - destruct H1 as (out & Hout & _ & _ & _ & _ & Hnd & _); [by_evaluation..|].
    exists out. split; [assumption|]. apply Hnd; by_evaluation.
  - destruct H2 as (out & Hout & _ & _ & Hk & _); [by_evaluation..|].
    exists out. split; [assumption|]. apply Hk. by_evaluation.
Defined.

(** The left merge of the stock table does not surface a material that
    only the pending orders have, and the outer merge repeats a key
    that one side holds twice. *)
Lemma merge_drops_and_repeats_keys :
  (∃ out, Stok.malzeme_birlestir Ornek.malzeme_ornek Ornek.bekleyen_ornek = Ok out ∧
          CStr "3120009999" ∈ key_col "Malzeme Kodu" Ornek.bekleyen_ornek ∧
          CStr "3120009999" ∉ key_col "Malzeme Kodu" out) ∧
  (∃ out, Irsaliye.merged_df Ornek.prosap_cift Ornek.mikro_ornek = Ok out ∧
          key_col "Esle" out
          = [CStr "2024-05-03 - 12"; CStr "2024-05-03 - 12"; CStr "2024-05-04 - 13"]).
Proof.
  split.
  - eexists. split; [by vm_compute|]. split; by_evaluation.
  - eexists. split; [by vm_compute|]. by vm_compute.
Qed.

(** ** The upsert merger *)

Section Strip.
Variable p : ascii → bool.

Lemma lstrip_idemp s : Py.lstrip p (Py.lstrip p s) = Py.lstrip p s.
Proof.
  induction s as [|a s IH]; simpl; [done|].
  destruct (p a) eqn:Ha; [done|]. simpl. by rewrite Ha.
Qed.

Lemma rstrip_cons a s :
  Py.rstrip p (String a s)
  = match Py.rstrip p s with
    | EmptyString => if p a then EmptyString else String a EmptyString
    | String b t => String a (String b t)
    end.
Proof. reflexivity. Qed.

Lemma rstrip_idemp s : Py.rstrip p (Py.rstrip p s) = Py.rstrip p s.
Proof.
  induction s as [|a s IH]; [done|].
  rewrite rstrip_cons. destruct (Py.rstrip p s) as [|b t] eqn:Hr.
  - destruct (p a) eqn:Ha; [done|]. simpl. by rewrite Ha.
  - rewrite rstrip_cons, IH. done.
Qed.

Lemma rstrip_lstrip s : Py.rstrip p (Py.lstrip p s) = Py.lstrip p (Py.rstrip p s).
Proof.
  induction s as [|a s IH]; [done|].
  rewrite rstrip_cons. simpl Py.lstrip at 1. destruct (p a) eqn:Ha.
  - rewrite IH. destruct (Py.rstrip p s) as [|b t]; [done|].
    simpl. by rewrite Ha.
  - rewrite rstrip_cons. destruct (Py.rstrip p s) as [|b t]; simpl; by rewrite Ha.
Qed.

End Strip.

Lemma strip_idemp s : Py.strip (Py.strip s) = Py.strip s.
Proof.
  unfold Py.strip.
  by rewrite rstrip_lstrip, lstrip_idemp, rstrip_idemp.
Qed.

Section Rows.
Import Pandas SSH.

Lemma cell_of_insert_eq (r : row) c v : cell_of (<[c := v]> r) c = v.
Proof. unfold cell_of. by rewrite lookup_insert_eq. Qed.

Lemma cell_of_insert_ne (r : row) c c' v :
  c ≠ c' → cell_of (<[c := v]> r) c' = cell_of r c'.
Proof. intros. unfold cell_of. by rewrite lookup_insert_ne. Qed.

Lemma foldl_strip_lookup_ne cs (r : row) c :
  c ∉ cs →
  foldl (λ r' sutun, <[sutun := CStr (Py.strip (py_str (cell_of r' sutun)))]> r') r cs !! c
  = r !! c.
Proof.
  revert r. induction cs as [|c0 cs IH]; intros r Hc; [done|].
  apply not_elem_of_cons in Hc as [Hne Hc]. simpl.
  rewrite IH by done. by rewrite lookup_insert_ne.
Qed.

Lemma foldl_strip_cell cs (r : row) c :
  NoDup cs → c ∈ cs →
  cell_of (foldl (λ r' sutun, <[sutun := CStr (Py.strip (py_str (cell_of r' sutun)))]> r')
                 r cs) c
  = CStr (Py.strip (py_str (cell_of r c))).
Proof.
  revert r. induction cs as [|c0 cs IH]; intros r Hnd Hc; [by apply elem_of_nil in Hc|].
  apply NoDup_cons in Hnd as [Hc0 Hnd]. simpl.
  destruct (decide (c = c0)) as [->|Hne].
  - unfold cell_of at 1. rewrite foldl_strip_lookup_ne by done.
    by rewrite lookup_insert_eq.
  - apply elem_of_cons in Hc as [?|Hc]; [done|].
    rewrite IH by done. by rewrite cell_of_insert_ne.
Qed.

Lemma anahtar_sutunlar_NoDup : NoDup anahtar_sutunlar.
Proof. by_evaluation. Qed.

Lemma temizle_cell r c :
  c ∈ anahtar_sutunlar → cell_of (temizle r) c = CStr (Py.strip (py_str (cell_of r c))).
Proof. apply foldl_strip_cell, anahtar_sutunlar_NoDup. Qed.

Lemma temizle_lookup_ne r c : c ∉ anahtar_sutunlar → temizle r !! c = r !! c.
Proof. apply foldl_strip_lookup_ne. Qed.

Lemma anahtar_birlestir_temizle r : anahtar_birlestir (temizle r) = kayit_anahtari r.
Proof.
  unfold anahtar_birlestir, kayit_anahtari. f_equal.
  apply list_fmap_ext. intros i c Hc. simpl.
  rewrite temizle_cell; [done|]. by eapply list_elem_of_lookup_2.
Qed.

Lemma birlestirme_anahtari_fresh : birlestirme_anahtari ∉ anahtar_sutunlar.
Proof. by_evaluation. Qed.

Lemma parca_durumu_fresh : parca_durumu ∉ anahtar_sutunlar.
Proof. by_evaluation. Qed.

Lemma servis_bakim_id_key : servis_bakim_id ∈ anahtar_sutunlar.
Proof. by_evaluation. Qed.

Lemma hazirla_key_cell r : cell_of (hazirla r) birlestirme_anahtari = CStr (kayit_anahtari r).
Proof. unfold hazirla. by rewrite cell_of_insert_eq, anahtar_birlestir_temizle. Qed.

Lemma anahtar_hazirla r : anahtar (hazirla r) = kayit_anahtari r.
Proof. unfold anahtar. by rewrite hazirla_key_cell. Qed.

Lemma hazirla_cell r c :
  c ∈ anahtar_sutunlar → cell_of (hazirla r) c = CStr (Py.strip (py_str (cell_of r c))).
Proof.
  intros Hc. unfold hazirla. rewrite cell_of_insert_ne; [by apply temizle_cell|].
  intros <-. by apply birlestirme_anahtari_fresh.
Qed.

Lemma hazirla_lookup_ne r c :
  c ∉ anahtar_sutunlar → c ≠ birlestirme_anahtari → hazirla r !! c = r !! c.
Proof.
  intros Hc Hne. unfold hazirla. rewrite lookup_insert_ne by done.
  by apply temizle_lookup_ne.
Qed.

(** Records with the same key cells have the same key. *)
Lemma kayit_anahtari_ext r1 r2 :
  (∀ c, c ∈ anahtar_sutunlar → cell_of r1 c = cell_of r2 c) →
  kayit_anahtari r1 = kayit_anahtari r2.
Proof.
  intros H. unfold kayit_anahtari. f_equal.
  apply list_fmap_ext. intros i c Hc. simpl.
  rewrite H; [done|]. by eapply list_elem_of_lookup_2.
Qed.

(** Normalising a record does not change its key. *)
Lemma kayit_anahtari_hazirla r : kayit_anahtari (hazirla r) = kayit_anahtari r.
Proof.
  unfold kayit_anahtari. f_equal.
  apply list_fmap_ext. intros i c Hc. simpl.
  rewrite hazirla_cell by (by eapply list_elem_of_lookup_2).
  simpl. apply strip_idemp.
Qed.

End Rows.

Section Frames.
Import Pandas SSH.

Lemma rows_set_column c f df :
  rows (set_column c f df) = (λ r, <[c := f r]> r) <$> rows df.
Proof. reflexivity. Qed.

Lemma columns_set_column c f df :
  columns (set_column c f df)
  = if decide (c ∈ columns df) then columns df else columns df ++ [c].
Proof. reflexivity. Qed.

Lemma foldl_set_column_rows (g : string → row → cell) cs df :
  rows (foldl (λ d c, set_column c (g c) d) df cs)
  = (λ r, foldl (λ r' c, <[c := g c r']> r') r cs) <$> rows df.
Proof.
  revert df. induction cs as [|c cs IH]; intros df; simpl.
  - by rewrite list_fmap_id.
  - rewrite IH. simpl. by rewrite <-list_fmap_compose.
Qed.

Lemma foldl_set_column_columns (g : string → row → cell) cs df :
  Forall (λ c, c ∈ columns df) cs →
  columns (foldl (λ d c, set_column c (g c) d) df cs) = columns df.
Proof.
  revert df. induction cs as [|c cs IH]; intros df Hcs; simpl; [done|].
  apply Forall_cons in Hcs as [Hc Hcs].
  assert (columns (set_column c (g c) df) = columns df) as Heq
    by (simpl; by rewrite decide_True).
  rewrite IH; [done|]. by rewrite Heq.
Qed.

Lemma rows_anahtar_temizle df : rows (anahtar_temizle df) = temizle <$> rows df.
Proof.
  unfold anahtar_temizle.
  apply (foldl_set_column_rows (λ c r, CStr (Py.strip (py_str (cell_of r c))))).
Qed.

Lemma columns_anahtar_temizle df :
  has_keys df → columns (anahtar_temizle df) = columns df.
Proof.
  unfold anahtar_temizle.
  apply (foldl_set_column_columns (λ c r, CStr (Py.strip (py_str (cell_of r c))))).
Qed.

Lemma rows_keyed df : rows (keyed df) = hazirla <$> rows df.
Proof.
  unfold keyed. rewrite rows_set_column, rows_anahtar_temizle, <-list_fmap_compose. done.
Qed.

Lemma columns_keyed df :
  has_keys df →
  columns (keyed df)
  = if decide (birlestirme_anahtari ∈ columns df) then columns df
    else columns df ++ [birlestirme_anahtari].
Proof. intros Hk. unfold keyed. by rewrite columns_set_column, columns_anahtar_temizle. Qed.

Lemma columns_keyed_incl df c : has_keys df → c ∈ columns df → c ∈ columns (keyed df).
Proof.
  intros Hk Hc. rewrite columns_keyed by done. case_decide; [done|].
  apply elem_of_app. by left.
Qed.

Lemma columns_keyed_key df : has_keys df → birlestirme_anahtari ∈ columns (keyed df).
Proof.
  intros Hk. rewrite columns_keyed by done. case_decide; [done|].
  apply elem_of_app. right. by apply list_elem_of_singleton.
Qed.

Lemma anahtar_sutunu_ekle_ok df :
  rows df ≠ [] → anahtar_sutunu_ekle (anahtar_temizle df) = Ok (keyed df).
Proof.
  intros Hr. unfold anahtar_sutunu_ekle. rewrite rows_anahtar_temizle.
  destruct (rows df); done.
Qed.

Lemma anahtar_sutunu_ekle_empty df :
  rows df = [] → anahtar_sutunu_ekle (anahtar_temizle df) = Raise ValueError.
Proof.
  intros Hr. unfold anahtar_sutunu_ekle. by rewrite rows_anahtar_temizle, Hr.
Qed.

Lemma has_keys_servis df : has_keys df → servis_bakim_id ∈ columns df.
Proof.
  intros Hk. unfold has_keys in Hk. rewrite Forall_forall in Hk.
  apply Hk, servis_bakim_id_key.
Qed.

Lemma empty_false df : has_keys df → rows df ≠ [] → empty df = false.
Proof.
  intros Hk Hr. unfold empty. apply bool_decide_eq_false. intros [Hc|?]; [|done].
  pose proof (has_keys_servis df Hk) as Hs. rewrite Hc in Hs. by apply elem_of_nil in Hs.
Qed.

Lemma key_check_false yeni mevcut :
  has_keys yeni → has_keys mevcut →
  bool_decide (Exists (λ sutun, sutun ∉ columns yeni ∨ sutun ∉ columns mevcut)
                      anahtar_sutunlar) = false.
Proof.
  intros Hy Hm. apply bool_decide_eq_false. rewrite Exists_exists.
  unfold has_keys in *. rewrite Forall_forall in Hy, Hm.
  intros (c & Hc & [Hn|Hn]); apply Hn; auto.
Qed.

(** With the key columns on both sides and rows on both sides, the
    merger runs lines 270-313 on the keyed frames. *)
Lemma verileri_birlestir_keyed yeni mevcut :
  has_keys yeni → has_keys mevcut → rows yeni ≠ [] → rows mevcut ≠ [] →
  verileri_birlestir yeni mevcut
  = match birlestir (keyed yeni) (keyed mevcut) with
    | Ok son_df => Ok son_df
    | Raise _ => sort_values_desc servis_bakim_id (keyed yeni)
    end.
Proof.
  intros Hy Hm Hry Hrm. unfold verileri_birlestir.
  rewrite empty_false, key_check_false by done.
  by rewrite !anahtar_sutunu_ekle_ok.
Qed.

(** On a new table without rows the key column cannot be built, and
    the handler returns the new table. *)
Lemma verileri_birlestir_empty_new yeni mevcut :
  has_keys yeni → has_keys mevcut → rows yeni = [] → rows mevcut ≠ [] →
  verileri_birlestir yeni mevcut = Ok {| columns := columns yeni; rows := [] |}.
Proof.
  intros Hy Hm Hry Hrm. unfold verileri_birlestir.
  rewrite empty_false, key_check_false by done.
  rewrite anahtar_sutunu_ekle_empty by done.
  unfold sort_values_desc. rewrite columns_anahtar_temizle by done.
  rewrite decide_True by (by apply has_keys_servis).
  by rewrite rows_anahtar_temizle, Hry.
Qed.

End Frames.

Lemma filter_ext_in {A} (P Q : A → Prop) `{!∀ x, Decision (P x), !∀ x, Decision (Q x)}
    (l : list A) :
  (∀ x, x ∈ l → P x ↔ Q x) → filter P l = filter Q l.
Proof.
  induction l as [|x l IH]; intros Hext; [done|].
  assert (filter P l = filter Q l) as IH' by (apply IH; intros y Hy; apply Hext; by right).
  assert (P x ↔ Q x) as Hx by (apply Hext; by left).
  rewrite !filter_cons, IH'. destruct (decide (P x)), (decide (Q x)); tauto.
Qed.

Lemma filter_none {A} (P : A → Prop) `{!∀ x, Decision (P x)} (l : list A) :
  (∀ x, x ∈ l → ¬ P x) → filter P l = [].
Proof.
  induction l as [|x l IH]; intros Hno; [done|].
  rewrite filter_cons_False by (apply Hno; by left).
  apply IH. intros y Hy. apply Hno. by right.
Qed.

Section ListFacts.
Context {A K : Type} (f : A → K).

Lemma fmap_filter_key (P : K → Prop) `{!∀ k, Decision (P k)} (l : list A) :
  f <$> filter (λ x, P (f x)) l = filter P (f <$> l).
Proof.
  induction l as [|x l IH]; [done|].
  rewrite fmap_cons, !filter_cons. case_decide; [rewrite fmap_cons|]; by rewrite IH.
Qed.

Lemma fmap_bind_list {B} (g : B → list A) (l : list B) :
  f <$> (l ≫= g) = l ≫= (λ x, f <$> g x).
Proof.
  induction l as [|x l IH]; [done|]. by rewrite !bind_cons, fmap_app, IH.
Qed.

Lemma join_fmap_fmap {B} (g : B → A) (h : A → list K) (l : list B) :
  mjoin (h <$> (g <$> l)) = l ≫= (λ x, h (g x)).
Proof. by rewrite list_join_bind, !list_fmap_bind. Qed.

End ListFacts.

Lemma filter_eq_singleton {K} `{!EqDecision K} (l : list K) (k : K) :
  NoDup l → k ∈ l → filter (λ x, x = k) l = [k].
Proof.
  induction l as [|x l IH]; intros Hnd Hk; [by apply elem_of_nil in Hk|].
  apply NoDup_cons in Hnd as [Hx Hnd]. rewrite filter_cons.
  destruct (decide (x = k)) as [->|Hne].
  - f_equal. apply filter_none. by intros y Hy ->.
  - apply IH; [done|]. apply elem_of_cons in Hk as [?|?]; done.
Qed.

Lemma bind_filter_singletons {K} `{!EqDecision K} (l ks : list K) :
  NoDup l → (∀ k, k ∈ ks → k ∈ l) → ks ≫= (λ k, filter (λ x, x = k) l) = ks.
Proof.
  intros Hnd. induction ks as [|k ks IH]; intros Hks; [done|].
  rewrite bind_cons, filter_eq_singleton, IH; [done| |done|].
  - intros k' Hk'. apply Hks. by right.
  - apply Hks. by left.
Qed.

Lemma mapM_result_ok {A B} (g : A → result B) (h : A → B) (l : list A) :
  (∀ x, x ∈ l → g x = Ok (h x)) → mapM g l = Ok (h <$> l).
Proof.
  induction l as [|x l IH]; intros Hok; [done|].
  simpl. rewrite Hok by (by left). simpl. rewrite IH; [done|].
  intros y Hy. apply Hok. by right.
Qed.

Lemma elem_of_union_columns c cs : c ∈ Pandas.union_columns cs ↔ c ∈ cs.
Proof.
  unfold Pandas.union_columns.
  assert (∀ acc, c ∈ foldl (λ acc c, if decide (c ∈ acc) then acc else acc ++ [c]) acc cs
                 ↔ c ∈ acc ∨ c ∈ cs) as Hacc.
  { induction cs as [|c0 cs IH]; intros acc; simpl.
    - rewrite elem_of_nil. tauto.
    - rewrite IH, elem_of_cons. case_decide as Hc0.
      + split; [tauto|]. intros [?|[->|?]]; tauto.
      + rewrite elem_of_app, list_elem_of_singleton. tauto. }
  rewrite Hacc, elem_of_nil. tauto.
Qed.

Lemma reindex_lookup cols (r : row) c :
  Pandas.reindex cols r !! c = if decide (c ∈ cols) then Some (cell_of r c) else None.
Proof.
  unfold Pandas.reindex. induction cols as [|c0 cols IH]; [done|].
  rewrite fmap_cons. simpl. destruct (decide (c0 = c)) as [->|Hne].
  - rewrite lookup_insert_eq. rewrite decide_True; [done|by left].
  - rewrite lookup_insert_ne, IH by done.
    destruct (decide (c ∈ cols)) as [Hin|Hin].
    + rewrite decide_True; [done|by right].
    + rewrite decide_False; [done|]. by intros [?|?]%elem_of_cons.
Qed.

Section Birlestir.
Import Pandas SSH.

(** Two keyed frames: the key columns and the key cell are there, and
    the key cell of each row holds its composite key. *)
Context (Y M : DataFrame).
Hypothesis Y_cell : ∀ r, r ∈ rows Y → cell_of r birlestirme_anahtari = CStr (kayit_anahtari r).
Hypothesis M_cell : ∀ r, r ∈ rows M → cell_of r birlestirme_anahtari = CStr (kayit_anahtari r).
Hypothesis Y_key : birlestirme_anahtari ∈ columns Y.
Hypothesis M_key : birlestirme_anahtari ∈ columns M.
Hypothesis Y_cols : has_keys Y.
Hypothesis M_cols : has_keys M.

Lemma anahtar_cell (d : DataFrame) r :
  (∀ r, r ∈ rows d → cell_of r birlestirme_anahtari = CStr (kayit_anahtari r)) →
  r ∈ rows d → anahtar r = kayit_anahtari r.
Proof. intros Hd Hr. unfold anahtar. by rewrite Hd. Qed.

Lemma anahtarlar_cell (d : DataFrame) :
  (∀ r, r ∈ rows d → cell_of r birlestirme_anahtari = CStr (kayit_anahtari r)) →
  anahtarlar d = list_to_set (df_keys d).
Proof.
  intros Hd. unfold anahtarlar, df_keys. f_equal.
  apply list_fmap_ext. intros i r Hr. apply (anahtar_cell d); [done|].
  by eapply list_elem_of_lookup_2.
Qed.

Lemma filter_esit (d : DataFrame) k :
  (∀ r, r ∈ rows d → cell_of r birlestirme_anahtari = CStr (kayit_anahtari r)) →
  filter (anahtar_esit k) (rows d) = filter (λ r, kayit_anahtari r = k) (rows d).
Proof.
  intros Hd. apply filter_ext_in. intros r Hr. unfold anahtar_esit.
  rewrite (Hd r Hr). split; [by intros [= ->]|by intros ->].
Qed.

Lemma filter_isin (d : DataFrame) s :
  (∀ r, r ∈ rows d → cell_of r birlestirme_anahtari = CStr (kayit_anahtari r)) →
  filter (anahtar_isin s) (rows d) = filter (λ r, kayit_anahtari r ∈ s) (rows d).
Proof.
  intros Hd. apply filter_ext_in. intros r Hr. unfold anahtar_isin.
  by rewrite (anahtar_cell d r Hd Hr).
Qed.

Lemma guncelle_kayit_ok k :
  k ∈ anahtarlar M → guncelle_kayit Y M k = Ok (guncel Y M k).
Proof.
  intros Hk. unfold guncelle_kayit, guncel, ilk. simpl.
  case_decide as Hpd; [|done].
  destruct (filter (anahtar_esit k) (rows M)) as [|r0 l] eqn:Hf; [|done].
  exfalso. rewrite (anahtarlar_cell M M_cell) in Hk.
  apply elem_of_list_to_set, list_elem_of_fmap in Hk as [r [-> Hr]].
  apply (filter_nil_not_elem_of _ _ r) in Hf; [done|].
  unfold anahtar_esit. by apply M_cell.
Qed.

Lemma columns_guncel k : columns (guncel Y M k) = columns Y.
Proof.
  unfold guncel. case_decide as Hpd; [|done].
  rewrite columns_set_column. simpl. rewrite decide_True; [done|apply Hpd].
Qed.

Lemma kayit_anahtari_insert_durum (r : row) v :
  kayit_anahtari (<[parca_durumu := v]> r) = kayit_anahtari r.
Proof.
  apply kayit_anahtari_ext. intros c Hc. apply cell_of_insert_ne.
  intros <-. by apply parca_durumu_fresh.
Qed.

Lemma rows_guncel k :
  rows (guncel Y M k)
  = (if decide (parca_durumu ∈ columns M ∧ parca_durumu ∈ columns Y)
     then (λ r, <[parca_durumu := cell_of (ilk M k) parca_durumu]> r) else id)
    <$> filter (λ r, kayit_anahtari r = k) (rows Y).
Proof.
  unfold guncel. case_decide.
  - rewrite rows_set_column. simpl. by rewrite (filter_esit Y k Y_cell).
  - simpl. by rewrite (filter_esit Y k Y_cell), list_fmap_id.
Qed.

Lemma keys_guncel k :
  kayit_anahtari <$> rows (guncel Y M k) = filter (λ x, x = k) (df_keys Y).
Proof.
  rewrite rows_guncel. unfold df_keys.
  rewrite <-(fmap_filter_key kayit_anahtari (λ x, x = k)), <-list_fmap_compose.
  apply list_fmap_ext. intros i r _. simpl.
  case_decide; [apply kayit_anahtari_insert_durum|done].
Qed.

Lemma rows_liste : mjoin (rows <$> liste Y M) = birlesen Y M.
Proof.
  unfold liste, birlesen. rewrite !fmap_app, !join_app.
  rewrite (join_fmap_fmap (guncel Y M) rows). f_equal. f_equal.
  - unfold yeni_kayitlar. simpl. case_decide as He.
    + rewrite He. symmetry. apply filter_none. set_solver.
    + simpl. by rewrite app_nil_r, (filter_isin Y _ Y_cell).
  - unfold saklanacak_eski_kayitlar. simpl. case_decide as He.
    + rewrite He. symmetry. apply filter_none. set_solver.
    + simpl. by rewrite app_nil_r, (filter_isin M _ M_cell).
Qed.

Lemma keys_birlesen :
  kayit_anahtari <$> birlesen Y M
  = (elements (guncelleme_anahtarlari Y M) ≫= (λ k, filter (λ x, x = k) (df_keys Y)))
    ++ filter (λ k, k ∈ ekleme_anahtarlari Y M) (df_keys Y)
    ++ filter (λ k, k ∈ saklama_anahtarlari Y M) (df_keys M).
Proof.
  unfold birlesen. rewrite !fmap_app, fmap_bind_list. f_equal; [|unfold df_keys; f_equal].
  - induction (elements (guncelleme_anahtarlari Y M)) as [|k ks IH]; [done|].
    by rewrite !bind_cons, IH, keys_guncel.
  - by rewrite <-(fmap_filter_key kayit_anahtari (λ k, k ∈ ekleme_anahtarlari Y M)).
  - by rewrite <-(fmap_filter_key kayit_anahtari (λ k, k ∈ saklama_anahtarlari Y M)).
Qed.

Lemma liste_nonempty : rows Y ≠ [] → liste Y M ≠ [].
Proof.
  intros Hr.
  assert (∃ r, r ∈ rows Y) as [r Hin].
  { clear -Hr. destruct (rows Y) as [|r l]; [done|]. exists r. by left. }
  assert (kayit_anahtari r ∈ anahtarlar Y) as Hk.
  { rewrite (anahtarlar_cell Y Y_cell). apply elem_of_list_to_set.
    by apply list_elem_of_fmap_2. }
  unfold liste. destruct (decide (kayit_anahtari r ∈ anahtarlar M)) as [Hm|Hm].
  - assert (kayit_anahtari r ∈ elements (guncelleme_anahtarlari Y M)) as Hg.
    { apply elem_of_elements. unfold guncelleme_anahtarlari. set_solver. }
    destruct (elements (guncelleme_anahtarlari Y M)); [by apply elem_of_nil in Hg|done].
  - assert (kayit_anahtari r ∈ ekleme_anahtarlari Y M) as He
      by (unfold ekleme_anahtarlari; set_solver).
    unfold yeni_kayitlar. simpl. rewrite decide_False by set_solver.
    intros Happ. apply app_eq_nil in Happ as [_ Happ]. done.
Qed.

Lemma sutunlar_intro d c : d ∈ liste Y M → c ∈ columns d → c ∈ son_sutunlar Y M.
Proof.
  intros Hd Hc. apply elem_of_union_columns, list_elem_of_join.
  exists (columns d). split; [done|]. by apply list_elem_of_fmap_2.
Qed.

Lemma liste_columns d : d ∈ liste Y M → columns d = columns Y ∨ columns d = columns M.
Proof.
  unfold liste, yeni_kayitlar, saklanacak_eski_kayitlar. simpl.
  rewrite !elem_of_app. intros [Hd|[Hd|Hd]].
  - apply list_elem_of_fmap in Hd as [k [-> _]]. left. apply columns_guncel.
  - case_decide; [by apply elem_of_nil in Hd|].
    apply list_elem_of_singleton in Hd as ->. by left.
  - case_decide; [by apply elem_of_nil in Hd|].
    apply list_elem_of_singleton in Hd as ->. by right.
Qed.

Lemma sutunlar_both c :
  rows Y ≠ [] → c ∈ columns Y → c ∈ columns M → c ∈ son_sutunlar Y M.
Proof.
  intros Hr Hy Hm. pose proof (liste_nonempty Hr) as Hne.
  destruct (liste Y M) as [|d l] eqn:Hl; [done|].
  assert (d ∈ liste Y M) as Hd by (rewrite Hl; by left).
  apply (sutunlar_intro d); [done|].
  destruct (liste_columns d Hd) as [-> | ->]; done.
Qed.

Lemma sutunlar_yeni k c :
  k ∈ anahtarlar Y → c ∈ columns Y → c ∈ son_sutunlar Y M.
Proof.
  intros Hk Hc. destruct (decide (k ∈ anahtarlar M)) as [Hm|Hm].
  - apply (sutunlar_intro (guncel Y M k)); [|by rewrite columns_guncel].
    unfold liste. apply elem_of_app. left. apply list_elem_of_fmap_2.
    apply elem_of_elements. unfold guncelleme_anahtarlari. set_solver.
  - apply (sutunlar_intro (filter_rows (anahtar_isin (ekleme_anahtarlari Y M)) Y)); [|done].
    unfold liste, yeni_kayitlar. simpl. apply elem_of_app. right. apply elem_of_app. left.
    rewrite decide_False; [by left|]. unfold ekleme_anahtarlari. set_solver.
Qed.

Lemma sutunlar_eski k c :
  k ∈ saklama_anahtarlari Y M → c ∈ columns M → c ∈ son_sutunlar Y M.
Proof.
  intros Hk Hc.
  apply (sutunlar_intro (filter_rows (anahtar_isin (saklama_anahtarlari Y M)) M)); [|done].
  unfold liste, saklanacak_eski_kayitlar. simpl. apply elem_of_app. right.
  apply elem_of_app. right. rewrite decide_False; [by left|]. set_solver.
Qed.

Lemma birlestir_ok :
  rows Y ≠ [] →
  birlestir Y M
  = Ok {| columns := filter (λ c, c ≠ birlestirme_anahtari) (son_sutunlar Y M);
          rows := merge_sort (row_desc servis_bakim_id) (son_kayit Y M <$> birlesen Y M) |}.
Proof.
  intros Hr. unfold birlestir.
  rewrite (mapM_result_ok _ (guncel Y M)).
  2:{ intros k Hk. apply guncelle_kayit_ok.
      apply elem_of_elements in Hk. unfold guncelleme_anahtarlari in Hk. set_solver. }
  simpl. fold (liste Y M). unfold son_df.
  pose proof (liste_nonempty Hr) as Hne.
  pose proof (has_keys_servis Y Y_cols) as Hsy.
  pose proof (has_keys_servis M M_cols) as Hsm.
  destruct (liste Y M) as [|d l] eqn:Hl; [done|]. rewrite <-Hl.
  unfold drop_column, concat. fold (son_sutunlar Y M). rewrite rows_liste. simpl.
  rewrite decide_True by (by apply sutunlar_both).
  simpl. unfold sort_values_desc. simpl.
  rewrite decide_True.
  - by rewrite <-list_fmap_compose.
  - apply list_elem_of_filter. split; [by_evaluation|by apply sutunlar_both].
Qed.

End Birlestir.

Section Sonuc.
Import Pandas SSH.

Lemma son_kayit_lookup Y M (r : row) c :
  c ≠ birlestirme_anahtari → c ∈ son_sutunlar Y M →
  son_kayit Y M r !! c = Some (cell_of r c).
Proof.
  intros Hne Hc. unfold son_kayit.
  rewrite lookup_delete_ne by done. rewrite reindex_lookup. by rewrite decide_True.
Qed.

Lemma son_kayit_key Y M (r : row) :
  (∀ c, c ∈ anahtar_sutunlar → c ∈ son_sutunlar Y M) →
  kayit_anahtari (son_kayit Y M r) = kayit_anahtari r.
Proof.
  intros Hcols. apply kayit_anahtari_ext. intros c Hc.
  unfold cell_of at 1. rewrite son_kayit_lookup; [done| |by apply Hcols].
  intros ->. by apply birlestirme_anahtari_fresh.
Qed.

Lemma wf_df_cell df r c :
  wf_df df → r ∈ rows df → c ∈ columns df → r !! c = Some (cell_of r c).
Proof.
  intros Hwf Hr Hc. apply (wf_df_lookup df r c Hwf Hr) in Hc as [v Hv].
  unfold cell_of. by rewrite Hv.
Qed.

Lemma has_keys_elem df c : has_keys df → c ∈ anahtar_sutunlar → c ∈ columns df.
Proof. unfold has_keys. rewrite Forall_forall. auto. Qed.

Lemma has_keys_keyed df : has_keys df → has_keys (keyed df).
Proof.
  intros Hk. unfold has_keys. rewrite Forall_forall. intros c Hc.
  apply columns_keyed_incl; [done|]. by apply has_keys_elem.
Qed.

Lemma keyed_cell df r :
  r ∈ rows (keyed df) → cell_of r birlestirme_anahtari = CStr (kayit_anahtari r).
Proof.
  rewrite rows_keyed. intros [r0 [-> _]]%list_elem_of_fmap.
  by rewrite hazirla_key_cell, kayit_anahtari_hazirla.
Qed.

Lemma df_keys_keyed df : df_keys (keyed df) = df_keys df.
Proof.
  unfold df_keys. rewrite rows_keyed, <-list_fmap_compose.
  apply list_fmap_ext. intros i r _. apply kayit_anahtari_hazirla.
Qed.

Lemma anahtarlar_keyed_keys df : anahtarlar (keyed df) = list_to_set (df_keys df).
Proof. rewrite (anahtarlar_cell (keyed df)); [by rewrite df_keys_keyed|apply keyed_cell]. Qed.

Ltac keyed_facts :=
  try done;
  eauto using keyed_cell, has_keys_keyed, columns_keyed_key, has_keys_elem.

Context (yeni mevcut : DataFrame).
Hypothesis yeni_keys : has_keys yeni.
Hypothesis mevcut_keys : has_keys mevcut.
Hypothesis yeni_rows : rows yeni ≠ [].
Hypothesis mevcut_rows : rows mevcut ≠ [].

Lemma rows_keyed_nonempty : rows (keyed yeni) ≠ [].
Proof. rewrite rows_keyed. by destruct (rows yeni). Qed.

Lemma verileri_birlestir_sonuc : verileri_birlestir yeni mevcut = Ok (sonuc yeni mevcut).
Proof.
  rewrite verileri_birlestir_keyed by done.
  rewrite (birlestir_ok (keyed yeni) (keyed mevcut)); keyed_facts.
  apply rows_keyed_nonempty.
Qed.

Lemma sutunlar_keys c :
  c ∈ anahtar_sutunlar → c ∈ son_sutunlar (keyed yeni) (keyed mevcut).
Proof.
  intros Hc. apply sutunlar_both; keyed_facts.
  apply rows_keyed_nonempty.
Qed.

Lemma sonuc_row r :
  r ∈ birlesen (keyed yeni) (keyed mevcut) →
  son_kayit (keyed yeni) (keyed mevcut) r ∈ rows (sonuc yeni mevcut).
Proof.
  intros Hr. unfold sonuc. simpl. rewrite merge_sort_Permutation.
  by apply list_elem_of_fmap_2.
Qed.

Lemma sonuc_keys :
  df_keys (sonuc yeni mevcut) ≡ₚ
    (elements (guncelleme_anahtarlari (keyed yeni) (keyed mevcut))
       ≫= (λ k, filter (λ x, x = k) (df_keys yeni)))
    ++ filter (λ k, k ∈ ekleme_anahtarlari (keyed yeni) (keyed mevcut)) (df_keys yeni)
    ++ filter (λ k, k ∈ saklama_anahtarlari (keyed yeni) (keyed mevcut)) (df_keys mevcut).
Proof.
  unfold df_keys at 1, sonuc. simpl. rewrite merge_sort_Permutation.
  rewrite <-list_fmap_compose.
  rewrite (list_fmap_ext _ kayit_anahtari)
    by (intros i r _; apply son_kayit_key, sutunlar_keys).
  rewrite keys_birlesen by keyed_facts.
  by rewrite !df_keys_keyed.
Qed.

Lemma sonuc_columns c :
  c ∈ columns (sonuc yeni mevcut) ↔ c ≠ birlestirme_anahtari ∧ c ∈ son_sutunlar (keyed yeni) (keyed mevcut).
Proof. unfold sonuc. simpl. by rewrite list_elem_of_filter. Qed.

End Sonuc.

Lemma filter_key_singleton {A K} `{!EqDecision K} (f : A → K) (l : list A) (x : A) :
  NoDup (f <$> l) → x ∈ l → filter (λ y, f y = f x) l = [x].
Proof.
  intros Hnd Hx.
  destruct (filter_key_unique f (f x) l Hnd) as [Hnil|[y Hy]].
  - by apply (filter_nil_not_elem_of _ _ x) in Hnil.
  - assert (x ∈ filter (λ y, f y = f x) l) as Hin by (by apply list_elem_of_filter).
    rewrite Hy in Hin. by apply list_elem_of_singleton in Hin as ->.
Qed.

Section Kayitlar.
Import Pandas SSH.
Context (yeni mevcut : DataFrame).
Hypothesis yeni_keys : has_keys yeni.
Hypothesis mevcut_keys : has_keys mevcut.

Ltac keyed_facts :=
  try done;
  eauto using keyed_cell, has_keys_keyed, columns_keyed_key, has_keys_elem.

Lemma guncellenen_in_sonuc rn ro :
  NoDup (df_keys yeni) → NoDup (df_keys mevcut) →
  parca_durumu ∈ columns yeni → parca_durumu ∈ columns mevcut →
  rn ∈ rows yeni → ro ∈ rows mevcut → kayit_anahtari rn = kayit_anahtari ro →
  guncellenen yeni mevcut rn ro ∈ rows (sonuc yeni mevcut).
Proof.
  intros Hny Hnm Hpy Hpm Hrn Hro Hk.
  apply sonuc_row, elem_of_app. left.
  assert (hazirla rn ∈ rows (keyed yeni)) as Hhn
    by (rewrite rows_keyed; by apply list_elem_of_fmap_2).
  assert (hazirla ro ∈ rows (keyed mevcut)) as Hho
    by (rewrite rows_keyed; by apply list_elem_of_fmap_2).
  assert (filter (λ r, kayit_anahtari r = kayit_anahtari rn) (rows (keyed yeni))
          = [hazirla rn]) as HfY.
  { rewrite <-(kayit_anahtari_hazirla rn).
    apply (filter_key_singleton kayit_anahtari); [|done].
    by rewrite <-(df_keys_keyed yeni) in Hny. }
  assert (filter (λ r, kayit_anahtari r = kayit_anahtari rn) (rows (keyed mevcut))
          = [hazirla ro]) as HfM.
  { rewrite Hk, <-(kayit_anahtari_hazirla ro).
    apply (filter_key_singleton kayit_anahtari); [|done].
    by rewrite <-(df_keys_keyed mevcut) in Hnm. }
  apply list_elem_of_bind. exists (kayit_anahtari rn). split.
  - rewrite rows_guncel by keyed_facts.
    rewrite decide_True by (split; by apply columns_keyed_incl).
    rewrite HfY, list_fmap_singleton. apply list_elem_of_singleton.
    unfold ilk. rewrite (filter_esit (keyed mevcut)) by keyed_facts.
    by rewrite HfM.
  - apply elem_of_elements. unfold guncelleme_anahtarlari.
    rewrite !anahtarlar_keyed_keys, elem_of_intersection, !elem_of_list_to_set.
    split; [rewrite Hk|]; by apply list_elem_of_fmap_2.
Qed.

Lemma guncellenen_lookup rn ro c :
  rn ∈ rows yeni → c ∈ columns (sonuc yeni mevcut) →
  guncellenen yeni mevcut rn ro !! c
  = Some (if decide (c = parca_durumu) then cell_of (hazirla ro) parca_durumu
          else cell_of (hazirla rn) c).
Proof.
  intros Hrn [Hne Hc]%sonuc_columns. unfold guncellenen.
  rewrite son_kayit_lookup by done. f_equal.
  case_decide as Hpd.
  - subst c. apply cell_of_insert_eq.
  - by apply cell_of_insert_ne.
Qed.

Lemma yeni_sutun_sonuc rn c :
  rows mevcut ≠ [] → rn ∈ rows yeni → c ∈ columns yeni → c ≠ birlestirme_anahtari →
  c ∈ columns (sonuc yeni mevcut).
Proof.
  intros Hrm Hrn Hc Hne. apply sonuc_columns. split; [done|].
  apply (sutunlar_yeni (keyed yeni) (keyed mevcut)) with (k := kayit_anahtari rn);
    keyed_facts.
  - rewrite anahtarlar_keyed_keys. apply elem_of_list_to_set.
    by apply list_elem_of_fmap_2.
  - by apply columns_keyed_incl.
Qed.

Lemma saklama_key ro :
  ro ∈ rows mevcut → kayit_anahtari ro ∉ df_keys yeni →
  kayit_anahtari ro ∈ saklama_anahtarlari (keyed yeni) (keyed mevcut).
Proof.
  intros Hro Hk. unfold saklama_anahtarlari.
  rewrite !anahtarlar_keyed_keys, elem_of_difference, !elem_of_list_to_set.
  split; [by apply list_elem_of_fmap_2|done].
Qed.

Lemma eski_sutun_sonuc ro c :
  rows yeni ≠ [] → rows mevcut ≠ [] →
  ro ∈ rows mevcut → kayit_anahtari ro ∉ df_keys yeni →
  c ∈ columns mevcut → c ≠ birlestirme_anahtari →
  c ∈ columns (sonuc yeni mevcut).
Proof.
  intros Hry Hrm Hro Hk Hc Hne. apply sonuc_columns; [done..|]. split; [done|].
  apply sutunlar_eski with (k := kayit_anahtari ro);
    first [by apply saklama_key | by apply columns_keyed_incl | keyed_facts].
Qed.

Lemma saklanan_in_sonuc ro :
  rows yeni ≠ [] → ro ∈ rows mevcut → kayit_anahtari ro ∉ df_keys yeni →
  saklanan yeni mevcut ro ∈ rows (sonuc yeni mevcut).
Proof.
  intros Hry Hro Hk. apply sonuc_row. unfold birlesen.
  do 2 (apply elem_of_app; right). apply list_elem_of_filter. split.
  - rewrite kayit_anahtari_hazirla. by apply saklama_key.
  - rewrite rows_keyed. by apply list_elem_of_fmap_2.
Qed.

Lemma saklanan_lookup ro c :
  c ∈ columns (sonuc yeni mevcut) → saklanan yeni mevcut ro !! c = Some (cell_of (hazirla ro) c).
Proof.
  intros [Hne Hc]%sonuc_columns. unfold saklanan. by rewrite son_kayit_lookup.
Qed.

Lemma sonuc_NoDup :
  rows yeni ≠ [] →
  NoDup (df_keys yeni) → NoDup (df_keys mevcut) → NoDup (df_keys (sonuc yeni mevcut)).
Proof.
  intros Hry Hny Hnm. rewrite (sonuc_keys yeni mevcut) by done.
  rewrite (bind_filter_singletons (df_keys yeni)); [|done|].
  2:{ intros k Hk%elem_of_elements. unfold guncelleme_anahtarlari in Hk.
      rewrite !anahtarlar_keyed_keys in Hk.
      apply elem_of_intersection in Hk as [_ Hk]. by apply elem_of_list_to_set in Hk. }
  unfold guncelleme_anahtarlari, ekleme_anahtarlari, saklama_anahtarlari.
  rewrite !anahtarlar_keyed_keys.
  apply NoDup_app. split_and!.
  - apply NoDup_elements.
  - intros k Hk%elem_of_elements.
    rewrite elem_of_app, !list_elem_of_filter. set_solver.
  - apply NoDup_app. split_and!; [by apply NoDup_filter| |by apply NoDup_filter].
    intros k [Hk _]%list_elem_of_filter [Hk' _]%list_elem_of_filter. set_solver.
Qed.

Lemma sonuc_keys_elem k :
  rows yeni ≠ [] →
  k ∈ df_keys (sonuc yeni mevcut) ↔ k ∈ df_keys mevcut ∨ k ∈ df_keys yeni.
Proof.
  intros Hry. rewrite (sonuc_keys yeni mevcut) by done.
  unfold guncelleme_anahtarlari, ekleme_anahtarlari, saklama_anahtarlari.
  rewrite !anahtarlar_keyed_keys.
  rewrite !elem_of_app, !list_elem_of_filter, list_elem_of_bind.
  rewrite elem_of_difference, elem_of_difference, !elem_of_list_to_set.
  split.
  - intros [(k' & [-> Hk]%list_elem_of_filter & _)|[[_ Hk]|[_ Hk]]]; auto.
  - intros Hk.
    destruct (decide (k ∈ df_keys yeni)) as [Hy|Hy],
             (decide (k ∈ df_keys mevcut)) as [Hm|Hm]; [|tauto..].
    left. exists k. split; [by apply list_elem_of_filter|].
    by rewrite elem_of_elements, elem_of_intersection, !elem_of_list_to_set.
Qed.

End Kayitlar.

(** The three ways a key can lie in two key sets. *)
Lemma partition_sets (O N : gset string) :
  (O ∩ N) ∪ (N ∖ O) ∪ (O ∖ N) = O ∪ N ∧
  (O ∩ N) ## (N ∖ O) ∧ (O ∩ N) ## (O ∖ N) ∧ (N ∖ O) ## (O ∖ N).
Proof.
  split_and!.
  - apply set_eq. intros k.
    rewrite !elem_of_union, elem_of_intersection, !elem_of_difference.
    destruct (decide (k ∈ O)), (decide (k ∈ N)); tauto.
  - intros k. rewrite elem_of_intersection, elem_of_difference. tauto.
  - intros k. rewrite elem_of_intersection, elem_of_difference. tauto.
  - intros k. rewrite !elem_of_difference. tauto.
Qed.

(** The partition of the keys, where the merger gets as far as
    building it.  For an old and a new table that both have the four
    key columns and at least one row, each composite key at most once
    per side: the merger returns a table whose composite keys are those
    of the old and of the new table together, each exactly once; the
    keys to update, to insert and to retain are the keys on both sides,
    only in the new and only in the old table, they are pairwise
    disjoint and together make up that union. *)
Theorem upsert_partition (yeni mevcut : DataFrame) :
  has_keys yeni → has_keys mevcut → rows yeni ≠ [] → rows mevcut ≠ [] →
  NoDup (df_keys yeni) → NoDup (df_keys mevcut) →
  let N : gset string := list_to_set (df_keys yeni) in
  let O : gset string := list_to_set (df_keys mevcut) in
  let G := SSH.guncelleme_anahtarlari (keyed yeni) (keyed mevcut) in
  let E := SSH.ekleme_anahtarlari (keyed yeni) (keyed mevcut) in
  let S := SSH.saklama_anahtarlari (keyed yeni) (keyed mevcut) in
  ∃ out, SSH.verileri_birlestir yeni mevcut = Ok out ∧
    NoDup (df_keys out) ∧
    list_to_set (df_keys out) = O ∪ N ∧
    G = O ∩ N ∧ E = N ∖ O ∧ S = O ∖ N ∧
    G ∪ E ∪ S = O ∪ N ∧ G ## E ∧ G ## S ∧ E ## S.
Proof.
  intros Hy Hm Hry Hrm Hny Hnm. cbv zeta.
  unfold SSH.guncelleme_anahtarlari, SSH.ekleme_anahtarlari, SSH.saklama_anahtarlari.
  rewrite !anahtarlar_keyed_keys.
  exists (sonuc yeni mevcut). split; [by apply verileri_birlestir_sonuc|].
  split; [by apply sonuc_NoDup|]. split.
  - apply set_eq. intros k.
    rewrite elem_of_list_to_set, (sonuc_keys_elem yeni mevcut) by done.
    by rewrite elem_of_union, !elem_of_list_to_set.
  - split_and!; try done; apply partition_sets.
Qed.

Lemma upsert_partition_witness :
  ∃ out, SSH.verileri_birlestir Ornek.yeni_ornek Ornek.mevcut_ornek = Ok out ∧
         NoDup (df_keys out) ∧
         list_to_set (df_keys out)
         =@{gset string} list_to_set (df_keys Ornek.mevcut_ornek)
                           ∪ list_to_set (df_keys Ornek.yeni_ornek).
Proof.
  pose proof (upsert_partition Ornek.yeni_ornek Ornek.mevcut_ornek) as H.
  cbv zeta in H. destruct H as (out & Hout & Hnd & Hkeys & _); [by_evaluation..|].
  exists out. split_and!; assumption.
Defined.

(** C1 at an extract without rows: both tables have the four key
    columns, the sheet has two rows with different keys, and the
    extract has none.  Line 267 cannot build the key column of a frame
    without rows and raises inside the [try]; the handler returns the
    extract, and the keys of the sheet, which the result should hold,
    are gone. *)
Theorem empty_new_table_loses_old_keys :
  has_keys Ornek.yeni_bos ∧ has_keys Ornek.mevcut_ornek ∧
  rows Ornek.mevcut_ornek ≠ [] ∧
  NoDup (df_keys Ornek.yeni_bos) ∧ NoDup (df_keys Ornek.mevcut_ornek) ∧
  SSH.verileri_birlestir Ornek.yeni_bos Ornek.mevcut_ornek = Ok Ornek.yeni_bos ∧
  list_to_set (df_keys Ornek.yeni_bos)
  ≠@{gset string} list_to_set (df_keys Ornek.mevcut_ornek)
                    ∪ list_to_set (df_keys Ornek.yeni_bos).
Proof. split_and!; try by_evaluation. by vm_compute. Qed.

(** C2, as the code has it.  For tables with the key columns and the
    column "Parça Durumu" on both sides, keys distinct per side, and a
    key that a new record [rn] and an old record [ro] share: the result
    has exactly one record with that key; its "Parça Durumu" is that of
    [ro]; each of its four key columns is the field of [rn] as a
    stripped string; every other column of the result holds the cell of
    [rn], or NaN where the new table has no such column.  The result
    has every column of the new table but the temporary key column. *)
Theorem update_carries_status (yeni mevcut : DataFrame) (rn ro : row) :
  has_keys yeni → has_keys mevcut → wf_df yeni → wf_df mevcut →
  NoDup (df_keys yeni) → NoDup (df_keys mevcut) →
  SSH.parca_durumu ∈ columns yeni → SSH.parca_durumu ∈ columns mevcut →
  rn ∈ rows yeni → ro ∈ rows mevcut → kayit_anahtari rn = kayit_anahtari ro →
  ∃ out r, SSH.verileri_birlestir yeni mevcut = Ok out ∧
    r ∈ rows out ∧ kayit_anahtari r = kayit_anahtari rn ∧
    (∀ r', r' ∈ rows out → kayit_anahtari r' = kayit_anahtari rn → r' = r) ∧
    r !! SSH.parca_durumu = ro !! SSH.parca_durumu ∧
    (∀ c, c ∈ SSH.anahtar_sutunlar →
          r !! c = Some (CStr (Py.strip (py_str (cell_of rn c))))) ∧
    (∀ c, c ∈ columns out → c ≠ SSH.parca_durumu → c ∉ SSH.anahtar_sutunlar →
          r !! c = if decide (c ∈ columns yeni) then rn !! c else Some CNaN) ∧
    (∀ c, c ∈ columns yeni → c ≠ SSH.birlestirme_anahtari → c ∈ columns out).
Proof.
  intros Hy Hm Hwy Hwm Hny Hnm Hpy Hpm Hrn Hro Hk.
  assert (rows yeni ≠ []) as Hry by (intros Hnil; rewrite Hnil in Hrn; by apply elem_of_nil in Hrn).
  assert (rows mevcut ≠ []) as Hrm by (intros Hnil; rewrite Hnil in Hro; by apply elem_of_nil in Hro).
  assert (SSH.parca_durumu ≠ SSH.birlestirme_anahtari) as Hpk by by_evaluation.
  exists (sonuc yeni mevcut), (guncellenen yeni mevcut rn ro).
  assert (guncellenen yeni mevcut rn ro ∈ rows (sonuc yeni mevcut)) as Hin
    by (by apply guncellenen_in_sonuc).
  assert (kayit_anahtari (guncellenen yeni mevcut rn ro) = kayit_anahtari rn) as Hkey.
  { unfold guncellenen. rewrite son_kayit_key by (by apply sutunlar_keys).
    by rewrite kayit_anahtari_insert_durum, kayit_anahtari_hazirla. }
  split_and!; [by apply verileri_birlestir_sonuc|done|done| | | | |].
  - intros r' Hr' Hkr'.
    apply (NoDup_fmap_eq kayit_anahtari (rows (sonuc yeni mevcut))); [|done|done|congruence].
    by apply sonuc_NoDup.
  - rewrite guncellenen_lookup; [|done|by apply (yeni_sutun_sonuc yeni mevcut Hy Hm rn)].
    rewrite decide_True by done.
    unfold cell_of at 1.
    rewrite hazirla_lookup_ne; [|apply parca_durumu_fresh|done].
    symmetry. by apply (wf_df_cell mevcut).
  - intros c Hc.
    assert (c ≠ SSH.birlestirme_anahtari) as Hck
      by (intros ->; by apply birlestirme_anahtari_fresh).
    rewrite guncellenen_lookup;
      [|done|apply (yeni_sutun_sonuc yeni mevcut Hy Hm rn); try done; by apply has_keys_elem].
    rewrite decide_False by (intros ->; by apply parca_durumu_fresh).
    by rewrite hazirla_cell.
  - intros c Hc Hcp Hck.
    pose proof Hc as [Hcb _]%sonuc_columns; [|done..].
    rewrite guncellenen_lookup by done. rewrite decide_False by done.
    unfold cell_of. rewrite hazirla_lookup_ne by done.
    case_decide as Hcy.
    + by rewrite (wf_df_cell yeni rn c).
    + by rewrite (wf_df_lookup_None yeni rn c).
  - intros c Hc Hck. by apply (yeni_sutun_sonuc yeni mevcut Hy Hm rn).
Qed.

(** C3, as the code has it.  For tables with the key columns on both
    sides, an old record [ro] whose key the new table does not have is
    in the result: its four key columns as stripped strings, every
    other column of the result with the cell of [ro], or NaN where the
    old table has no such column.  The result has every column of the
    old table but the temporary key column.  The statement is about a
    new table with at least one row: on a new table without rows the
    merger fails, and nothing is said about that case here. *)
Theorem retain_keeps_old_record (yeni mevcut : DataFrame) (ro : row) :
  has_keys yeni → has_keys mevcut → wf_df mevcut → rows yeni ≠ [] →
  ro ∈ rows mevcut → kayit_anahtari ro ∉ df_keys yeni →
  ∃ out r, SSH.verileri_birlestir yeni mevcut = Ok out ∧
    r ∈ rows out ∧ kayit_anahtari r = kayit_anahtari ro ∧
    (∀ c, c ∈ SSH.anahtar_sutunlar →
          r !! c = Some (CStr (Py.strip (py_str (cell_of ro c))))) ∧
    (∀ c, c ∈ columns out → c ∉ SSH.anahtar_sutunlar →
          r !! c = if decide (c ∈ columns mevcut) then ro !! c else Some CNaN) ∧
    (∀ c, c ∈ columns mevcut → c ≠ SSH.birlestirme_anahtari → c ∈ columns out).
Proof.
  intros Hy Hm Hwm Hry Hro Hk.
  assert (rows mevcut ≠ []) as Hrm by (intros Hnil; rewrite Hnil in Hro; by apply elem_of_nil in Hro).
  exists (sonuc yeni mevcut), (saklanan yeni mevcut ro).
  split_and!.
  - by apply verileri_birlestir_sonuc.
  - by apply saklanan_in_sonuc.
  - unfold saklanan. rewrite son_kayit_key by (by apply sutunlar_keys).
    apply kayit_anahtari_hazirla.
  - intros c Hc. unfold saklanan.
    rewrite son_kayit_lookup; [by rewrite hazirla_cell| |by apply sutunlar_keys].
    intros ->. by apply birlestirme_anahtari_fresh.
  - intros c Hc Hck.
    pose proof Hc as [Hcb _]%sonuc_columns; [|done..].
    rewrite saklanan_lookup by done.
    unfold cell_of. rewrite hazirla_lookup_ne by done.
    case_decide as Hcm.
    + by rewrite (wf_df_cell mevcut ro c).
    + by rewrite (wf_df_lookup_None mevcut ro c).
  - intros c Hc Hck. by apply (eski_sutun_sonuc yeni mevcut Hy Hm ro).
Qed.

Lemma update_carries_status_witness :
  ∃ out r,
    SSH.verileri_birlestir Ornek.yeni_ornek Ornek.mevcut_ornek = Ok out ∧
    r ∈ rows out ∧
    r !! SSH.parca_durumu = Some (CStr "Geldi") ∧
    r !! "Müşteri Adı" = Some (CStr "Ayse Kaya").
Proof.
  destruct (update_carries_status Ornek.yeni_ornek Ornek.mevcut_ornek
              (Ornek.kayit "" "Ayse Kaya" "41" "9001" "310" "77")
              (Ornek.kayit "Geldi" "Ayse Kaya" "41" "9001" "310" "77"))
    as (out & r & Hout & Hin & _ & _ & Hpd & _ & Hc & Hcols); [by_evaluation..|].
  exists out, r. split_and!; [assumption|assumption| |].
  - rewrite Hpd. by vm_compute.
  - rewrite (Hc "Müşteri Adı").
    + by vm_compute.
    + apply Hcols; by_evaluation.
    + by_evaluation.
    + by_evaluation.
Defined.

(** A blank in front of a key field of the new record is not in the
    merged record; and without the status column in the new table the
    status of the old record is not carried over. *)
Lemma update_strips_keys_and_needs_status_column :
  (Ornek.kayit "" "Ayse Kaya" " 41" "9001" "310" "77" ∈ rows Ornek.yeni_bosluklu ∧
   Ornek.kayit "Geldi" "Ayse Kaya" "41" "9001" "310" "77" ∈ rows Ornek.mevcut_ornek ∧
   kayit_anahtari (Ornek.kayit "" "Ayse Kaya" " 41" "9001" "310" "77")
   = kayit_anahtari (Ornek.kayit "Geldi" "Ayse Kaya" "41" "9001" "310" "77") ∧
   ∃ out, SSH.verileri_birlestir Ornek.yeni_bosluklu Ornek.mevcut_ornek = Ok out ∧
     Forall (λ r, r !! SSH.servis_bakim_id
                  ≠ Ornek.kayit "" "Ayse Kaya" " 41" "9001" "310" "77" !! SSH.servis_bakim_id)
            (rows out)) ∧
  (delete "Parça Durumu" (Ornek.kayit "" "Ayse Kaya" "41" "9001" "310" "77")
     ∈ rows Ornek.yeni_durumsuz ∧
   kayit_anahtari (delete "Parça Durumu" (Ornek.kayit "" "Ayse Kaya" "41" "9001" "310" "77"))
   = kayit_anahtari (Ornek.kayit "Geldi" "Ayse Kaya" "41" "9001" "310" "77") ∧
   ∃ out, SSH.verileri_birlestir Ornek.yeni_durumsuz Ornek.mevcut_ornek = Ok out ∧
     Forall (λ r, kayit_anahtari r
                  = kayit_anahtari (Ornek.kayit "Geldi" "Ayse Kaya" "41" "9001" "310" "77") →
                  r !! SSH.parca_durumu
                  ≠ Ornek.kayit "Geldi" "Ayse Kaya" "41" "9001" "310" "77" !! SSH.parca_durumu)
            (rows out)).
Proof.
  split.
  - split_and!; [by_evaluation..|].
    eexists. split; [by vm_compute|]. by_evaluation.
  - split_and!; [by_evaluation..|].
    eexists. split; [by vm_compute|]. by_evaluation.
Qed.

Lemma retain_keeps_old_record_witness :
  ∃ out r,
    SSH.verileri_birlestir Ornek.yeni_ornek Ornek.mevcut_ornek = Ok out ∧
    r ∈ rows out ∧
    r !! SSH.servis_bakim_id = Some (CStr "40") ∧
    kayit_anahtari r = "40900030976".
Proof.
  destruct (retain_keeps_old_record Ornek.yeni_ornek Ornek.mevcut_ornek
              (Ornek.kayit "Bekliyor" "Ali Demir" "40" "9000" "309" "76"))
    as (out & r & Hout & Hin & Hkey & Hk & _); [by_evaluation..|].
  exists out, r. split_and!; [assumption|assumption| |].
  - rewrite (Hk SSH.servis_bakim_id) by by_evaluation. by vm_compute.
  - rewrite Hkey. by vm_compute.
Defined.

(** A blank in front of a key field of the old record is not in the
    record the merger keeps: the key columns are rewritten as stripped
    strings. *)
Lemma retain_strips_key_fields :
  Ornek.kayit "Bekliyor" "Ali Demir" " 40" "9000" "309" "76" ∈ rows Ornek.mevcut_bosluklu ∧
  (kayit_anahtari (Ornek.kayit "Bekliyor" "Ali Demir" " 40" "9000" "309" "76")
     ∉ df_keys Ornek.yeni_ornek) ∧
  rows Ornek.yeni_ornek ≠ [] ∧
  ∃ out, SSH.verileri_birlestir Ornek.yeni_ornek Ornek.mevcut_bosluklu = Ok out ∧
    Forall (λ r, r !! SSH.servis_bakim_id
                 ≠ Ornek.kayit "Bekliyor" "Ali Demir" " 40" "9000" "309" "76"
                     !! SSH.servis_bakim_id)
           (rows out).
Proof.
  split_and!; [by_evaluation..|].
  eexists. split; [by vm_compute|]. by_evaluation.
Qed.

(** ** Missing key columns *)

(** When a key column is missing on either side, the merger returns
    what sorting the new table by "Servis Bakım ID" returns. *)
Lemma key_column_missing_sorts_new (yeni mevcut : DataFrame) :
  Exists (λ sutun, sutun ∉ columns yeni ∨ sutun ∉ columns mevcut) SSH.anahtar_sutunlar →
  SSH.verileri_birlestir yeni mevcut
  = Pandas.sort_values_desc SSH.servis_bakim_id yeni.
Proof.
  intros Hex. unfold SSH.verileri_birlestir.
  destruct (Pandas.empty mevcut); [done|]. by rewrite bool_decide_eq_true_2.
Qed.

(** That sort returns the rows of the new table, reordered, when the
    table has the column, and raises KeyError when it has not. *)
Lemma sort_values_desc_spec (c : string) (df : DataFrame) :
  (c ∈ columns df →
   ∃ out, Pandas.sort_values_desc c df = Ok out ∧
          columns out = columns df ∧ rows out ≡ₚ rows df) ∧
  (c ∉ columns df → Pandas.sort_values_desc c df = Raise (KeyError c)).
Proof.
  unfold Pandas.sort_values_desc. split; intros Hc.
  - rewrite decide_True by done. eexists. split; [done|]. split; [done|].
    simpl. apply merge_sort_Permutation.
  - by rewrite decide_False.
Qed.

(** C5 at an extract without the column "Servis Bakım ID": a key column
    is absent from the new table, the sheet has rows, and the merger
    raises KeyError from the sort of its fallback. *)
Theorem missing_servis_column_raises :
  Exists (λ sutun, sutun ∉ columns Ornek.yeni_servissiz ∨ sutun ∉ columns Ornek.mevcut_ornek)
         SSH.anahtar_sutunlar ∧
  Pandas.empty Ornek.mevcut_ornek = false ∧
  SSH.verileri_birlestir Ornek.yeni_servissiz Ornek.mevcut_ornek
  = Raise (KeyError "Servis Bakım ID").
Proof.
  split_and!.
  - by_evaluation.
  - by vm_compute.
  - rewrite key_column_missing_sorts_new by by_evaluation.
    apply sort_values_desc_spec. by_evaluation.
Qed.

(** ** The composite key *)

(** C10.  The key joins the four fields without separator, so records
    with different key fields can have the same key: ("1","23","x","y")
    and ("12","3","x","y") both get "123xy", and the merger takes the
    new one for an update of the old one, status carried over. *)
Theorem composite_key_not_injective :
  ∃ r1 r2 : row,
    (λ sutun, cell_of r1 sutun) <$> SSH.anahtar_sutunlar
      ≠ (λ sutun, cell_of r2 sutun) <$> SSH.anahtar_sutunlar ∧
    kayit_anahtari r1 = "123xy" ∧ kayit_anahtari r2 = "123xy" ∧
    SSH.anahtar_birlestir (temizle r1) = SSH.anahtar_birlestir (temizle r2) ∧
    SSH.guncelleme_anahtarlari (keyed (mkDF Ornek.sutunlar [r1])) (keyed (mkDF Ornek.sutunlar [r2]))
      = {["123xy"]} ∧
    SSH.verileri_birlestir (mkDF Ornek.sutunlar [r1]) (mkDF Ornek.sutunlar [r2])
      = Ok (mkDF Ornek.sutunlar [<[SSH.parca_durumu := CStr "Geldi"]> r1]).
Proof.
  exists (Ornek.kayit "" "Ayse Kaya" "1" "23" "x" "y"),
         (Ornek.kayit "Geldi" "Ali Demir" "12" "3" "x" "y").
  split_and!.
  - by_evaluation.
  - by vm_compute.
  - by vm_compute.
  - by vm_compute.
  - by vm_compute.
  - by vm_compute.
Qed.

(* ================================================================= *)
(** * Part III: properties of the readers, writers and helpers *)
(* ================================================================= *)

(** ** Strings *)

Section StringFacts.

Lemma string_app_nil_r (s : string) : s +:+ "" = s.
Proof. induction s as [|a s IH]; [done|]. by rewrite string_app_cons, IH. Qed.

Lemma string_app_assoc (s t u : string) : (s +:+ t) +:+ u = s +:+ (t +:+ u).
Proof. induction s as [|a s IH]; [done|]. by rewrite !string_app_cons, IH. Qed.

Lemma string_length_app (s t : string) :
  String.length (s +:+ t) = (String.length s + String.length t)%nat.
Proof.
  induction s as [|a s IH]; [done|]. rewrite string_app_cons. simpl. by rewrite IH.
Qed.

Lemma list_of_string_app (s t : string) :
  String.list_ascii_of_string (s +:+ t)
  = String.list_ascii_of_string s ++ String.list_ascii_of_string t.
Proof.
  induction s as [|a s IH]; [done|]. rewrite string_app_cons. simpl. by rewrite IH.
Qed.

Lemma length_list_of_string (s : string) :
  length (String.list_ascii_of_string s) = String.length s.
Proof. induction s as [|a s IH]; [done|]. simpl. by rewrite IH. Qed.

Lemma list_of_string_inj (s t : string) :
  String.list_ascii_of_string s = String.list_ascii_of_string t → s = t.
Proof.
  intros Heq.
  rewrite <-(String.string_of_list_ascii_of_string s),
          <-(String.string_of_list_ascii_of_string t).
  by rewrite Heq.
Qed.

End StringFacts.

(** ** Column labels *)

Section ColumnLetter.
Import DogtasFastSiparisSorgu.

Lemma ord_chr z : 0 ≤ z < 256 → PyStr.ord (PyStr.chr z) = z.
Proof.
  intros Hz. unfold PyStr.ord, PyStr.chr.
  rewrite N_ascii_embedding by lia. lia.
Qed.

Lemma column_number_cons a s :
  column_number (String a s)
  = (PyStr.ord a - PyStr.ord "A" + 1) * 26 ^ Z.of_nat (String.length s) + column_number s.
Proof.
  unfold column_number. simpl String.list_ascii_of_string. simpl foldl.
  generalize (PyStr.ord a - PyStr.ord "A" + 1). intros v.
  assert (∀ l acc, foldl (λ n a, n * 26 + (PyStr.ord a - PyStr.ord "A" + 1)) acc l
            = acc * 26 ^ Z.of_nat (length l)
              + foldl (λ n a, n * 26 + (PyStr.ord a - PyStr.ord "A" + 1)) 0 l) as Hgen.
  { induction l as [|b l IH]; intros acc; simpl foldl.
    - simpl. lia.
    - rewrite IH. rewrite (IH (0 * 26 + _)).
      replace (Z.of_nat (length (b :: l))) with (Z.of_nat (length l) + 1)
        by (simpl length; lia).
      rewrite Z.pow_add_r by lia. lia. }
  rewrite Hgen, length_list_of_string. lia.
Qed.

Lemma next_column_fuel n fuel :
  0 < n → (Z.to_nat n ≤ S fuel)%nat → (Z.to_nat ((n - 1) / 26) ≤ fuel)%nat.
Proof.
  intros Hn Hfuel. assert (0 ≤ (n - 1) / 26 ≤ n - 1); [|lia].
  split; [apply Z.div_pos; lia|apply Z.div_le_upper_bound; lia].
Qed.

(** With fuel for [col_num] rounds the loop ends, and what it puts in
    front of [acc] reads as [col_num]. *)
Lemma column_letter_loop_spec fuel n acc :
  (Z.to_nat n ≤ fuel)%nat →
  ∃ s, column_letter_loop fuel n acc = Some (s +:+ acc) ∧
       (0 < n → s ≠ "") ∧ (n ≤ 0 → s = "") ∧
       Forall is_capital (String.list_ascii_of_string s) ∧
       column_number (s +:+ acc)
       = Z.max 0 n * 26 ^ Z.of_nat (String.length acc) + column_number acc.
Proof.
  revert n acc. induction fuel as [|fuel IH]; intros n acc Hfuel.
  - exists "". change ("" +:+ acc) with acc. simpl.
    rewrite bool_decide_eq_false_2 by lia.
    split_and!; first [done | lia | apply Forall_nil | (rewrite Z.max_l by lia; lia)].
  - simpl. case_bool_decide as Hn.
    + destruct (IH ((n - 1) / 26)
                  (String (PyStr.chr ((n - 1) mod 26 + PyStr.ord "A")) acc))
        as (s & Hs & _ & _ & Hcap & Hnum); [by apply next_column_fuel|].
      pose proof (Z.mod_pos_bound (n - 1) 26 ltac:(lia)) as Hmod.
      assert (PyStr.ord "A" = 65) as HA by reflexivity.
      assert (PyStr.ord "Z" = 90) as HZ by reflexivity.
      exists (s +:+ String (PyStr.chr ((n - 1) mod 26 + PyStr.ord "A")) "").
      rewrite string_app_assoc, string_app_cons. change ("" +:+ acc) with acc.
      split_and!.
      * done.
      * intros _. clear. destruct s; done.
      * lia.
      * rewrite list_of_string_app. apply Forall_app. split; [done|]. simpl.
        constructor; [|constructor]. unfold is_capital.
        rewrite ord_chr by lia. lia.
      * rewrite Hnum, column_number_cons, ord_chr by lia.
        assert (0 ≤ (n - 1) / 26) as Hq by (apply Z.div_pos; lia).
        rewrite !Z.max_r by lia.
        simpl String.length.
        replace (Z.of_nat (S (String.length acc))) with (Z.of_nat (String.length acc) + 1)
          by lia.
        rewrite Z.pow_add_r by lia.
        pose proof (Z.div_mod (n - 1) 26 ltac:(lia)). nia.
    + exists "". change ("" +:+ acc) with acc.
      split_and!; first [done | lia | apply Forall_nil | (rewrite Z.max_l by lia; lia)].
Qed.

(** More fuel than needed changes nothing. *)
Lemma column_letter_loop_fuel f1 f2 n acc :
  (Z.to_nat n ≤ f1)%nat → (Z.to_nat n ≤ f2)%nat →
  column_letter_loop f1 n acc = column_letter_loop f2 n acc.
Proof.
  revert f2 n acc. induction f1 as [|f1 IH]; intros f2 n acc H1 H2.
  - destruct f2; simpl; by rewrite !bool_decide_eq_false_2 by lia.
  - simpl. case_bool_decide as Hn.
    + destruct f2 as [|f2]; [lia|]. simpl. rewrite bool_decide_eq_true_2 by done.
      apply IH; by apply next_column_fuel.
    + destruct f2; simpl; by rewrite bool_decide_eq_false_2 by lia.
Qed.

Lemma get_column_letter_spec n :
  ∃ s, get_column_letter n = Some s ∧
       (0 < n → s ≠ "") ∧ (n ≤ 0 → s = "") ∧
       Forall is_capital (String.list_ascii_of_string s) ∧
       column_number s = Z.max 0 n.
Proof.
  destruct (column_letter_loop_spec (Z.to_nat n) n "" (le_n _))
    as (s & Hs & Hne & He & Hcap & Hnum).
  rewrite string_app_nil_r in Hs, Hnum. exists s. split_and!; try done.
  rewrite Hnum. unfold column_number. simpl. lia.
Qed.

End ColumnLetter.

(** X1.  [_get_column_letter] ends for every argument.  For a column
    count of at least one the label has capital letters only and reads
    back as the count it was made from, so different counts get
    different labels; for zero and below it is the empty string. *)
Theorem column_letter_round_trip (col_num : Z) :
  ∃ s, DogtasFastSiparisSorgu.get_column_letter col_num = Some s ∧
       Forall is_capital (String.list_ascii_of_string s) ∧
       column_number s = Z.max 0 col_num ∧
       (s = "" ↔ col_num ≤ 0) ∧
       (∀ fuel, (Z.to_nat col_num ≤ fuel)%nat →
          DogtasFastSiparisSorgu.column_letter_loop fuel col_num "" = Some s) ∧
       (∀ other, 0 < col_num →
          DogtasFastSiparisSorgu.get_column_letter other = Some s → other = col_num).
Proof.
  destruct (get_column_letter_spec col_num) as (s & Hs & Hne & He & Hcap & Hnum).
  exists s. split_and!; try done.
  - split; [|done]. intros ->. destruct (decide (col_num ≤ 0)); [done|].
    exfalso. apply Hne; [lia|done].
  - intros fuel Hfuel. rewrite <-Hs. unfold DogtasFastSiparisSorgu.get_column_letter.
    by apply column_letter_loop_fuel.
  - intros other Hpos Hother.
    destruct (get_column_letter_spec other) as (s' & Hs' & _ & He' & _ & Hnum').
    rewrite Hs' in Hother. injection Hother as ->.
    destruct (decide (0 < other)); [lia|].
    exfalso. apply Hne; [done|]. apply He'. lia.
Qed.

(** ** Orders of the response: one record per combination *)

Section UniqueOrders.
Import BekleyenFast DogtasFastSiparisSorgu.

(** What the loop of lines 272-278 holds after the orders [l]. *)
Lemma unique_orders_loop (l : list order) :
  ∃ unique seen,
    foldl (λ '(unique, seen_combinations) o,
             if decide (combination o ∈ seen_combinations)
             then (unique, seen_combinations)
             else (unique ++ [o], seen_combinations ∪ {[combination o]}))
          ([], ∅ : gset string) l = (unique, seen) ∧
    seen = list_to_set (combination <$> l) ∧
    NoDup (combination <$> unique) ∧
    unique `sublist_of` l ∧
    (∀ o, o ∈ unique →
       ∃ i, list_find (λ x, combination x = combination o) l = Some (i, o)) ∧
    (∀ o, o ∈ l → ∃ o', o' ∈ unique ∧ combination o' = combination o).
Proof.
  induction l as [|x l IH] using rev_ind.
  - exists [], ∅. split_and!; try done.
    + constructor.
    + intros o Ho. by apply elem_of_nil in Ho.
    + intros o Ho. by apply elem_of_nil in Ho.
  - destruct IH as (u & seen & Hfold & Hseen & Hnd & Hsub & Hfirst & Hall).
    rewrite foldl_app. simpl. rewrite Hfold.
    assert (∀ o, o ∈ u → combination o ∈ seen) as Hu.
    { intros o Ho. rewrite Hseen. apply elem_of_list_to_set, list_elem_of_fmap_2.
      by eapply elem_of_sublist. }
    case_decide as Hx.
    + exists u, seen. split_and!; try done.
      * rewrite fmap_app, list_to_set_app_L, <-Hseen. simpl. set_solver.
      * by apply sublist_inserts_r.
      * intros o Ho. destruct (Hfirst o Ho) as [i Hi]. exists i.
        by apply list_find_app_l.
      * intros o [Ho|Ho%list_elem_of_singleton]%elem_of_app; [by apply Hall|]. subst o.
        rewrite Hseen in Hx.
        apply elem_of_list_to_set, list_elem_of_fmap in Hx as (o & Hk & Ho).
        destruct (Hall o Ho) as (o' & Ho' & Hk'). exists o'. split; [done|congruence].
    + exists (u ++ [x]), (seen ∪ {[combination x]}). split_and!; try done.
      * rewrite fmap_app, list_to_set_app_L, <-Hseen. simpl. set_solver.
      * rewrite fmap_app. apply NoDup_app. split_and!; [done| |apply NoDup_singleton].
        simpl. intros k Hk ->%list_elem_of_singleton.
        apply list_elem_of_fmap in Hk as (o & Hko & Ho).
        apply Hx. rewrite Hko. by apply Hu.
      * by apply sublist_app.
      * intros o [Ho|Ho%list_elem_of_singleton]%elem_of_app.
        -- destruct (Hfirst o Ho) as [i Hi]. exists i. by apply list_find_app_l.
        -- subst o. exists (length l).
           rewrite list_find_app_r.
           ++ simpl. rewrite decide_True by done. simpl. done.
           ++ apply list_find_None, Forall_forall. intros o Ho Hk. apply Hx.
              rewrite Hseen, <-Hk. by apply elem_of_list_to_set, list_elem_of_fmap_2.
      * intros o [Ho|Ho%list_elem_of_singleton]%elem_of_app.
        -- destruct (Hall o Ho) as (o' & Ho' & Hk'). exists o'. split; [|done].
           apply elem_of_app. by left.
        -- subst o. exists x. split; [|done]. apply elem_of_app. right.
           by apply list_elem_of_singleton.
Qed.

Lemma unique_orders_spec (l : list order) :
  NoDup (combination <$> unique_orders l) ∧
  unique_orders l `sublist_of` l ∧
  (∀ o, o ∈ unique_orders l →
     ∃ i, list_find (λ x, combination x = combination o) l = Some (i, o)) ∧
  (∀ o, o ∈ l → ∃ o', o' ∈ unique_orders l ∧ combination o' = combination o).
Proof.
  unfold unique_orders.
  destruct (unique_orders_loop l) as (u & seen & -> & _ & Hnd & Hsub & Hfirst & Hall).
  done.
Qed.

Lemma get_orders_unique (data : list order) :
  get_orders data = unique_orders (fetch_orders_for_period data).
Proof. unfold get_orders. by destruct (fetch_orders_for_period data). Qed.

End UniqueOrders.

(** X2.  Of the records of a response, [get_orders] returns those not
    yet invoiced, one for each combination of order and line: the
    first one in the order of the response.  The records come in the
    order of the response, no two of them with the same combination,
    and every combination of a record not yet invoiced is there. *)
Theorem get_orders_first_of_each_combination (data : list BekleyenFast.order) :
  let pending := DogtasFastSiparisSorgu.fetch_orders_for_period data in
  let kept := DogtasFastSiparisSorgu.get_orders data in
  NoDup (DogtasFastSiparisSorgu.combination <$> kept) ∧
  kept `sublist_of` data ∧
  (∀ o, o ∈ pending ↔
        o ∈ data ∧ BekleyenFast.dict_get "purchaseInvoiceDate" o = Some (CStr "00000000")) ∧
  (∀ o, o ∈ kept →
     ∃ i, list_find (λ x, DogtasFastSiparisSorgu.combination x
                          = DogtasFastSiparisSorgu.combination o) pending = Some (i, o)) ∧
  (∀ o, o ∈ pending →
     ∃ o', o' ∈ kept ∧
           DogtasFastSiparisSorgu.combination o' = DogtasFastSiparisSorgu.combination o).
Proof.
  cbv zeta. rewrite get_orders_unique.
  destruct (unique_orders_spec (DogtasFastSiparisSorgu.fetch_orders_for_period data))
    as (Hnd & Hsub & Hfirst & Hall).
  split_and!; try done.
  - etrans; [done|]. apply sublist_filter.
  - intros o. unfold DogtasFastSiparisSorgu.fetch_orders_for_period.
    rewrite list_elem_of_filter.
    destruct (BekleyenFast.dict_get "purchaseInvoiceDate" o) as [v|]; simpl.
    + split; [intros [-> ?]; done|intros [? [= ->]]; done].
    + split; [intros [[=] ?]|intros [? [=]]].
Qed.

(** ** Writing in batches *)

Section Chunks.
Context {A : Type} (B : nat) (l : list A).

Lemma slice_chunk k : PyStr.slice (k * B) (k * B + B) l = take B (drop (k * B) l).
Proof. unfold PyStr.slice. f_equal. lia. Qed.

Lemma length_slice_chunk k :
  length (PyStr.slice (k * B) (k * B + B) l) = (B `min` (length l - k * B))%nat.
Proof. by rewrite slice_chunk, length_firstn, length_drop. Qed.

Lemma join_chunks m :
  mjoin ((λ k, PyStr.slice (k * B) (k * B + B) l) <$> seq 0 m) = take (m * B) l.
Proof.
  induction m as [|m IH]; [done|].
  rewrite seq_S, fmap_app, join_app, IH. simpl.
  rewrite app_nil_r, slice_chunk, take_take_drop. f_equal. lia.
Qed.

Hypothesis B_pos : (0 < B)%nat.

Lemma range_step_last_covers : (length l ≤ (length l + B - 1) / B * B)%nat.
Proof.
  pose proof (Nat.div_mod_eq (length l + B - 1) B) as Hdm.
  pose proof (Nat.mod_upper_bound (length l + B - 1) B ltac:(lia)) as Hmod.
  nia.
Qed.

Lemma range_step_within k : (k < (length l + B - 1) / B)%nat → (k * B < length l)%nat.
Proof.
  intros Hk.
  pose proof (Nat.div_mod_eq (length l + B - 1) B) as Hdm.
  pose proof (Nat.mod_upper_bound (length l + B - 1) B ltac:(lia)) as Hmod.
  nia.
Qed.

End Chunks.

Section Sheets.
Import BekleyenFast DogtasFastSiparisSorgu.

Lemma length_update_A1 values (s : sheet) :
  length (update_A1 values s) = (length values `max` length s)%nat.
Proof.
  revert s. induction values as [|v values IH]; intros [|r s]; simpl; try done.
  by rewrite IH.
Qed.

Lemma take_update_A1_app a b (s : sheet) :
  take (length a) (update_A1 (a ++ b) s) = take (length a) (update_A1 a s).
Proof.
  revert s. induction a as [|v a IH]; intros s; [done|].
  destruct s as [|r s]; simpl.
  - f_equal. by rewrite take_app_length, firstn_all.
  - f_equal. apply IH.
Qed.

Lemma drop_update_A1 a (s : sheet) :
  drop (length a) (update_A1 a s) = drop (length a) s.
Proof.
  revert s. induction a as [|v a IH]; intros s; [done|].
  destruct s as [|r s]; simpl.
  - by rewrite drop_all.
  - apply IH.
Qed.

Lemma drop_update_A1_app a b (s : sheet) :
  drop (length a) (update_A1 (a ++ b) s) = update_A1 b (drop (length a) s).
Proof.
  revert s. induction a as [|v a IH]; intros s; [done|].
  destruct s as [|r s]; simpl.
  - rewrite drop_app_length. by destruct b.
  - apply IH.
Qed.

(** Writing the rows [b] right below the rows [a] is writing [a ++ b]
    at once. *)
Lemma update_range_below a b (s : sheet) :
  update_range (Z.of_nat (length a) + 1) b (update_A1 a s) = update_A1 (a ++ b) s.
Proof.
  unfold update_range.
  replace (Z.to_nat (Z.of_nat (length a) + 1 - 1)) with (length a) by lia.
  rewrite length_update_A1.
  replace (length a - length a `max` length s)%nat with 0%nat by lia. simpl.
  rewrite drop_update_A1, <-(take_update_A1_app a b), <-drop_update_A1_app.
  by rewrite take_drop.
Qed.

Lemma mapM_option_ok {X Y} (g : X → option Y) (h : X → Y) (l : list X) :
  (∀ x, g x = Some (h x)) → mapM g l = Some (h <$> l).
Proof.
  intros Hg. apply mapM_Some, Forall2_fmap_r, Forall_Forall2_diag, Forall_forall.
  intros x _. apply Hg.
Qed.

Lemma batch_calls_eq (df : DataFrame) :
  ∃ col, get_column_letter (Z.of_nat (length (columns df))) = Some col ∧
         column_number col = Z.of_nat (length (columns df)) ∧
         batch_calls df
         = Some (call_of df col
                   <$> seq 0 ((length (Pd.values_tolist df) + batch_size - 1) / batch_size)).
Proof.
  destruct (get_column_letter_spec (Z.of_nat (length (columns df))))
    as (col & Hcol & _ & _ & _ & Hnum).
  exists col. split; [done|]. split; [lia|].
  unfold batch_calls, PyStr.range_step. rewrite Hcol. simpl.
  rewrite (mapM_option_ok _ (λ i, mkCall (Z.of_nat i + 2) col
             (Z.of_nat i + 2
              + Z.of_nat (length (PyStr.slice i (i + batch_size) (Pd.values_tolist df))) - 1)
             (PyStr.slice i (i + batch_size) (Pd.values_tolist df)))) by done.
  by rewrite <-list_fmap_compose.
Qed.

Lemma batch_upload_loop (df : DataFrame) col (ws : sheet) m :
  (m ≤ (length (Pd.values_tolist df) + batch_size - 1) / batch_size)%nat →
  foldl (λ ws c, update_range (start_row c) (batch c) ws)
        (update_A1 [CStr <$> columns df] ws) (call_of df col <$> seq 0 m)
  = update_A1 ((CStr <$> columns df) :: take (m * batch_size) (Pd.values_tolist df)) ws.
Proof.
  assert (0 < batch_size)%nat as HB by (unfold batch_size; lia).
  induction m as [|m IH]; intros Hm; [done|].
  rewrite seq_S, fmap_app, foldl_app, IH by lia.
  cbn [foldl fmap list_fmap Nat.add]. unfold call_of. cbn [start_row batch].
  pose proof (range_step_within batch_size (Pd.values_tolist df) HB m ltac:(lia)) as Hin.
  rewrite slice_chunk.
  replace (Z.of_nat (m * batch_size) + 2)
    with (Z.of_nat (length ((CStr <$> columns df)
                              :: take (m * batch_size) (Pd.values_tolist df))) + 1).
  - rewrite update_range_below. f_equal. rewrite <-app_comm_cons. f_equal.
    rewrite take_take_drop. f_equal. lia.
  - cbn [length]. rewrite length_take_le by lia. lia.
Qed.

End Sheets.

(** X3.  For a frame with a column, [_batch_upload] leaves the
    worksheet as one [update] of the header and all rows at cell A1
    leaves it: the batches follow each other without gap or overlap,
    whatever the number of rows. *)
Theorem batch_upload_is_one_update (worksheet : BekleyenFast.sheet) (df : DataFrame) :
  columns df ≠ [] →
  DogtasFastSiparisSorgu.batch_upload worksheet df
  = Some (BekleyenFast.update_A1 ((CStr <$> columns df) :: Pd.values_tolist df) worksheet).
Proof.
  intros _. unfold DogtasFastSiparisSorgu.batch_upload.
  destruct (batch_calls_eq df) as (col & _ & _ & ->).
  cbv zeta. cbn [mbind option_bind]. f_equal.
  rewrite batch_upload_loop by done. do 2 f_equal.
  apply take_ge, range_step_last_covers. unfold DogtasFastSiparisSorgu.batch_size. lia.
Qed.

Lemma batch_upload_is_one_update_witness :
  DogtasFastSiparisSorgu.batch_upload [] Ornek.yeni_ornek
  = Some (BekleyenFast.update_A1
            ((CStr <$> columns Ornek.yeni_ornek) :: Pd.values_tolist Ornek.yeni_ornek) []).
Proof. apply batch_upload_is_one_update. by_evaluation. Defined.

(** X4.  The calls of [_batch_upload]: the batches, put together, are
    the rows of the frame; each batch has between one and a thousand
    rows and fills its range exactly, from column A to the column
    whose label reads as the number of columns of the frame; the first
    range starts at row 2, each next one at the row after the range
    before, and the last one ends at the last row of the data. *)
Theorem batch_calls_cover_the_rows (df : DataFrame) :
  ∃ calls, DogtasFastSiparisSorgu.batch_calls df = Some calls ∧
    mjoin (DogtasFastSiparisSorgu.batch <$> calls) = Pd.values_tolist df ∧
    Forall (λ c, 1 ≤ Z.of_nat (length (DogtasFastSiparisSorgu.batch c)) ≤ 1000 ∧
                 DogtasFastSiparisSorgu.end_row c - DogtasFastSiparisSorgu.start_row c + 1
                 = Z.of_nat (length (DogtasFastSiparisSorgu.batch c)) ∧
                 column_number (DogtasFastSiparisSorgu.end_col c)
                 = Z.of_nat (length (columns df))) calls ∧
    (∀ c, calls !! 0%nat = Some c → DogtasFastSiparisSorgu.start_row c = 2) ∧
    (∀ j c c', calls !! j = Some c → calls !! S j = Some c' →
       DogtasFastSiparisSorgu.start_row c' = DogtasFastSiparisSorgu.end_row c + 1) ∧
    (∀ c, last calls = Some c →
       DogtasFastSiparisSorgu.end_row c = Z.of_nat (length (Pd.values_tolist df)) + 1).
Proof.
  destruct (batch_calls_eq df) as (col & _ & Hnum & Hcalls).
  assert (0 < DogtasFastSiparisSorgu.batch_size)%nat as HB
    by (unfold DogtasFastSiparisSorgu.batch_size; lia).
  pose proof (range_step_last_covers DogtasFastSiparisSorgu.batch_size
                (Pd.values_tolist df) HB) as Hcov.
  pose proof (range_step_within DogtasFastSiparisSorgu.batch_size
                (Pd.values_tolist df) HB) as Hin.
  remember (length (Pd.values_tolist df)) as n eqn:Hn.
  remember ((n + DogtasFastSiparisSorgu.batch_size - 1)
            / DogtasFastSiparisSorgu.batch_size)%nat as m eqn:Hm.
  assert (∀ j c, (call_of df col <$> seq 0 m) !! j = Some c →
                 (j < m)%nat ∧ c = call_of df col j) as Hlook.
  { intros j c Hj. rewrite list_lookup_fmap in Hj.
    destruct (seq 0 m !! j) as [k|] eqn:Hk; [|done].
    apply lookup_seq in Hk as [-> Hlt]. simpl in Hj. injection Hj as <-. done. }
  assert (∀ j, length (DogtasFastSiparisSorgu.batch (call_of df col j))
               = (DogtasFastSiparisSorgu.batch_size
                    `min` (n - j * DogtasFastSiparisSorgu.batch_size))%nat) as Hlen.
  { intros j. unfold call_of. cbn [DogtasFastSiparisSorgu.batch].
    rewrite length_slice_chunk. by rewrite <-Hn. }
  assert (∀ j, DogtasFastSiparisSorgu.start_row (call_of df col j)
               = Z.of_nat (j * DogtasFastSiparisSorgu.batch_size) + 2) as Hstart by done.
  assert (∀ j, DogtasFastSiparisSorgu.end_row (call_of df col j)
               = Z.of_nat (j * DogtasFastSiparisSorgu.batch_size) + 2
                 + Z.of_nat (length (DogtasFastSiparisSorgu.batch (call_of df col j))) - 1)
    as Hend by done.
  assert (∀ j, DogtasFastSiparisSorgu.end_col (call_of df col j) = col) as Hcol by done.
  exists (call_of df col <$> seq 0 m). split; [exact Hcalls|]. split_and!.
  - rewrite <-list_fmap_compose.
    rewrite (list_fmap_ext _ (λ k, PyStr.slice (k * DogtasFastSiparisSorgu.batch_size)
                                     (k * DogtasFastSiparisSorgu.batch_size
                                      + DogtasFastSiparisSorgu.batch_size)
                                     (Pd.values_tolist df))) by done.
    rewrite join_chunks. apply take_ge. lia.
  - apply Forall_forall. intros c Hc.
    apply list_elem_of_lookup in Hc as [j Hj]. apply Hlook in Hj as [Hj ->].
    specialize (Hin j Hj). rewrite Hend, Hstart, Hcol, Hlen.
    unfold DogtasFastSiparisSorgu.batch_size in *. split_and!; [lia|lia|lia|done].
  - intros c Hc. apply Hlook in Hc as [_ ->]. rewrite Hstart. lia.
  - intros j c c' Hc Hc'. apply Hlook in Hc as [_ ->]. apply Hlook in Hc' as [Hj ->].
    specialize (Hin (S j) Hj). rewrite Hend, !Hstart, Hlen.
    unfold DogtasFastSiparisSorgu.batch_size in *. lia.
  - intros c Hc. apply last_Some in Hc as [l' Hl'].
    assert ((call_of df col <$> seq 0 m) !! length l' = Some c) as Hj
      by (rewrite Hl'; apply list_lookup_middle; done).
    assert (length (call_of df col <$> seq 0 m) = S (length l')) as Hml
      by (rewrite Hl', length_app; simpl; lia).
    rewrite length_fmap, length_seq in Hml.
    apply Hlook in Hj as [Hj ->].
    specialize (Hin _ Hj). rewrite Hend, Hlen.
    unfold DogtasFastSiparisSorgu.batch_size in *. lia.
Qed.

(** ** Settings of the worksheet "Ayar" *)

Section LoadConfig.
Import DogtasFastSiparisSorgu.

Lemma config_fold_lookup ki vi (satirlar : list (list string)) (k : string) :
  foldl (config_satir ki vi) ∅ satirlar !! k
  = if decide (k = "") then None
    else (λ row, hucre row vi)
           <$> last (filter (λ row, (ki `max` vi < length row)%nat ∧ hucre row ki = k)
                            satirlar).
Proof.
  induction satirlar as [|row satirlar IH] using rev_ind.
  - simpl. rewrite lookup_empty. by case_decide.
  - rewrite foldl_app, filter_app, last_app. cbn [foldl].
    rewrite filter_cons, filter_nil. unfold config_satir at 1.
    destruct (decide (ki `max` vi < length row)%nat) as [Hlen|Hlen].
    + cbv zeta. destruct (decide (hucre row ki ≠ "")) as [Hkey|Hkey].
      * destruct (decide (hucre row ki = k)) as [<-|Hne].
        -- rewrite lookup_insert_eq, decide_False by done.
           by rewrite decide_True.
        -- rewrite lookup_insert_ne, IH by done.
           by rewrite (decide_False (P := _ ∧ _)) by tauto.
      * rewrite IH. apply dec_stable in Hkey.
        destruct (decide (k = "")) as [->|Hk]; [done|].
        by rewrite (decide_False (P := _ ∧ _)) by (intros [_ ?]; congruence).
    + rewrite IH. by rewrite (decide_False (P := _ ∧ _)) by tauto.
Qed.

End LoadConfig.

(** X5.  [_load_config] reads the settings by the header names "Key"
    and "Value", wherever these columns stand.  Each setting is the
    value of the last row of the sheet that has its name in the key
    column, blanks around name and value aside; rows too short to
    reach both columns are passed over, and a name without a row gives
    the empty string.  Without one of the two headers, or on an empty
    sheet, every setting is empty. *)
Theorem load_config_last_row_wins (headers : list string) (satirlar : list (list string)) :
  DogtasFastSiparisSorgu.load_config [] = DogtasFastSiparisSorgu.mkAyar "" "" "" [] ∧
  match PyStr.index "Key" headers, PyStr.index "Value" headers with
  | Ok ki, Ok vi =>
      headers !! ki = Some "Key" ∧ headers !! vi = Some "Value" ∧
      (∃ config, DogtasFastSiparisSorgu.config_oku (headers :: satirlar) = Ok config ∧
                 ("" ∉ dom config) ∧
                 ∀ k, k ≠ "" → default "" (config !! k) = ayar_degeri ki vi satirlar k) ∧
      DogtasFastSiparisSorgu.load_config (headers :: satirlar)
      = let get := ayar_degeri ki vi satirlar in
        DogtasFastSiparisSorgu.mkAyar (get "base_url") (get "bekleyenler") (get "CustomerNo")
          [("userName", get "userName"); ("password", get "password");
           ("clientId", get "clientId"); ("clientSecret", get "clientSecret");
           ("applicationCode", get "applicationCode")]
  | _, _ =>
      DogtasFastSiparisSorgu.load_config (headers :: satirlar)
      = DogtasFastSiparisSorgu.mkAyar "" "" "" []
  end.
Proof.
  split; [done|].
  unfold DogtasFastSiparisSorgu.load_config, DogtasFastSiparisSorgu.config_oku, PyStr.index.
  destruct (list_find (λ y, y = "Key") headers) as [[ki x]|] eqn:Hki; [|done].
  destruct (list_find (λ y, y = "Value") headers) as [[vi y]|] eqn:Hvi; [|done].
  apply list_find_Some in Hki as (Hki & -> & _).
  apply list_find_Some in Hvi as (Hvi & -> & _).
  cbn [mbind result_bind].
  assert (∀ k, k ≠ "" →
            default "" (foldl (DogtasFastSiparisSorgu.config_satir ki vi) ∅ satirlar !! k)
            = ayar_degeri ki vi satirlar k) as Hget.
  { intros k Hk. rewrite config_fold_lookup. by rewrite decide_False. }
  split_and!; [done|done| |].
  - eexists. split; [done|]. split; [|done].
    apply not_elem_of_dom. rewrite config_fold_lookup. by rewrite decide_True.
  - cbv zeta. by rewrite !Hget.
Qed.

(** ** The incremental variant, run twice *)

Section Idempotent.
Import BekleyenFast.

Lemma union_columns_step_old (acc l : list string) :
  (∀ c, c ∈ l → c ∈ acc) →
  foldl (λ acc c, if decide (c ∈ acc) then acc else acc ++ [c]) acc l = acc.
Proof.
  induction l as [|c l IH]; intros Hl; [done|]. simpl.
  rewrite decide_True by (apply Hl; by left).
  apply IH. intros c' Hc'. apply Hl. by right.
Qed.

Lemma union_columns_step_new (acc l : list string) :
  NoDup (acc ++ l) →
  foldl (λ acc c, if decide (c ∈ acc) then acc else acc ++ [c]) acc l = acc ++ l.
Proof.
  revert acc. induction l as [|c l IH]; intros acc Hnd; [by rewrite app_nil_r|]. simpl.
  apply NoDup_app in Hnd as Hnd'. destruct Hnd' as (_ & Hdis & _).
  rewrite decide_False by (intros Hc; apply (Hdis c Hc); by left).
  rewrite IH; [by rewrite <-app_assoc|]. by rewrite <-app_assoc.
Qed.

(** Records with the same keys make a frame with these columns. *)
Lemma records_columns_uniform (cols : list string) (rs : list order) :
  NoDup cols → rs ≠ [] → Forall (λ o, o.*1 = cols) rs → records_columns rs = cols.
Proof.
  intros Hnd Hne Hrs. destruct rs as [|o rs]; [done|].
  apply Forall_cons in Hrs as [Ho Hrs].
  unfold records_columns, Pandas.union_columns. simpl. rewrite Ho, foldl_app.
  rewrite (union_columns_step_new [] cols) by done. simpl.
  apply union_columns_step_old. intros c Hc.
  apply list_elem_of_join in Hc as (ks & Hc & Hks).
  apply list_elem_of_fmap in Hks as (o' & -> & Ho').
  rewrite Forall_forall in Hrs. by rewrite (Hrs o' Ho') in Hc.
Qed.

Lemma overlay_row_lookup (new old : list cell) i :
  (i < length new)%nat → overlay_row new old !! i = new !! i.
Proof.
  revert old i. induction new as [|v new IH]; intros old i Hi; [simpl in Hi; lia|].
  destruct old as [|w old]; [done|]. destruct i as [|i]; [done|].
  simpl. apply IH. simpl in Hi. lia.
Qed.

Lemma overlay_row_same (r : list cell) : overlay_row r r = r.
Proof. induction r as [|v r IH]; [done|]. simpl. by rewrite IH. Qed.

(** A row written is on the sheet, in front of what the sheet had
    there to its right. *)
Lemma update_A1_row (values : list (list cell)) (s : sheet) v :
  v ∈ values →
  ∃ r, r ∈ update_A1 values s ∧ ∀ i, (i < length v)%nat → r !! i = v !! i.
Proof.
  revert s. induction values as [|w values IH]; intros s Hv; [by apply elem_of_nil in Hv|].
  apply elem_of_cons in Hv as [->|Hv].
  - destruct s as [|r0 s]; simpl.
    + exists w. split; [by left|done].
    + exists (overlay_row w r0). split; [by left|]. intros i Hi. by apply overlay_row_lookup.
  - destruct s as [|r0 s]; simpl.
    + exists v. split; [by right|done].
    + destruct (IH s Hv) as (r & Hr & Hlook). exists r. split; [by right|done].
Qed.

Lemma max_list_constant (n : nat) (l : list nat) :
  l ≠ [] → Forall (λ x, x = n) l → max_list l = n.
Proof.
  intros Hne Hall. destruct l as [|x l]; [done|]. clear Hne.
  apply Forall_cons in Hall as [-> Hall]. simpl.
  induction Hall as [|y l -> _ IH]; simpl in *; lia.
Qed.

Lemma overlay_row_length (new old : list cell) :
  length (overlay_row new old) = (length new `max` length old)%nat.
Proof.
  revert old. induction new as [|v new IH]; intros old; [done|].
  destruct old as [|w old]; [cbn [overlay_row length]; lia|].
  cbn [overlay_row length]. rewrite IH. lia.
Qed.

Lemma update_A1_rectangular (n : nat) (values : list (list cell)) (s : sheet) :
  Forall (λ r, length r = n) values → Forall (λ r, length r = n) s →
  Forall (λ r, length r = n) (update_A1 values s).
Proof.
  intros Hv. revert s. induction Hv as [|v values Hlen Hv IH]; intros s Hs; [done|].
  destruct s as [|r s]; [by constructor|].
  apply Forall_cons in Hs as [Hr Hs]. cbn [update_A1]. constructor; [|by apply IH].
  rewrite overlay_row_length. lia.
Qed.

Lemma records_values_rectangular (rs : list order) :
  Forall (λ r, length r = length (records_columns rs)) (records_values rs).
Proof.
  unfold records_values. apply Forall_fmap, Forall_forall. intros o _.
  unfold compose. by rewrite length_fmap.
Qed.

(** The keys of a sheet with a header of distinct names and rows as
    long as the header. *)
Lemma existing_of_table (cols : list string) (data : list (list cell)) :
  NoDup cols → "BagKoduBekleyen" ∈ cols →
  Forall (λ r, length r = length cols) data →
  ∃ i, cols !! i = Some "BagKoduBekleyen" ∧
       get_existing_data ((CStr <$> cols) :: data)
       = list_to_set (py_str <$> filter (λ v, v ≠ CNaN)
                                   ((λ r : list cell, default CNaN (r !! i)) <$> data)).
Proof.
  intros Hnd Hin Hrect. unfold get_existing_data.
  rewrite bool_decide_eq_false_2.
  2:{ intros [Hne Hmax]. apply Hmax. rewrite length_fmap.
      apply max_list_constant; [by destruct data|]. by apply Forall_fmap. }
  destruct (list_find (λ h, h = CStr "BagKoduBekleyen") (CStr <$> cols)) as [[i x]|] eqn:Hf.
  - apply list_find_Some in Hf as (Hi & -> & _).
    rewrite bool_decide_eq_true_2.
    2:{ apply Nat.le_antisymm.
        - apply count_NoDup. apply NoDup_fmap_2_strong; [|done]. by intros x y _ _ [= ->].
        - apply count_pos. by apply list_elem_of_fmap_2. }
    rewrite list_lookup_fmap in Hi. exists i. split; [|done].
    destruct (cols !! i) as [c|]; [|done]. simpl in Hi. by injection Hi as ->.
  - exfalso. apply list_find_None in Hf. rewrite Forall_forall in Hf.
    apply (Hf (CStr "BagKoduBekleyen")); [|done]. by apply list_elem_of_fmap_2.
Qed.

Lemma existing_elem (data : list (list cell)) i (r : list cell) k :
  r ∈ data → r !! i = Some (CStr k) →
  k ∈@{gset string}
    list_to_set (py_str <$> filter (λ v, v ≠ CNaN)
                              ((λ r : list cell, default CNaN (r !! i)) <$> data)).
Proof.
  intros Hr Hk. apply elem_of_list_to_set, list_elem_of_fmap.
  exists (CStr k). split; [done|]. apply list_elem_of_filter. split; [done|].
  apply list_elem_of_fmap. exists r. by rewrite Hk.
Qed.

Lemma records_values_row (cols : list string) (rs : list order) o i k :
  records_columns rs = cols → o ∈ rs →
  cols !! i = Some "BagKoduBekleyen" →
  dict_get "BagKoduBekleyen" o = Some (CStr k) →
  ∃ v, v ∈ records_values rs ∧ (i < length v)%nat ∧ v !! i = Some (CStr k).
Proof.
  intros Hcols Ho Hi Hk.
  exists ((λ c, default CNaN (dict_get c o)) <$> cols). split_and!.
  - unfold records_values. rewrite Hcols.
    by apply (list_elem_of_fmap_2 (λ r : order, (λ c, default CNaN (dict_get c r)) <$> cols)).
  - rewrite length_fmap. by eapply lookup_lt_Some.
  - by rewrite list_lookup_fmap, Hi; simpl; rewrite Hk.
Qed.

End Idempotent.

(** X6.  Saving the same orders a second time changes nothing.  For
    processed orders that all have the columns of one frame, among them
    a string "BagKoduBekleyen", and a worksheet that is blank or has
    exactly these columns as its header row and rows as long as the
    header: after [save_to_sheets] every key of the orders is on the
    sheet, and [save_to_sheets] on the result appends no row and writes
    no cell. *)
Theorem save_to_sheets_twice (processed : list BekleyenFast.order)
    (cols : list string) (s : BekleyenFast.sheet) :
  NoDup cols → "BagKoduBekleyen" ∈ cols →
  Forall (λ o, o.*1 = cols ∧
               ∃ k, BekleyenFast.dict_get "BagKoduBekleyen" o = Some (CStr k)) processed →
  s = [] ∨ (head s = Some (CStr <$> cols) ∧ Forall (λ r, length r = length cols) s) →
  (∀ o, o ∈ processed →
     BekleyenFast.bag_kodu o
       ∈ BekleyenFast.get_existing_data (BekleyenFast.save_to_sheets processed s)) ∧
  BekleyenFast.save_to_sheets processed (BekleyenFast.save_to_sheets processed s)
  = BekleyenFast.save_to_sheets processed s.
Proof.
  intros Hnd Hbag Hrec Hs.
  assert (∀ o, o ∈ processed → ∃ k, BekleyenFast.dict_get "BagKoduBekleyen" o = Some (CStr k)
                                     ∧ BekleyenFast.bag_kodu o = k) as Hkey.
  { intros o Ho. rewrite Forall_forall in Hrec. destruct (Hrec o Ho) as (_ & k & Hk).
    exists k. split; [done|]. unfold BekleyenFast.bag_kodu. by rewrite Hk. }
  assert (Forall (λ o : BekleyenFast.order, o.*1 = cols) processed) as Hcols
    by (eapply Forall_impl; [exact Hrec|]; by intros o [? _]).
  assert (∀ rs, rs ≠ [] → Forall (λ o : BekleyenFast.order, o.*1 = cols) rs →
            Forall (λ r, length r = length cols) (BekleyenFast.records_values rs)) as Hvals.
  { intros rs Hne Hrs. pose proof (records_values_rectangular rs) as Hrv.
    by rewrite (records_columns_uniform cols rs Hnd Hne Hrs) in Hrv. }
  (* every key of the orders is on the sheet afterwards *)
  assert (∀ o, o ∈ processed →
            BekleyenFast.bag_kodu o
              ∈ BekleyenFast.get_existing_data (BekleyenFast.save_to_sheets processed s))
    as Hafter.
  { intros o Ho.
    assert (processed ≠ []) as Hne by (intros ->; by apply elem_of_nil in Ho).
    destruct (decide (BekleyenFast.get_existing_data s = ∅)) as [He|He].
    - (* first write: header and all rows from A1 on *)
      rewrite save_to_sheets_first_write by done.
      rewrite (records_columns_uniform cols) by done.
      destruct (Hkey o Ho) as (k & Hk & ->).
      destruct (existing_of_table cols [] Hnd Hbag ltac:(done)) as (i & Hi & _).
      destruct (records_values_row cols processed o i k) as (v & Hv & Hlen & Hvi);
        [by apply records_columns_uniform|done..|].
      assert (∃ data, BekleyenFast.update_A1
                        ((CStr <$> cols) :: BekleyenFast.records_values processed) s
                      = (CStr <$> cols) :: data ∧
                      Forall (λ r, length r = length cols) data ∧
                      ∃ r, r ∈ data ∧ r !! i = Some (CStr k))
        as (data & -> & Hrect & r & Hr & Hri).
      { destruct Hs as [->|[Hs Hsr]].
        - eexists. split; [done|]. split; [by apply Hvals|]. by exists v.
        - destruct s as [|h s]; [done|]. injection Hs as ->. simpl.
          apply Forall_cons in Hsr as [_ Hsr].
          rewrite overlay_row_same. eexists. split; [done|].
          split; [apply update_A1_rectangular; [by apply Hvals|done]|].
          destruct (update_A1_row (BekleyenFast.records_values processed) s v Hv)
            as (r & Hr & Hlook).
          exists r. split; [done|]. by rewrite Hlook. }
      destruct (existing_of_table cols data Hnd Hbag Hrect) as (i' & Hi' & ->).
      assert (i' = i) as -> by (by eapply NoDup_lookup).
      by eapply existing_elem.
    - (* append below the table *)
      rewrite save_to_sheets_append by done.
      destruct Hs as [->|[Hs Hsr]]; [done|].
      destruct s as [|h data]; [done|]. injection Hs as ->.
      apply Forall_cons in Hsr as [_ Hsr].
      rewrite <-app_comm_cons.
      destruct (existing_of_table cols data Hnd Hbag Hsr) as (i & Hi & Hold).
      assert (Forall (λ o : BekleyenFast.order, o.*1 = cols)
                (BekleyenFast.filter_new_records processed
                   (BekleyenFast.get_existing_data ((CStr <$> cols) :: data)))) as Hfc.
      { rewrite filter_new_records_filter. apply Forall_forall.
        intros o' [_ Ho']%list_elem_of_filter.
        by apply (proj1 (Forall_forall _ _) Hcols). }
      destruct (decide (BekleyenFast.bag_kodu o
                          ∈ BekleyenFast.get_existing_data ((CStr <$> cols) :: data)))
        as [Hold_k|Hnew_k].
      + destruct (decide (BekleyenFast.filter_new_records processed
                            (BekleyenFast.get_existing_data ((CStr <$> cols) :: data)) = []))
          as [Hnil|Hnn].
        * rewrite Hnil. cbn. by rewrite app_nil_r.
        * destruct (existing_of_table cols
                      (data ++ BekleyenFast.records_values
                                 (BekleyenFast.filter_new_records processed
                                    (BekleyenFast.get_existing_data ((CStr <$> cols) :: data))))
                      Hnd Hbag) as (i' & Hi' & ->).
          { apply Forall_app. split; [done|]. by apply Hvals. }
          assert (i' = i) as -> by (by eapply NoDup_lookup).
          rewrite Hold in Hold_k.
          rewrite fmap_app, filter_app, fmap_app, list_to_set_app_L.
          apply elem_of_union. by left.
      + assert (o ∈ BekleyenFast.filter_new_records processed
                      (BekleyenFast.get_existing_data ((CStr <$> cols) :: data))) as Hon
          by (rewrite filter_new_records_filter; by apply list_elem_of_filter).
        assert (BekleyenFast.filter_new_records processed
                  (BekleyenFast.get_existing_data ((CStr <$> cols) :: data)) ≠ []) as Hnn
          by (intros Hnil; rewrite Hnil in Hon; by apply elem_of_nil in Hon).
        destruct (existing_of_table cols
                    (data ++ BekleyenFast.records_values
                               (BekleyenFast.filter_new_records processed
                                  (BekleyenFast.get_existing_data ((CStr <$> cols) :: data))))
                    Hnd Hbag) as (i' & Hi' & ->).
        { apply Forall_app. split; [done|]. by apply Hvals. }
        assert (i' = i) as -> by (by eapply NoDup_lookup).
        destruct (Hkey o Ho) as (k & Hk & Hbk). rewrite Hbk.
        destruct (records_values_row cols _ o i k
                    (records_columns_uniform cols _ Hnd Hnn Hfc) Hon Hi Hk)
          as (v & Hv & _ & Hvi).
        apply (existing_elem _ i v k); [|done]. apply elem_of_app. by right. }
  split; [exact Hafter|].
  destruct processed as [|o0 l]; [done|].
  set (s' := BekleyenFast.save_to_sheets (o0 :: l) s) in *.
  assert (BekleyenFast.get_existing_data s' ≠ ∅) as Hne'.
  { intros He. specialize (Hafter o0 ltac:(by left)). rewrite He in Hafter.
    by apply not_elem_of_empty in Hafter. }
  rewrite save_to_sheets_append by done.
  rewrite filter_new_records_filter, filter_none; [by rewrite app_nil_r|].
  intros o Ho Hno. by apply Hno, Hafter.
Qed.

Lemma save_to_sheets_twice_witness :
  BekleyenFast.save_to_sheets OrnekEk.islenmis (BekleyenFast.save_to_sheets OrnekEk.islenmis [])
  = BekleyenFast.save_to_sheets OrnekEk.islenmis [].
Proof.
  apply (save_to_sheets_twice OrnekEk.islenmis ["BagKoduBekleyen"; "Miktar"] []).
  - by_evaluation.
  - by_evaluation.
  - repeat constructor; eexists; reflexivity.
  - by left.
Defined.

(** ** The upsert merger: every path *)

Section Paths.
Import Pandas SSH.

Lemma keys_of_check yeni mevcut :
  bool_decide (Exists (λ sutun, sutun ∉ columns yeni ∨ sutun ∉ columns mevcut)
                      anahtar_sutunlar) = false →
  has_keys yeni ∧ has_keys mevcut.
Proof.
  intros Hc%bool_decide_eq_false. unfold has_keys.
  split; apply Forall_forall; intros c Hc';
    destruct (decide (c ∈ columns yeni)) as [Hy|Hy];
    destruct (decide (c ∈ columns mevcut)) as [Hm|Hm]; try done;
    exfalso; apply Hc, Exists_exists; exists c; tauto.
Qed.

(** The three ways the merger ends: the fallback on the new table as
    it came, the handler on a new table without rows, and the merge
    itself. *)
Lemma verileri_birlestir_paths yeni mevcut :
  verileri_birlestir yeni mevcut = sort_values_desc servis_bakim_id yeni
  ∨ (has_keys yeni ∧ rows yeni = [] ∧
     verileri_birlestir yeni mevcut = Ok {| columns := columns yeni; rows := [] |})
  ∨ (has_keys yeni ∧ has_keys mevcut ∧ rows yeni ≠ [] ∧ rows mevcut ≠ [] ∧
     verileri_birlestir yeni mevcut = Ok (sonuc yeni mevcut)).
Proof.
  destruct (empty mevcut) eqn:He.
  { left. unfold verileri_birlestir. by rewrite He. }
  destruct (bool_decide (Exists (λ sutun, sutun ∉ columns yeni ∨ sutun ∉ columns mevcut)
                                anahtar_sutunlar)) eqn:Hc.
  { left. unfold verileri_birlestir. by rewrite He, Hc. }
  apply keys_of_check in Hc as [Hy Hm].
  assert (rows mevcut ≠ []) as Hrm.
  { intros Hnil. unfold empty in He. apply bool_decide_eq_false in He. apply He. by right. }
  destruct (decide (rows yeni = [])) as [Hry|Hry].
  - right. left. split_and!; [done..|]. by apply verileri_birlestir_empty_new.
  - right. right. split_and!; [done..|]. by apply verileri_birlestir_sonuc.
Qed.

Lemma row_desc_total c : Total (row_desc c).
Proof.
  intros r1 r2. unfold row_desc, cell_desc.
  destruct (cell_of r1 c) as [x|], (cell_of r2 c) as [y|]; try tauto.
  unfold String.le. destruct (String.leb_total x y) as [H|H]; [right|left]; by rewrite H.
Qed.

Lemma sort_values_desc_sorted c df out :
  sort_values_desc c df = Ok out →
  Sorted (row_desc c) (rows out) ∧ columns out = columns df ∧ rows out ≡ₚ rows df.
Proof.
  unfold sort_values_desc. case_decide; [|done]. intros [= <-]. simpl.
  split_and!; [|done|apply merge_sort_Permutation].
  apply Sorted_merge_sort, row_desc_total.
Qed.

Lemma filter_or_disjoint {A} (P Q : A → Prop) `{!∀ x, Decision (P x), !∀ x, Decision (Q x)}
    (l : list A) :
  (∀ x, P x → Q x → False) →
  filter P l ++ filter Q l ≡ₚ filter (λ x, P x ∨ Q x) l.
Proof.
  intros Hdis. induction l as [|x l IH]; [done|].
  rewrite !filter_cons.
  destruct (decide (P x)) as [HP|HP], (decide (Q x)) as [HQ|HQ].
  - by destruct (Hdis x).
  - rewrite decide_True by tauto. simpl. by rewrite IH.
  - rewrite decide_True by tauto. rewrite <-Permutation_middle. by rewrite IH.
  - rewrite decide_False by tauto. done.
Qed.

Lemma bind_filter_keys {K} `{!EqDecision K} (ks l : list K) :
  NoDup ks → ks ≫= (λ k, filter (λ x, x = k) l) ≡ₚ filter (λ x, x ∈ ks) l.
Proof.
  induction ks as [|k ks IH]; intros Hnd.
  - simpl. rewrite filter_none; [done|]. intros x _ Hx. by apply elem_of_nil in Hx.
  - apply NoDup_cons in Hnd as [Hk Hnd]. rewrite bind_cons, IH by done.
    rewrite filter_or_disjoint by (intros x -> ?; done).
    erewrite filter_ext_in; [done|]. intros x _. simpl. rewrite elem_of_cons. done.
Qed.

(** The composite keys of the merged table, without any assumption on
    how often a key occurs. *)
Lemma sonuc_keys_all yeni mevcut :
  has_keys yeni → has_keys mevcut → rows yeni ≠ [] → rows mevcut ≠ [] →
  df_keys (sonuc yeni mevcut)
  ≡ₚ df_keys yeni ++ filter (λ k, k ∉ df_keys yeni) (df_keys mevcut).
Proof.
  intros Hy Hm Hry Hrm. rewrite sonuc_keys by done.
  unfold guncelleme_anahtarlari, ekleme_anahtarlari, saklama_anahtarlari.
  rewrite !anahtarlar_keyed_keys.
  rewrite bind_filter_keys by apply NoDup_elements.
  rewrite app_assoc. apply Permutation_app.
  - rewrite (filter_ext_in (λ k, k ∈ list_to_set (df_keys yeni) ∖ list_to_set (df_keys mevcut))
               (λ k, ¬ k ∈ elements (list_to_set (df_keys mevcut) ∩ list_to_set (df_keys yeni)
                                      : gset string))).
    + apply filter_app_complement.
    + intros k Hk. rewrite elem_of_elements, elem_of_difference, elem_of_intersection,
        !elem_of_list_to_set. tauto.
  - erewrite filter_ext_in; [done|]. intros k Hk. simpl.
    rewrite elem_of_difference, !elem_of_list_to_set. tauto.
Qed.

End Paths.

Lemma verileri_birlestir_returns yeni mevcut :
  SSH.servis_bakim_id ∈ columns yeni → ∃ out, SSH.verileri_birlestir yeni mevcut = Ok out.
Proof.
  intros Hc.
  destruct (verileri_birlestir_paths yeni mevcut)
    as [Hp|[(_ & _ & Hp)|(_ & _ & _ & _ & Hp)]]; [|by eexists..].
  rewrite Hp. destruct (sort_values_desc_spec SSH.servis_bakim_id yeni) as [Hok _].
  destruct (Hok Hc) as (out & -> & _). by exists out.
Qed.

Lemma verileri_birlestir_raises yeni mevcut :
  SSH.servis_bakim_id ∉ columns yeni →
  SSH.verileri_birlestir yeni mevcut = Raise (KeyError SSH.servis_bakim_id).
Proof.
  intros Hn.
  destruct (verileri_birlestir_paths yeni mevcut)
    as [Hp|[(Hy & _ & Hp)|(Hy & _ & _ & _ & Hp)]].
  - rewrite Hp. by apply sort_values_desc_spec.
  - by apply has_keys_servis in Hy.
  - by apply has_keys_servis in Hy.
Qed.

(** X7.  [verileri_birlestir] raises exactly when the new table has no
    column "Servis Bakım ID", and then it is the KeyError of that
    column; with the column it returns a table, whatever else the two
    tables hold. *)
Theorem verileri_birlestir_raises_iff (yeni mevcut : DataFrame) :
  (SSH.servis_bakim_id ∈ columns yeni → ∃ out, SSH.verileri_birlestir yeni mevcut = Ok out) ∧
  (SSH.servis_bakim_id ∉ columns yeni →
     SSH.verileri_birlestir yeni mevcut = Raise (KeyError SSH.servis_bakim_id)).
Proof.
  split; [apply verileri_birlestir_returns|apply verileri_birlestir_raises].
Qed.

(** X8.  Whenever [verileri_birlestir] returns, the rows of the result
    are in descending order of "Servis Bakım ID", compared as strings,
    rows without a value last; and the result has that column. *)
Theorem verileri_birlestir_sorted (yeni mevcut out : DataFrame) :
  SSH.verileri_birlestir yeni mevcut = Ok out →
  Sorted (Pandas.row_desc SSH.servis_bakim_id) (rows out) ∧
  SSH.servis_bakim_id ∈ columns out.
Proof.
  intros Hout.
  destruct (verileri_birlestir_paths yeni mevcut)
    as [Hp|[(Hy & _ & Hp)|(Hy & Hm & Hry & Hrm & Hp)]]; rewrite Hp in Hout.
  - pose proof Hout as (Hs & Hc & _)%sort_values_desc_sorted. split; [done|].
    rewrite Hc. unfold Pandas.sort_values_desc in Hout. by case_decide.
  - injection Hout as <-. simpl. split; [constructor|by apply has_keys_servis].
  - injection Hout as <-. split.
    + unfold sonuc. simpl. apply Sorted_merge_sort, row_desc_total.
    + apply sonuc_columns. split; [by_evaluation|].
      apply sutunlar_keys; [done..|]. apply servis_bakim_id_key.
Qed.

Lemma verileri_birlestir_sorted_witness :
  ∃ out, SSH.verileri_birlestir Ornek.yeni_ornek Ornek.mevcut_ornek = Ok out ∧
         Sorted (Pandas.row_desc SSH.servis_bakim_id) (rows out).
Proof.
  destruct (verileri_birlestir_returns Ornek.yeni_ornek Ornek.mevcut_ornek) as [out Hout];
    [by_evaluation|].
  exists out. split; [assumption|].
  apply (verileri_birlestir_sorted Ornek.yeni_ornek Ornek.mevcut_ornek out Hout).
Defined.

(** X9.  The helper column "_birlestirme_anahtari" does not reach the
    result: a new table that comes without it gives a result without
    it, on every path of the merger, and every column of the result is
    a column of the new or of the old table. *)
Theorem verileri_birlestir_no_helper_column (yeni mevcut out : DataFrame) :
  SSH.birlestirme_anahtari ∉ columns yeni →
  SSH.verileri_birlestir yeni mevcut = Ok out →
  (SSH.birlestirme_anahtari ∉ columns out) ∧
  ∀ c, c ∈ columns out → c ∈ columns yeni ∨ c ∈ columns mevcut.
Proof.
  intros Hno Hout.
  destruct (verileri_birlestir_paths yeni mevcut)
    as [Hp|[(Hy & _ & Hp)|(Hy & Hm & Hry & Hrm & Hp)]]; rewrite Hp in Hout.
  - apply sort_values_desc_sorted in Hout as (_ & Hc & _). rewrite Hc. split; [done|]. tauto.
  - injection Hout as <-. simpl. split; [done|]. tauto.
  - injection Hout as <-. split.
    + intros [Hne _]%sonuc_columns; done.
    + intros c [Hne Hc]%sonuc_columns.
      apply elem_of_union_columns, list_elem_of_join in Hc as (cs & Hc & Hcs).
      apply list_elem_of_fmap in Hcs as (d & -> & Hd).
      apply (liste_columns (keyed yeni) (keyed mevcut)) in Hd.
      destruct Hd as [Hd|Hd]; rewrite Hd, columns_keyed in Hc by done;
        case_decide; try tauto;
        apply elem_of_app in Hc as [Hc|Hc%list_elem_of_singleton]; tauto.
Qed.

Lemma verileri_birlestir_no_helper_column_witness :
  ∃ out, SSH.verileri_birlestir Ornek.yeni_ornek Ornek.mevcut_ornek = Ok out ∧
         (SSH.birlestirme_anahtari ∉ columns out).
Proof.
  destruct (verileri_birlestir_returns Ornek.yeni_ornek Ornek.mevcut_ornek) as [out Hout];
    [by_evaluation|].
  exists out. split; [assumption|].
  apply (verileri_birlestir_no_helper_column Ornek.yeni_ornek Ornek.mevcut_ornek out);
    [by_evaluation|assumption].
Defined.

(** X10.  Without any assumption on how often a key occurs: for tables
    with the key columns and rows on both sides, the records of the
    result are, key by key, all records of the new table and those
    records of the old table whose key the new table does not have.
    No new record is dropped, and an old record is dropped exactly
    when a new record has its key. *)
Theorem verileri_birlestir_keys_all (yeni mevcut : DataFrame) :
  has_keys yeni → has_keys mevcut → rows yeni ≠ [] → rows mevcut ≠ [] →
  ∃ out, SSH.verileri_birlestir yeni mevcut = Ok out ∧
    df_keys out ≡ₚ df_keys yeni ++ filter (λ k, k ∉ df_keys yeni) (df_keys mevcut) ∧
    length (rows out)
    = (length (rows yeni)
       + length (filter (λ r, kayit_anahtari r ∉ df_keys yeni) (rows mevcut)))%nat.
Proof.
  intros Hy Hm Hry Hrm. exists (sonuc yeni mevcut).
  split; [by apply verileri_birlestir_sonuc|].
  pose proof (sonuc_keys_all yeni mevcut Hy Hm Hry Hrm) as Hperm.
  split; [done|].
  apply Permutation_length in Hperm.
  change (df_keys mevcut) with (kayit_anahtari <$> rows mevcut) in Hperm.
  rewrite <-(fmap_filter_key kayit_anahtari (λ k, k ∉ df_keys yeni)) in Hperm.
  unfold df_keys in Hperm at 1 2.
  by rewrite length_app, !length_fmap in Hperm.
Qed.

Lemma verileri_birlestir_keys_all_witness :
  ∃ out, SSH.verileri_birlestir Ornek.yeni_ornek Ornek.mevcut_ornek = Ok out ∧
         length (rows out) = 3%nat.
Proof.
  destruct (verileri_birlestir_keys_all Ornek.yeni_ornek Ornek.mevcut_ornek)
    as (out & Hout & _ & Hlen); [by_evaluation..|].
  exists out. split; [assumption|].
  rewrite Hlen. by vm_compute.
Defined.

(** ** Reading the sheet "Ssh" *)

Section NumberText.

Lemma startswith_other a (p s : string) b :
  a ≠ b → PyStr.startswith (String b p) (String a s) = false.
Proof.
  intros Hne. cbn [PyStr.startswith]. by rewrite bool_decide_eq_false_2 by congruence.
Qed.

Lemma has_char_cons a b s : has_char a (String b s) ↔ a = b ∨ has_char a s.
Proof. unfold has_char. simpl. apply elem_of_cons. Qed.

Lemma replace_without_dot (d t : string) :
  ¬ has_char "." d →
  PyStr.replace_from 0 ".0" "" (d +:+ t) = d +:+ PyStr.replace_from 0 ".0" "" t.
Proof.
  induction d as [|a d IH]; intros Hd; [done|].
  rewrite has_char_cons in Hd. rewrite !string_app_cons.
  cbn [PyStr.replace_from]. rewrite startswith_other by (intros ->; tauto).
  rewrite IH by tauto. done.
Qed.

Lemma endswith_app (p d : string) : PyStr.endswith p (d +:+ p) = true.
Proof.
  induction d as [|a d IH].
  - change ("" +:+ p) with p. destruct p; cbn [PyStr.endswith]; by rewrite bool_decide_eq_true_2.
  - rewrite string_app_cons. cbn [PyStr.endswith]. rewrite IH. apply orb_true_r.
Qed.

Lemma endswith_without_dot (d : string) :
  ¬ has_char "." d → PyStr.endswith ".0" d = false.
Proof.
  induction d as [|a d IH]; intros Hd; [done|].
  rewrite has_char_cons in Hd. cbn [PyStr.endswith]. rewrite IH by tauto.
  rewrite bool_decide_eq_false_2; [done|]. intros [= -> _]. tauto.
Qed.

End NumberText.

(** X11.  The clean-up of the number columns of the sheet takes the
    ending ".0" off the text of a whole number and leaves a text
    without point as it is.  It removes every ".0" of a text that ends
    in ".0", not the last one only: "10.05.0" becomes "105". *)
Theorem sayisal_temizle_whole_numbers (d : string) :
  ¬ has_char "." d →
  GoogleSheetsManager.sayisal_temizle (d +:+ ".0") = d ∧
  GoogleSheetsManager.sayisal_temizle d = d ∧
  GoogleSheetsManager.sayisal_temizle "10.05.0" = "105".
Proof.
  intros Hd. unfold GoogleSheetsManager.sayisal_temizle. split_and!.
  - rewrite endswith_app. unfold PyStr.replace.
    rewrite replace_without_dot by done. simpl. apply string_app_nil_r.
  - by rewrite endswith_without_dot.
  - by vm_compute.
Qed.

Lemma sayisal_temizle_whole_numbers_witness :
  GoogleSheetsManager.sayisal_temizle "405.0" = "405".
Proof.
  apply (sayisal_temizle_whole_numbers "405"). unfold has_char. by_evaluation.
Defined.

Section ReadSheet.
Import Pandas SSH GoogleSheetsManager.

Lemma zip_row_lookup (cols : list string) (vals : list cell) i c v :
  NoDup cols → cols !! i = Some c → vals !! i = Some v →
  (list_to_map (zip cols vals) : row) !! c = Some v.
Proof.
  revert vals i. induction cols as [|c0 cols IH]; intros vals i Hnd Hc Hv; [done|].
  destruct vals as [|v0 vals]; [done|]. apply NoDup_cons in Hnd as [Hc0 Hnd].
  destruct i as [|i]; simpl in *.
  - injection Hc as ->. injection Hv as ->. apply lookup_insert_eq.
  - rewrite lookup_insert_ne; [by eapply IH|].
    intros ->. apply Hc0. by eapply list_elem_of_lookup_2.
Qed.

Lemma zip_row_dom (cols : list string) (vals : list cell) :
  length vals = length cols →
  dom (list_to_map (zip cols vals) : row) = list_to_set cols.
Proof.
  revert vals. induction cols as [|c0 cols IH]; intros vals Hlen.
  - simpl. apply dom_empty_L.
  - destruct vals as [|v0 vals]; [done|]. simpl in *.
    rewrite dom_insert_L, IH by lia. done.
Qed.

(** The loop over the number columns touches the columns the frame
    has. *)
Lemma temizle_loop_filter (g : string → row → cell) (cs : list string) (df : DataFrame) :
  foldl (λ df col, if decide (col ∈ columns df) then set_column col (g col) df else df) df cs
  = foldl (λ df col, set_column col (g col) df) df (filter (λ c, c ∈ columns df) cs).
Proof.
  revert df. induction cs as [|c cs IH]; intros df; [done|].
  simpl. rewrite filter_cons. destruct (decide (c ∈ columns df)) as [Hc|Hc].
  - simpl. rewrite IH. simpl. by rewrite decide_True.
  - apply IH.
Qed.

Lemma foldl_insert_cell (g : string → cell → cell) (cs : list string) (r : row) c :
  NoDup cs →
  cell_of (foldl (λ r' c', <[c' := g c' (cell_of r' c')]> r') r cs) c
  = if decide (c ∈ cs) then g c (cell_of r c) else cell_of r c.
Proof.
  revert r. induction cs as [|c0 cs IH]; intros r Hnd; [done|].
  apply NoDup_cons in Hnd as [Hc0 Hnd]. simpl. rewrite IH by done.
  destruct (decide (c = c0)) as [->|Hne].
  - rewrite decide_False by done. rewrite decide_True by (by left).
    apply cell_of_insert_eq.
  - rewrite cell_of_insert_ne by done.
    destruct (decide (c ∈ cs)) as [Hc|Hc].
    + rewrite decide_True by (by right). done.
    + rewrite decide_False; [done|]. by intros [?|?]%elem_of_cons.
Qed.

Lemma foldl_insert_dom (g : string → cell → cell) (cs : list string) (r : row) :
  (∀ c, c ∈ cs → c ∈ dom r) →
  dom (foldl (λ r' c', <[c' := g c' (cell_of r' c')]> r') r cs) = dom r.
Proof.
  revert r. induction cs as [|c0 cs IH]; intros r Hcs; [done|]. simpl.
  assert (c0 ∈ dom r) as Hc0 by (apply Hcs; by left).
  rewrite IH.
  - rewrite dom_insert_L. set_solver.
  - intros c Hc. rewrite dom_insert_L. apply elem_of_union. right. apply Hcs. by right.
Qed.

Lemma numeric_columns_NoDup : NoDup numeric_columns.
Proof. by_evaluation. Qed.

End ReadSheet.

(** X12.  [mevcut_veriyi_al] on a sheet with a header row of distinct
    names and at least one row below it: the frame has the columns of
    the header, and the column "Parça Durumu" at the end when the
    header has none; it has one record for each row of the sheet, in
    order; a record holds the cells of its row under the names of the
    header, those of the six number columns cleaned of ".0", and the
    empty string as status where the sheet has no status column. *)
Theorem mevcut_veriyi_al_reads_the_sheet
    (basliklar satir : list string) (satirlar : list (list string)) :
  NoDup basliklar →
  Forall (λ r, length r = length basliklar) (satir :: satirlar) →
  let df := GoogleSheetsManager.mevcut_veriyi_al (basliklar :: satir :: satirlar) in
  columns df
  = basliklar ++ (if decide (SSH.parca_durumu ∈ basliklar) then [] else [SSH.parca_durumu]) ∧
  wf_df df ∧
  length (rows df) = length (satir :: satirlar) ∧
  ∀ j r, (satir :: satirlar) !! j = Some r →
    ∃ kayit, rows df !! j = Some kayit ∧
      (∀ i c, basliklar !! i = Some c →
         kayit !! c
         = Some (CStr (if decide (c ∈ GoogleSheetsManager.numeric_columns)
                       then GoogleSheetsManager.sayisal_temizle (default "" (r !! i))
                       else default "" (r !! i)))) ∧
      (SSH.parca_durumu ∉ basliklar → kayit !! SSH.parca_durumu = Some (CStr "")).
Proof.
  intros Hnd Hrect. cbv zeta. unfold GoogleSheetsManager.mevcut_veriyi_al.
  set (g := λ (col : string) (r : row),
              CStr (GoogleSheetsManager.sayisal_temizle (py_str (cell_of r col)))).
  rewrite (temizle_loop_filter g).
  set (cs := filter (λ c, c ∈ columns (Pd.from_rows basliklar (satir :: satirlar)))
                    GoogleSheetsManager.numeric_columns).
  assert (NoDup cs) as Hcs_nd by (apply NoDup_filter, numeric_columns_NoDup).
  assert (∀ c, c ∈ cs ↔ c ∈ basliklar ∧ c ∈ GoogleSheetsManager.numeric_columns) as Hcs
    by (intros c; unfold cs; by rewrite list_elem_of_filter).
  set (df1 := foldl (λ df col, Pandas.set_column col (g col) df)
                    (Pd.from_rows basliklar (satir :: satirlar)) cs).
  assert (columns df1 = basliklar) as Hcols1.
  { unfold df1. rewrite (foldl_set_column_columns g); [done|].
    apply Forall_forall. intros c Hc. by apply Hcs in Hc as [? _]. }
  assert (rows df1
          = (λ r : list string,
               foldl (λ r' c', <[c' := CStr (GoogleSheetsManager.sayisal_temizle (py_str (cell_of r' c')))]> r')
                     (list_to_map (zip basliklar (CStr <$> r)) : row) cs)
            <$> (satir :: satirlar)) as Hrows1.
  { unfold df1. rewrite (foldl_set_column_rows g). unfold Pd.from_rows.
    cbn [rows]. by rewrite <-list_fmap_compose. }
  (* one record of the frame before the status column is added *)
  assert (∀ r, r ∈ satir :: satirlar →
            let kayit :=
              foldl (λ r' c', <[c' := CStr (GoogleSheetsManager.sayisal_temizle (py_str (cell_of r' c')))]> r')
                    (list_to_map (zip basliklar (CStr <$> r)) : row) cs in
            dom kayit = list_to_set basliklar ∧
            ∀ i c, basliklar !! i = Some c →
              kayit !! c
              = Some (CStr (if decide (c ∈ GoogleSheetsManager.numeric_columns)
                            then GoogleSheetsManager.sayisal_temizle (default "" (r !! i))
                            else default "" (r !! i)))) as Hkayit.
  { intros r Hr. cbv zeta. rewrite Forall_forall in Hrect. specialize (Hrect r Hr).
    assert (dom (foldl (λ r' c', <[c' := CStr (GoogleSheetsManager.sayisal_temizle
                                                 (py_str (cell_of r' c')))]> r')
                       (list_to_map (zip basliklar (CStr <$> r)) : row) cs)
            = list_to_set basliklar) as Hdom.
    { rewrite (foldl_insert_dom (λ _ v, CStr (GoogleSheetsManager.sayisal_temizle (py_str v)))).
      - apply zip_row_dom. by rewrite length_fmap.
      - intros c Hc. rewrite zip_row_dom by (by rewrite length_fmap).
        apply elem_of_list_to_set. by apply Hcs in Hc as [? _]. }
    split; [done|]. intros i c Hi.
    assert (is_Some (r !! i)) as [x Hx]
      by (apply lookup_lt_is_Some; rewrite Hrect; by eapply lookup_lt_Some).
    rewrite Hx. simpl.
    assert ((list_to_map (zip basliklar (CStr <$> r)) : row) !! c = Some (CStr x)) as Hzip
      by (apply (zip_row_lookup _ _ i); [done..|by rewrite list_lookup_fmap, Hx]).
    pose proof (foldl_insert_cell (λ _ v, CStr (GoogleSheetsManager.sayisal_temizle (py_str v)))
                  cs (list_to_map (zip basliklar (CStr <$> r))) c Hcs_nd) as Hcell.
    unfold cell_of at 3 4 in Hcell. rewrite Hzip in Hcell. simpl in Hcell.
    assert (c ∈ basliklar) as Hcb by (by eapply list_elem_of_lookup_2).
    assert (is_Some (foldl (λ r' c', <[c' := CStr (GoogleSheetsManager.sayisal_temizle
                                                     (py_str (cell_of r' c')))]> r')
                           (list_to_map (zip basliklar (CStr <$> r)) : row) cs !! c))
      as [v Hv].
    { apply elem_of_dom. rewrite Hdom. by apply elem_of_list_to_set. }
    unfold cell_of in Hcell at 1. rewrite Hv in Hcell. simpl in Hcell. rewrite Hv, Hcell.
    f_equal. destruct (decide (c ∈ cs)) as [Hc|Hc].
    - rewrite decide_True; [done|]. by apply Hcs in Hc as [_ ?].
    - rewrite decide_False; [done|]. intros Hn. apply Hc, Hcs. done. }
  rewrite Hcols1.
  destruct (decide (SSH.parca_durumu ∈ basliklar)) as [Hpd|Hpd].
  - rewrite app_nil_r. split_and!.
    + done.
    + unfold wf_df. rewrite Hcols1, Hrows1. apply Forall_fmap, Forall_forall.
      intros r Hr. by apply (Hkayit r Hr).
    + by rewrite Hrows1, length_fmap.
    + intros j r Hj. eexists. split.
      * rewrite Hrows1, list_lookup_fmap, Hj. done.
      * split; [|done]. apply (Hkayit r). by eapply list_elem_of_lookup_2.
  - assert (∀ c, c ∈ basliklar → c ≠ SSH.parca_durumu) as Hne by (intros c Hc ->; done).
    split_and!.
    + rewrite columns_set_column, Hcols1. by rewrite decide_False.
    + unfold wf_df. rewrite columns_set_column, rows_set_column, Hcols1, Hrows1.
      rewrite decide_False by done.
      rewrite <-list_fmap_compose. apply Forall_fmap, Forall_forall.
      intros r Hr. simpl. rewrite dom_insert_L, (proj1 (Hkayit r Hr)).
      rewrite list_to_set_app_L. simpl. set_solver.
    + by rewrite rows_set_column, Hrows1, !length_fmap.
    + intros j r Hj. eexists. split.
      * rewrite rows_set_column, Hrows1, !list_lookup_fmap, Hj. done.
      * split.
        -- intros i c Hi. rewrite lookup_insert_ne.
           ++ apply (Hkayit r); [by eapply list_elem_of_lookup_2|done].
           ++ intros Heq. apply (Hne c); [by eapply list_elem_of_lookup_2|done].
        -- intros _. apply lookup_insert_eq.
Qed.

Lemma mevcut_veriyi_al_reads_the_sheet_witness :
  columns (GoogleSheetsManager.mevcut_veriyi_al OrnekEk.ssh_sayfasi)
  = ["Servis Bakım ID"; "Müşteri Adı"; "Parça Durumu"].
Proof.
  pose proof (mevcut_veriyi_al_reads_the_sheet
                ["Servis Bakım ID"; "Müşteri Adı"] ["41.0"; "Ayse Kaya"] []) as H.
  cbv zeta in H. destruct H as (Hcols & _); [by_evaluation..|].
  exact Hcols.
Defined.

(** ** The Excel extract and the pipeline of [run_update] *)

Lemma filter_all {A} (P : A → Prop) `{!∀ x, Decision (P x)} (l : list A) :
  (∀ x, x ∈ l → P x) → filter P l = l.
Proof.
  induction l as [|x l IH]; intros Hall; [done|].
  rewrite filter_cons_True by (apply Hall; by left).
  f_equal. apply IH. intros y Hy. apply Hall. by right.
Qed.

Section ExcelColumns.
Import Pandas SSH SshManager.

Lemma select_ok (cols : list string) (df : DataFrame) :
  (∀ c, c ∈ cols → c ∈ columns df) →
  Pd.select cols df
  = Ok {| columns := cols;
          rows := (λ r : row, filter (λ kv, kv.1 ∈ cols) r) <$> rows df |}.
Proof.
  intros Hcols. unfold Pd.select.
  destruct (list_find (λ c, c ∉ columns df) cols) as [[i c]|] eqn:Hf; [|done].
  apply list_find_Some in Hf as (Hi & Hc & _). exfalso. apply Hc, Hcols.
  by eapply list_elem_of_lookup_2.
Qed.

(** The frame after lines 220-226. *)
Lemma istenen_NoDup : NoDup istenen_sutun_sirasi.
Proof. by_evaluation. Qed.

Lemma filter_swap_perm (I C : list string) :
  NoDup I → NoDup C → filter (λ c, c ∈ C) I ≡ₚ filter (λ c, c ∈ I) C.
Proof.
  intros HI HC. apply NoDup_Permutation; [by apply NoDup_filter..|].
  intros c. rewrite !list_elem_of_filter. tauto.
Qed.

Lemma ordered_columns_perm (C : list string) :
  NoDup C →
  filter (λ c, c ∈ C) istenen_sutun_sirasi
    ++ filter (λ c, c ∉ filter (λ c', c' ∈ C) istenen_sutun_sirasi) C
  ≡ₚ C.
Proof.
  intros HC. rewrite (filter_swap_perm _ C) by (done || apply istenen_NoDup).
  rewrite (filter_ext_in (λ c, c ∉ filter (λ c', c' ∈ C) istenen_sutun_sirasi)
             (λ c, ¬ c ∈ istenen_sutun_sirasi)).
  - apply filter_app_complement.
  - intros c Hc. rewrite list_elem_of_filter. tauto.
Qed.

End ExcelColumns.

(** X13.  [excel_verisi_oku], from the clean-up of the rows on, for a
    frame with distinct column names: it returns a frame with the same
    columns in another order, and the column "Parça Durumu" besides
    when the extract has none.  "Parça Durumu" is the first column;
    the columns of the fixed order come first, in that order, the
    other columns after them as the extract has them.  No record is
    left with a blank order number; the records kept are in the order
    of the extract, cell for cell as they were, the status empty where
    it was added. *)
Theorem excel_verisi_oku_orders_columns (df : DataFrame) :
  NoDup (columns df) → wf_df df →
  ∃ out, SshManager.excel_verisi_oku df = Ok out ∧
    columns out
    ≡ₚ columns df ++ (if decide (SSH.parca_durumu ∈ columns df) then []
                      else [SSH.parca_durumu]) ∧
    head (columns out) = Some SSH.parca_durumu ∧
    (∃ rest, columns out
             = filter (λ c, c ∈ columns out) SshManager.istenen_sutun_sirasi ++ rest ∧
             Forall (λ c, c ∉ SshManager.istenen_sutun_sirasi) rest ∧
             rest `sublist_of` columns df) ∧
    wf_df out ∧
    rows out
    = (λ r, if decide (SSH.parca_durumu ∈ columns df) then r
            else <[SSH.parca_durumu := CStr ""]> r)
      <$> filter (λ r, SshManager.siparis_no ∈ columns df → SshManager.siparis_no_dolu r)
                 (rows df).
Proof.
  intros Hnd Hwf. unfold SshManager.excel_verisi_oku.
  set (df1 := if decide (SshManager.siparis_no ∈ columns df)
              then Pandas.filter_rows SshManager.siparis_no_dolu df else df).
  assert (columns df1 = columns df) as Hc1 by (unfold df1; by case_decide).
  assert (rows df1
          = filter (λ r, SshManager.siparis_no ∈ columns df → SshManager.siparis_no_dolu r)
                   (rows df)) as Hr1.
  { unfold df1. case_decide as Hs; simpl.
    - apply filter_ext_in. intros r _. tauto.
    - symmetry. apply filter_all. tauto. }
  set (df2 := if decide (SSH.parca_durumu ∈ columns df1) then df1
              else Pandas.set_column SSH.parca_durumu (λ _, CStr "") df1).
  assert (columns df2
          = columns df ++ (if decide (SSH.parca_durumu ∈ columns df) then []
                           else [SSH.parca_durumu])) as Hc2.
  { unfold df2. rewrite Hc1. destruct (decide (SSH.parca_durumu ∈ columns df)) as [Hp|Hp]; [by rewrite app_nil_r|].
    rewrite columns_set_column, Hc1. by rewrite decide_False. }
  assert (rows df2
          = (λ r, if decide (SSH.parca_durumu ∈ columns df) then r
                  else <[SSH.parca_durumu := CStr ""]> r) <$> rows df1) as Hr2.
  { unfold df2. rewrite Hc1. destruct (decide (SSH.parca_durumu ∈ columns df)) as [Hp|Hp]; [by rewrite list_fmap_id|].
    by rewrite rows_set_column. }
  assert (NoDup (columns df2)) as Hnd2.
  { rewrite Hc2. destruct (decide (SSH.parca_durumu ∈ columns df)) as [Hp|Hp]; [by rewrite app_nil_r|].
    apply NoDup_app. split_and!; [done| |apply NoDup_singleton].
    intros c Hc ->%list_elem_of_singleton. done. }
  assert (SSH.parca_durumu ∈ columns df2) as Hp2.
  { rewrite Hc2. destruct (decide (SSH.parca_durumu ∈ columns df)) as [Hp|Hp]; [by rewrite app_nil_r|].
    apply elem_of_app. right. by apply list_elem_of_singleton. }
  assert (wf_df df2) as Hwf2.
  { unfold wf_df. rewrite Hr2, Hr1, Hc2. apply Forall_fmap, Forall_forall.
    intros r [_ Hr]%list_elem_of_filter. simpl.
    unfold wf_df in Hwf. rewrite Forall_forall in Hwf. specialize (Hwf r Hr).
    destruct (decide (SSH.parca_durumu ∈ columns df)) as [Hp|Hp]; [by rewrite app_nil_r|].
    rewrite dom_insert_L, Hwf, list_to_set_app_L. simpl. set_solver. }
  set (mevcut_sutunlar := filter (λ sutun, sutun ∈ columns df2)
                                 SshManager.istenen_sutun_sirasi).
  set (kalan_sutunlar := filter (λ sutun, sutun ∉ mevcut_sutunlar) (columns df2)).
  pose proof (ordered_columns_perm (columns df2) Hnd2) as Hperm.
  fold mevcut_sutunlar in Hperm. fold kalan_sutunlar in Hperm.
  rewrite select_ok.
  2:{ intros c Hc. by rewrite <-Hperm. }
  eexists. split; [done|]. cbn [columns rows].
  assert (∀ c, c ∈ mevcut_sutunlar ++ kalan_sutunlar ↔ c ∈ columns df2) as Hmem
    by (intros c; by rewrite Hperm).
  split_and!.
  - by rewrite Hperm, Hc2.
  - unfold mevcut_sutunlar, SshManager.istenen_sutun_sirasi.
    rewrite filter_cons_True by done. done.
  - exists kalan_sutunlar. split_and!.
    + f_equal.
      apply (filter_ext_in (λ c, c ∈ columns df2)
                           (λ c, c ∈ mevcut_sutunlar ++ kalan_sutunlar)).
      intros c _. symmetry. apply Hmem.
    + apply Forall_forall. intros c [Hc Hin]%list_elem_of_filter Hi.
      apply Hc. unfold mevcut_sutunlar. by apply list_elem_of_filter.
    + unfold kalan_sutunlar.
      assert (filter (λ sutun, sutun ∉ mevcut_sutunlar) (columns df2)
              = filter (λ sutun, sutun ∉ mevcut_sutunlar) (columns df)) as ->.
      { rewrite Hc2. destruct (decide (SSH.parca_durumu ∈ columns df)) as [Hp|Hp]; [by rewrite app_nil_r|].
        rewrite filter_app, filter_cons_False, filter_nil, app_nil_r; [done|].
        intros Hn. apply Hn. unfold mevcut_sutunlar. apply list_elem_of_filter.
        split; [done|by_evaluation]. }
      apply sublist_filter.
  - unfold wf_df. cbn [columns rows]. apply Forall_fmap, Forall_forall.
    intros r Hr. simpl. unfold wf_df in Hwf2. rewrite Forall_forall in Hwf2.
    rewrite map_filter_id.
    + rewrite (Hwf2 r Hr). apply set_eq. intros c. rewrite !elem_of_list_to_set.
      by rewrite Hmem.
    + intros c v Hcv. simpl. apply Hmem.
      assert (c ∈ dom r) as Hd by (by apply elem_of_dom).
      rewrite (Hwf2 r Hr) in Hd. by apply elem_of_list_to_set in Hd.
  - rewrite Hr2, Hr1. symmetry.
    rewrite <-(list_fmap_id ((λ r, if decide (SSH.parca_durumu ∈ columns df) then r
                                   else <[SSH.parca_durumu := CStr ""]> r) <$> _)) at 1.
    apply list_fmap_ext. intros i r Hi. simpl.
    symmetry. apply map_filter_id. intros c v Hcv. simpl. apply Hmem.
    assert (r ∈ rows df2) as Hr by (rewrite Hr2, Hr1; by eapply list_elem_of_lookup_2).
    unfold wf_df in Hwf2. rewrite Forall_forall in Hwf2.
    assert (c ∈ dom r) as Hd by (by apply elem_of_dom).
    rewrite (Hwf2 r Hr) in Hd. by apply elem_of_list_to_set in Hd.
Qed.

Lemma excel_verisi_oku_orders_columns_witness :
  ∃ out, SshManager.excel_verisi_oku Ornek.yeni_ornek = Ok out ∧
         head (columns out) = Some SSH.parca_durumu.
Proof.
  destruct (excel_verisi_oku_orders_columns Ornek.yeni_ornek)
    as (out & Hout & _ & Hhead & _); [by_evaluation..|].
  exists out. split; assumption.
Defined.

Section RunUpdate.
Import Pandas SSH SshManager GoogleSheetsManager.

Lemma excel_verisi_oku_ok (df : DataFrame) :
  ∃ out, excel_verisi_oku df = Ok out ∧
         ∀ c, c ∈ columns out ↔ c ∈ columns df ∨ c = parca_durumu.
Proof.
  unfold excel_verisi_oku.
  set (df1 := if decide (siparis_no ∈ columns df)
              then filter_rows siparis_no_dolu df else df).
  assert (columns df1 = columns df) as Hc1 by (unfold df1; by case_decide).
  set (df2 := if decide (parca_durumu ∈ columns df1) then df1
              else set_column parca_durumu (λ _, CStr "") df1).
  assert (∀ c, c ∈ columns df2 ↔ c ∈ columns df ∨ c = parca_durumu) as Hc2.
  { intros c. unfold df2. case_decide as Hp.
    - rewrite Hc1. split; [tauto|]. intros [?| ->]; [done|]. by rewrite <-Hc1.
    - rewrite columns_set_column, decide_False, elem_of_app, list_elem_of_singleton, Hc1
        by done. done. }
  set (mevcut_sutunlar := filter (λ sutun, sutun ∈ columns df2) istenen_sutun_sirasi).
  assert (∀ c, c ∈ mevcut_sutunlar
               ++ filter (λ sutun, sutun ∉ mevcut_sutunlar) (columns df2)
               ↔ c ∈ columns df2) as Hmem.
  { intros c. rewrite elem_of_app, list_elem_of_filter. unfold mevcut_sutunlar.
    rewrite list_elem_of_filter.
    destruct (decide (c ∈ istenen_sutun_sirasi)); tauto. }
  rewrite select_ok by (intros c Hc; by apply Hmem).
  eexists. split; [done|]. intros c. cbn [columns]. by rewrite Hmem.
Qed.

Lemma mevcut_veriyi_al_status (mevcut_veri : list (list string)) :
  mevcut_veriyi_al mevcut_veri = mkDF [] []
  ∨ parca_durumu ∈ columns (mevcut_veriyi_al mevcut_veri).
Proof.
  unfold mevcut_veriyi_al.
  destruct mevcut_veri as [|basliklar [|satir satirlar]]; [by left..|]. right.
  case_decide as Hp; [done|].
  rewrite columns_set_column, decide_False by done.
  apply elem_of_app. right. by apply list_elem_of_singleton.
Qed.

End RunUpdate.

(** X14.  The pipeline of [run_update], for an extract with distinct
    column names.  Both readers deliver the
    column "Parça Durumu": the Excel reader always, the sheet reader
    whenever it delivers rows.  So the condition of line 286, under
    which the merger carries the status over, holds in every run.  On
    a sheet with no row below the header the merged frame is the Excel
    extract, sorted.  The merge returns if and only if the extract has
    the column "Servis Bakım ID"; without it the KeyError of the sort
    ends the run. *)
Theorem run_update_pipeline (excel_df : DataFrame) (ssh_sayfasi : list (list string)) :
  NoDup (columns excel_df) →
  ∃ yeni, SshManager.excel_verisi_oku excel_df = Ok yeni ∧
    SshManager.son_veri excel_df ssh_sayfasi
    = SSH.verileri_birlestir yeni (GoogleSheetsManager.mevcut_veriyi_al ssh_sayfasi) ∧
    SSH.parca_durumu ∈ columns yeni ∧
    (Pandas.empty (GoogleSheetsManager.mevcut_veriyi_al ssh_sayfasi) = false →
       SSH.parca_durumu ∈ columns (GoogleSheetsManager.mevcut_veriyi_al ssh_sayfasi)) ∧
    ((length ssh_sayfasi ≤ 1)%nat →
       SshManager.son_veri excel_df ssh_sayfasi
       = Pandas.sort_values_desc SSH.servis_bakim_id yeni) ∧
    (SSH.servis_bakim_id ∈ columns excel_df →
       ∃ out, SshManager.son_veri excel_df ssh_sayfasi = Ok out) ∧
    (SSH.servis_bakim_id ∉ columns excel_df →
       SshManager.son_veri excel_df ssh_sayfasi = Raise (KeyError SSH.servis_bakim_id)).
Proof.
  intros _. destruct (excel_verisi_oku_ok excel_df) as (yeni & Hyeni & Hcols).
  exists yeni. unfold SshManager.son_veri. rewrite Hyeni. cbn [mbind result_bind].
  split_and!; [done|done| | | | |].
  - apply Hcols. by right.
  - intros He. destruct (mevcut_veriyi_al_status ssh_sayfasi) as [Hm|Hm]; [|done].
    rewrite Hm in He. done.
  - intros Hlen. unfold GoogleSheetsManager.mevcut_veriyi_al.
    destruct ssh_sayfasi as [|basliklar [|satir satirlar]]; [done..|]. simpl in Hlen. lia.
  - intros Hs. apply verileri_birlestir_returns. apply Hcols. by left.
  - intros Hs. apply verileri_birlestir_raises. intros [?|Heq]%Hcols; [done|].
    by vm_compute in Heq.
Qed.

Lemma run_update_pipeline_witness :
  ∃ yeni, SshManager.excel_verisi_oku Ornek.yeni_ornek = Ok yeni ∧
          SSH.parca_durumu ∈ columns yeni.
Proof.
  destruct (run_update_pipeline Ornek.yeni_ornek OrnekEk.ssh_sayfasi)
    as (yeni & Hyeni & _ & Hdurum & _); [by_evaluation|].
  exists yeni. split; assumption.
Defined.

(** ** Grouping before the join *)

Section GroupBy.
Import Pandas.

Lemma cell_asc_total : Total cell_asc.
Proof.
  intros [x|] [y|]; unfold cell_asc; try tauto.
  unfold String.le. destruct (String.leb_total x y) as [H|H]; [left|right]; by rewrite H.
Qed.

Context (agg : list cell → cell) (by_ col : string) (df : DataFrame).
Hypothesis by_in : by_ ∈ columns df.
Hypothesis col_in : col ∈ columns df.
Hypothesis by_col : by_ ≠ col.

Lemma groupby_agg_ok :
  Pd.groupby_agg agg by_ col df
  = Ok {| columns := [by_; col];
          rows := (λ k, {[ by_ := k;
                           col := agg ((λ r, cell_of r col)
                                         <$> filter (λ r, cell_of r by_ = k) (rows df)) ]})
                  <$> merge_sort cell_asc
                        (remove_dups (filter (λ k, k ≠ CNaN) (key_col by_ df))) |}.
Proof. unfold Pd.groupby_agg. by rewrite !decide_True. Qed.

Lemma groupby_agg_spec :
  ∃ out, Pd.groupby_agg agg by_ col df = Ok out ∧
    columns out = [by_; col] ∧ wf_df out ∧
    NoDup (key_col by_ out) ∧ Sorted cell_asc (key_col by_ out) ∧
    (∀ k, k ∈ key_col by_ out ↔ k ∈ key_col by_ df ∧ k ≠ CNaN) ∧
    (∀ r, r ∈ rows out →
       r !! col = Some (agg ((λ b, cell_of b col)
                               <$> filter (λ b, cell_of b by_ = cell_of r by_) (rows df)))).
Proof.
  rewrite groupby_agg_ok. eexists. split; [done|].
  set (keys := merge_sort cell_asc (remove_dups (filter (λ k, k ≠ CNaN) (key_col by_ df)))).
  assert (key_col by_
            {| columns := [by_; col];
               rows := (λ k, {[ by_ := k;
                                col := agg ((λ r, cell_of r col)
                                              <$> filter (λ r, cell_of r by_ = k) (rows df)) ]})
                       <$> keys |} = keys) as Hkeys.
  { unfold key_col. cbn [rows]. rewrite <-list_fmap_compose.
    rewrite <-(list_fmap_id keys) at 2. apply list_fmap_ext. intros i k _.
    unfold compose, cell_of. cbv beta. by rewrite lookup_insert_eq. }
  rewrite Hkeys. cbn [columns rows]. split_and!.
  - done.
  - unfold wf_df. cbn [columns rows]. apply Forall_fmap, Forall_forall. intros k _.
    unfold compose. cbv beta. rewrite dom_insert_L, dom_singleton_L.
    cbn [list_to_set foldr]. set_solver.
  - unfold keys. rewrite merge_sort_Permutation. apply NoDup_remove_dups.
  - apply Sorted_merge_sort, cell_asc_total.
  - intros k. unfold keys.
    rewrite merge_sort_Permutation, elem_of_remove_dups, list_elem_of_filter. tauto.
  - intros r [k [-> _]]%list_elem_of_fmap.
    rewrite cell_of_insert_eq. by rewrite lookup_insert_ne, lookup_singleton_eq by done.
Qed.

End GroupBy.

Section LeftUnique.
Import Pandas.
Context (on : string) (right : DataFrame).
Hypothesis right_unique : NoDup (key_col on right).

(** With distinct keys on the right a left row gives one row. *)
Lemma left_rows_single (a : row) :
  left_rows on right a
  = [a ∪ default (nan_row (columns right)) (head (matches on right a))].
Proof.
  unfold left_rows, matches.
  destruct (filter_key_unique (λ b : row, cell_of b on) (cell_of a on) (rows right)
              right_unique) as [Hnil|[b Hb]].
  - by rewrite Hnil.
  - by rewrite Hb.
Qed.

Lemma bind_left_rows_single (l : list row) :
  l ≫= left_rows on right
  = (λ a, a ∪ default (nan_row (columns right)) (head (matches on right a))) <$> l.
Proof.
  induction l as [|a l IH]; [done|].
  by rewrite bind_cons, fmap_cons, IH, left_rows_single.
Qed.

End LeftUnique.

(** X15.  The grouping of line 764: the grouped frame has one record
    for each material code of the pending orders, records without a
    code left out, the codes in ascending order and no code twice;
    under "Bekleyen Adet" a record holds the aggregate of the cells of
    all pending orders with its code, in their order.  This is so
    whatever the aggregate computes. *)
Theorem grouped_bekleyen_one_row_per_code (sum : list cell → cell) (bekleyen : DataFrame) :
  "Malzeme Kodu" ∈ columns bekleyen → "Bekleyen Adet" ∈ columns bekleyen →
  ∃ grouped, StokBirlesim.grouped_bekleyen sum bekleyen = Ok grouped ∧
    columns grouped = ["Malzeme Kodu"; "Bekleyen Adet"] ∧ wf_df grouped ∧
    NoDup (key_col "Malzeme Kodu" grouped) ∧
    Sorted Pandas.cell_asc (key_col "Malzeme Kodu" grouped) ∧
    (∀ k, k ∈ key_col "Malzeme Kodu" grouped
          ↔ k ∈ key_col "Malzeme Kodu" bekleyen ∧ k ≠ CNaN) ∧
    (∀ r, r ∈ rows grouped →
       r !! "Bekleyen Adet"
       = Some (sum ((λ b, cell_of b "Bekleyen Adet")
                      <$> filter (λ b, cell_of b "Malzeme Kodu" = cell_of r "Malzeme Kodu")
                                 (rows bekleyen)))).
Proof.
  intros Hk Hc. unfold StokBirlesim.grouped_bekleyen.
  by apply groupby_agg_spec.
Qed.

Lemma grouped_bekleyen_one_row_per_code_witness :
  ∃ grouped, StokBirlesim.grouped_bekleyen OrnekEk.ilk_hucre Ornek.bekleyen_ornek = Ok grouped ∧
             NoDup (key_col "Malzeme Kodu" grouped).
Proof.
  destruct (grouped_bekleyen_one_row_per_code OrnekEk.ilk_hucre Ornek.bekleyen_ornek)
    as (grouped & Hg & _ & _ & Hnd & _); [by_evaluation..|].
  exists grouped. split; assumption.
Defined.

(** X16.  Lines 764-767 together: grouping makes the codes of the
    right side distinct, so the left join neither drops nor repeats a
    material.  The merged frame has the records of the material table,
    one for one and in order, every cell of the material kept; under
    "Bekleyen Adet" a record holds the aggregate of the pending orders
    with the code of the material, and NaN when there is no such order
    or the material has no code. *)
Theorem merged_df_one_row_per_material
    (sum : list cell → cell) (malzeme bekleyen : DataFrame) :
  "Malzeme Kodu" ∈ columns malzeme → "Bekleyen Adet" ∉ columns malzeme → wf_df malzeme →
  "Malzeme Kodu" ∈ columns bekleyen → "Bekleyen Adet" ∈ columns bekleyen →
  ∃ out, StokBirlesim.merged_bekleyen sum malzeme bekleyen = Ok out ∧
    columns out = columns malzeme ++ ["Bekleyen Adet"] ∧
    key_col "Malzeme Kodu" out = key_col "Malzeme Kodu" malzeme ∧
    length (rows out) = length (rows malzeme) ∧
    ∀ i a, rows malzeme !! i = Some a →
      ∃ r, rows out !! i = Some r ∧
        (∀ c, c ∈ columns malzeme → r !! c = a !! c) ∧
        r !! "Bekleyen Adet"
        = Some (if decide (cell_of a "Malzeme Kodu" ≠ CNaN ∧
                           cell_of a "Malzeme Kodu" ∈ key_col "Malzeme Kodu" bekleyen)
                then sum ((λ b, cell_of b "Bekleyen Adet")
                            <$> filter (λ b, cell_of b "Malzeme Kodu"
                                             = cell_of a "Malzeme Kodu") (rows bekleyen))
                else CNaN).
Proof.
  intros Hmk Hba Hwf Hbk Hbc.
  destruct (groupby_agg_spec sum "Malzeme Kodu" "Bekleyen Adet" bekleyen Hbk Hbc
              ltac:(done)) as (g & Hg & Hgc & Hgwf & Hgnd & _ & Hgk & Hgv).
  unfold StokBirlesim.merged_bekleyen, StokBirlesim.grouped_bekleyen. rewrite Hg.
  cbn [mbind result_bind]. unfold Stok.malzeme_birlestir.
  rewrite merge_ok by (done || (rewrite Hgc; by left)).
  rewrite (bind_left_rows_single _ _ Hgnd).
  eexists. split; [done|]. cbn [columns rows]. split_and!.
  - rewrite Hgc. f_equal.
  - rewrite <-(bind_left_rows_single _ _ Hgnd).
    apply left_rows_keys_unique; [rewrite Hgc; by left|done].
  - by rewrite length_fmap.
  - intros i a Hi. eexists. split; [by rewrite list_lookup_fmap, Hi|].
    assert (a ∈ rows malzeme) as Ha by (by eapply list_elem_of_lookup_2).
    split.
    + intros c Hc. pose proof (wf_df_cell malzeme a c Hwf Ha Hc) as Hac.
      by rewrite (lookup_union_Some_l _ _ _ _ Hac).
    + rewrite lookup_union_r by (by apply (wf_df_lookup_None malzeme)).
      unfold Pandas.matches.
      destruct (filter_key_unique (λ b : row, cell_of b "Malzeme Kodu")
                  (cell_of a "Malzeme Kodu") (rows g) Hgnd) as [Hnil|[b Hb]].
      * rewrite Hnil. simpl. rewrite lookup_nan_row by (rewrite Hgc; by_evaluation).
        f_equal. rewrite decide_False; [done|]. intros [Hne Hin].
        apply filter_key_nil in Hnil. apply Hnil. apply Hgk. done.
      * rewrite Hb. simpl.
        assert (b ∈ rows g ∧ cell_of b "Malzeme Kodu" = cell_of a "Malzeme Kodu")
          as [Hbg Hbk'].
        { assert (b ∈ filter (λ b0 : row, cell_of b0 "Malzeme Kodu"
                                          = cell_of a "Malzeme Kodu") (rows g)) as Hbf
            by (rewrite Hb; by left).
          apply list_elem_of_filter in Hbf. tauto. }
        rewrite (Hgv b Hbg), Hbk'. f_equal.
        rewrite decide_True; [done|].
        assert (cell_of b "Malzeme Kodu" ∈ key_col "Malzeme Kodu" g) as Hkb
          by (by apply (list_elem_of_fmap_2 (λ r : row, cell_of r "Malzeme Kodu"))).
        apply Hgk in Hkb. rewrite Hbk' in Hkb. tauto.
Qed.

Lemma merged_df_one_row_per_material_witness :
  ∃ out, StokBirlesim.merged_bekleyen OrnekEk.ilk_hucre Ornek.malzeme_ornek Ornek.bekleyen_ornek = Ok out ∧
         length (rows out) = 1%nat.
Proof.
  destruct (merged_df_one_row_per_material OrnekEk.ilk_hucre Ornek.malzeme_ornek
              Ornek.bekleyen_ornek) as (out & Hout & _ & _ & Hlen & _); [by_evaluation..|].
  exists out. split; assumption.
Defined.

(** ** Keys with a separator *)

Section SeparatedKeys.

Lemma split_at_separator (c : ascii) (l1 l2 t1 t2 : list ascii) :
  c ∉ t1 → c ∉ t2 → l1 ++ c :: t1 = l2 ++ c :: t2 → l1 = l2 ∧ t1 = t2.
Proof.
  revert l2. induction l1 as [|x l1 IH]; intros [|y l2] H1 H2 Heq; simpl in Heq.
  - by injection Heq as ->.
  - injection Heq as -> ->. exfalso. apply H1. apply elem_of_app. right. by left.
  - injection Heq as -> <-. exfalso. apply H2. apply elem_of_app. right. by left.
  - injection Heq as -> Heq. destruct (IH l2 H1 H2 Heq) as [-> ->]. done.
Qed.

(** A key [a sep b] whose right part does not have the last character
    of the separator determines both parts. *)
Lemma separated_key_inj (sep : string) (c : ascii) (a1 b1 a2 b2 : string) :
  ¬ has_char c b1 → ¬ has_char c b2 →
  a1 +:+ (sep +:+ String c "") +:+ b1 = a2 +:+ (sep +:+ String c "") +:+ b2 →
  a1 = a2 ∧ b1 = b2.
Proof.
  intros H1 H2 Heq. apply (f_equal String.list_ascii_of_string) in Heq.
  rewrite !list_of_string_app in Heq. simpl in Heq. rewrite !app_assoc in Heq.
  rewrite <-!(app_assoc _ [c]) in Heq. simpl in Heq.
  apply split_at_separator in Heq as [Ha Hb]; [|done..].
  apply app_inv_tail in Ha.
  split; by apply list_of_string_inj.
Qed.

End SeparatedKeys.

(** X17.  The match key "Esle" determines the date and the number it
    is made of, for numbers written without a blank (as [str] writes
    an [int]): two records have the same key only when they have the
    same date and the same number.  The separator is what the
    composite key of the SSH merger lacks. *)
Theorem esle_determines_date_and_number (tarih1 no1 tarih2 no2 : string) :
  ¬ has_char " " no1 → ¬ has_char " " no2 →
  IrsaliyeProcessor.Esle tarih1 no1 = IrsaliyeProcessor.Esle tarih2 no2 →
  tarih1 = tarih2 ∧ no1 = no2.
Proof.
  intros H1 H2 Heq. unfold IrsaliyeProcessor.Esle in Heq.
  by apply (separated_key_inj " -" " ") in Heq.
Qed.

Lemma esle_determines_date_and_number_witness :
  "2024-05-03" = "2024-05-03" ∧ "12" = "12".
Proof.
  apply (esle_determines_date_and_number "2024-05-03" "12" "2024-05-03" "12").
  - unfold has_char. by_evaluation.
  - unfold has_char. by_evaluation.
  - reflexivity.
Defined.

(** X18.  [get_orders] drops a record only for an earlier record of
    the same order and line.  For a response whose line numbers have
    no dash: every record not yet invoiced has, among the records
    kept, one with the same "orderId" and the same "orderLineId". *)
Theorem get_orders_keeps_every_order_line (data : list BekleyenFast.order) :
  Forall (λ o, ¬ has_char "-"
                   (py_str (default (CStr "") (BekleyenFast.dict_get "orderLineId" o)))) data →
  ∀ o, o ∈ DogtasFastSiparisSorgu.fetch_orders_for_period data →
    ∃ o', o' ∈ DogtasFastSiparisSorgu.get_orders data ∧
      py_str (default (CStr "") (BekleyenFast.dict_get "orderId" o'))
      = py_str (default (CStr "") (BekleyenFast.dict_get "orderId" o)) ∧
      py_str (default (CStr "") (BekleyenFast.dict_get "orderLineId" o'))
      = py_str (default (CStr "") (BekleyenFast.dict_get "orderLineId" o)).
Proof.
  intros Hdash o Ho. rewrite get_orders_unique.
  destruct (unique_orders_spec (DogtasFastSiparisSorgu.fetch_orders_for_period data))
    as (_ & Hsub & _ & Hall).
  destruct (Hall o Ho) as (o' & Ho' & Hk). exists o'. split; [done|].
  rewrite Forall_forall in Hdash.
  assert (∀ x, x ∈ DogtasFastSiparisSorgu.fetch_orders_for_period data → x ∈ data) as Hin
    by (intros x [_ ?]%list_elem_of_filter; done).
  unfold DogtasFastSiparisSorgu.combination in Hk.
  apply (separated_key_inj "" "-") in Hk; [done| |].
  - apply Hdash, Hin. by eapply elem_of_sublist.
  - by apply Hdash, Hin.
Qed.

Lemma get_orders_keeps_every_order_line_witness :
  ∃ o, o ∈ DogtasFastSiparisSorgu.get_orders OrnekEk.siparisler ∧
       py_str (default (CStr "") (BekleyenFast.dict_get "orderId" o)) = "7001" ∧
       py_str (default (CStr "") (BekleyenFast.dict_get "orderLineId" o)) = "10".
Proof.
  apply (get_orders_keeps_every_order_line OrnekEk.siparisler
           ltac:(unfold has_char; by_evaluation)
           (OrnekEk.siparis "7001" "10" "00000000")).
  by_evaluation.
Defined.

(** ** Settings of the central configuration *)

Section Settings.
Import BekleyenFast CentralConfigManager.

Lemma settings_fold_lookup (settings : list order) (k : string) :
  get_settings settings !! k
  = (λ row, alan row "Value")
      <$> last (filter (λ row, alan row "Key" ≠ "" ∧ ayar_adi row = k) settings).
Proof.
  unfold get_settings. induction settings as [|row settings IH] using rev_ind.
  - cbn [foldl]. by rewrite lookup_empty.
  - rewrite foldl_app, filter_app, last_app. cbn [foldl].
    rewrite filter_cons, filter_nil. unfold settings_satir at 1. cbv zeta.
    unfold ayar_adi. cbv zeta.
    destruct (decide (alan row "Key" = "")) as [Hkey|Hkey].
    + rewrite IH. by rewrite (decide_False (P := _ ∧ _)) by tauto.
    + destruct (decide (alan row "App Name" = "Global" ∨ alan row "App Name" = ""))
        as [Happ|Happ].
      * destruct (decide (alan row "Key" = k)) as [<-|Hne].
        -- rewrite lookup_insert_eq. by rewrite decide_True.
        -- rewrite lookup_insert_ne, IH by done.
           by rewrite (decide_False (P := _ ∧ _)) by tauto.
      * destruct (decide (alan row "App Name" +:+ "_" +:+ alan row "Key" = k)) as [<-|Hne].
        -- rewrite lookup_insert_eq. by rewrite decide_True.
        -- rewrite lookup_insert_ne, IH by done.
           by rewrite (decide_False (P := _ ∧ _)) by tauto.
Qed.

End Settings.

(** X19.  [get_settings] files each record of the sheet under its key,
    behind the name of the application and an underscore unless the
    application is "Global" or blank; records with a blank key are
    passed over.  A setting is the value of the last record filed
    under its name, blanks around the fields aside.  So a record of
    the application "Etiket" with key "X" and a global record with key
    "Etiket_X" write the same setting, and the later one wins. *)
Theorem get_settings_last_record_wins (settings : list BekleyenFast.order) (k : string) :
  CentralConfigManager.get_settings settings !! k
  = (λ row, CentralConfigManager.alan row "Value")
      <$> last (filter (λ row, CentralConfigManager.alan row "Key" ≠ "" ∧ ayar_adi row = k)
                       settings) ∧
  ∀ value1 value2,
    CentralConfigManager.get_settings
      (settings ++ [[("App Name", CStr "Etiket"); ("Key", CStr "X"); ("Value", CStr value1)];
                    [("App Name", CStr "Global"); ("Key", CStr "Etiket_X");
                     ("Value", CStr value2)]])
      !! "Etiket_X"
    = Some (Py.strip value2).
Proof.
  split; [apply settings_fold_lookup|].
  intros value1 value2. rewrite settings_fold_lookup.
  rewrite filter_app, last_app.
  rewrite !filter_cons, filter_nil.
  rewrite !decide_True; [done|split; by vm_compute|split; by vm_compute].
Qed.

(** ** The join with the price list *)

Section PriceJoin.
Import Pandas.

Lemma length_left_rows on right (a : row) :
  length (left_rows on right a) = (length (matches on right a) `max` 1)%nat.
Proof.
  unfold left_rows. destruct (matches on right a) as [|b ms]; [done|].
  rewrite length_fmap. cbn [length]. lia.
Qed.

Lemma filter_columns_lookup (cols : list string) (r : row) c :
  c ∈ cols → filter (λ kv : string * cell, kv.1 ∈ cols) r !! c = r !! c.
Proof.
  intros Hc. apply option_eq. intros v. rewrite map_lookup_filter_Some. simpl. tauto.
Qed.

Lemma filter_columns_lookup_None (cols : list string) (r : row) c :
  c ∉ cols → filter (λ kv : string * cell, kv.1 ∈ cols) r !! c = None.
Proof.
  intros Hc. apply eq_None_not_Some. intros [v Hv].
  apply map_lookup_filter_Some in Hv as [_ Hv]. by apply Hc.
Qed.

End PriceJoin.

(** X20.  The join with the price list, lines 777-781.  The SAP code
    of a material is the first ten characters of its code.  The join
    keeps the materials in their order and drops none; a material
    stands once for every record of the price list with its SAP code,
    and once when there is none.  So a SAP code that the price list
    holds twice doubles every material with that code in the stock
    table, and only with distinct SAP codes in the price list does the
    table keep one record for each material. *)
Theorem fiyat_birlestir_repeats_materials (merged_df liste : DataFrame) :
  "Malzeme Kodu" ∈ columns merged_df →
  (∀ c, c ∈ ["SAP Kodu"; "TOPTAN"; "PERAKENDE"; "LISTE"] → c ∈ columns liste) →
  ∃ out, StokBirlesim.fiyat_birlestir merged_df liste = Ok out ∧
    key_col "Malzeme Kodu" out
    = rows merged_df
        ≫= (λ a, replicate (fiyat_sayisi liste a `max` 1) (cell_of a "Malzeme Kodu")) ∧
    (length (rows merged_df) ≤ length (rows out))%nat ∧
    (NoDup (key_col "SAP Kodu" liste) →
     key_col "Malzeme Kodu" out = key_col "Malzeme Kodu" merged_df).
Proof.
  intros Hmk Hcols.
  unfold StokBirlesim.fiyat_birlestir, StokBirlesim.sap_kodu_ekle.
  rewrite decide_True by done. cbn [mbind result_bind].
  rewrite (select_ok _ _ Hcols). cbn [mbind result_bind].
  rewrite merge_ok; cycle 1.
  { rewrite columns_set_column. case_decide; [done|]. apply elem_of_app. right. by left. }
  { by left. }
  eexists. split; [done|]. cbn [rows].
  assert (key_col "Malzeme Kodu"
            {| columns := columns (Pandas.set_column "SAP Kodu"
                 (λ r, CStr (Stok.sap_kodu (cell_of r "Malzeme Kodu"))) merged_df)
                 ++ filter (λ c, c ≠ "SAP Kodu")
                      (columns {| columns := ["SAP Kodu"; "TOPTAN"; "PERAKENDE"; "LISTE"];
                                  rows := (λ r : row, filter (λ kv, kv.1 ∈
                                     ["SAP Kodu"; "TOPTAN"; "PERAKENDE"; "LISTE"]) r)
                                          <$> rows liste |});
               rows := rows (Pandas.set_column "SAP Kodu"
                 (λ r, CStr (Stok.sap_kodu (cell_of r "Malzeme Kodu"))) merged_df)
                 ≫= Pandas.left_rows "SAP Kodu"
                      {| columns := ["SAP Kodu"; "TOPTAN"; "PERAKENDE"; "LISTE"];
                         rows := (λ r : row, filter (λ kv, kv.1 ∈
                            ["SAP Kodu"; "TOPTAN"; "PERAKENDE"; "LISTE"]) r)
                                 <$> rows liste |} |}
          = rows merged_df
              ≫= (λ a, replicate (fiyat_sayisi liste a `max` 1) (cell_of a "Malzeme Kodu")))
    as Hkeys.
  { unfold key_col. cbn [rows]. rewrite rows_set_column.
    induction (rows merged_df) as [|a l IH]; [done|].
    rewrite fmap_cons, !bind_cons, fmap_app, IH. f_equal.
    rewrite (fmap_constant _ (cell_of a "Malzeme Kodu")).
    - f_equal. rewrite length_left_rows. f_equal.
      unfold Pandas.matches, fiyat_sayisi. cbn [rows].
      rewrite filter_fmap_length. f_equal. apply filter_ext_in. intros b _.
      rewrite cell_of_insert_eq. unfold cell_of at 1.
      by rewrite filter_columns_lookup by by_evaluation.
    - intros r Hr. unfold Pandas.left_rows in Hr.
      assert (∀ b : row, b !! "Malzeme Kodu" = None →
                cell_of (<["SAP Kodu" := CStr (Stok.sap_kodu (cell_of a "Malzeme Kodu"))]> a ∪ b)
                        "Malzeme Kodu" = cell_of a "Malzeme Kodu") as Hcell.
      { intros b Hb. unfold cell_of. rewrite lookup_union, Hb, lookup_insert_ne by done.
        by destruct (a !! "Malzeme Kodu"). }
      destruct (Pandas.matches _ _ _) as [|b ms] eqn:Hm.
      + apply list_elem_of_singleton in Hr as ->. apply Hcell. cbn [columns].
        apply not_elem_of_list_to_map. by_evaluation.
      + apply list_elem_of_fmap in Hr as [b' [-> Hb']]. apply Hcell.
        rewrite <-Hm in Hb'. apply list_elem_of_filter in Hb' as [_ Hb']. cbn [rows] in Hb'.
        apply list_elem_of_fmap in Hb' as [b0 [-> _]].
        apply filter_columns_lookup_None. by_evaluation. }
  split_and!.
  - exact Hkeys.
  - apply (f_equal length) in Hkeys. unfold key_col in Hkeys. rewrite length_fmap in Hkeys.
    cbn [rows] in Hkeys. rewrite Hkeys.
    clear. induction (rows merged_df) as [|a l IH]; [done|].
    rewrite bind_cons, length_app, length_replicate. cbn [length]. lia.
  - intros Hnd. rewrite Hkeys. clear Hkeys. unfold key_col.
    induction (rows merged_df) as [|a l IH]; [done|].
    rewrite bind_cons, fmap_cons, IH.
    assert (fiyat_sayisi liste a `max` 1 = 1)%nat as ->; [|done].
    unfold fiyat_sayisi.
    destruct (filter_key_unique (λ b : row, cell_of b "SAP Kodu")
                (CStr (Stok.sap_kodu (cell_of a "Malzeme Kodu"))) (rows liste) Hnd)
      as [->|[b ->]]; done.
Qed.

Lemma fiyat_birlestir_repeats_materials_witness :
  ∃ out, StokBirlesim.fiyat_birlestir Ornek.malzeme_ornek OrnekEk.fiyat_cift = Ok out ∧
         key_col "Malzeme Kodu" out = [CStr "3120001234"; CStr "3120001234"].
Proof.
  destruct (fiyat_birlestir_repeats_materials Ornek.malzeme_ornek OrnekEk.fiyat_cift)
    as (out & Hout & Hkeys & _).
  - by_evaluation.
  - intros c Hc. revert c Hc. apply Forall_forall. by_evaluation.
  - exists out. split; [assumption|]. rewrite Hkeys. by vm_compute.
Defined.

(** ** Running the merger again on its own result *)

Lemma nonempty_elem {A} (l : list A) : l ≠ [] → ∃ x, x ∈ l.
Proof. destruct l as [|x l]; [done|]. intros _. exists x. by left. Qed.

Lemma NoDup_union_columns cs : NoDup (Pandas.union_columns cs).
Proof.
  unfold Pandas.union_columns.
  assert (∀ acc, NoDup acc →
            NoDup (foldl (λ acc c, if decide (c ∈ acc) then acc else acc ++ [c]) acc cs))
    as Hacc; [|apply Hacc, NoDup_nil_2].
  induction cs as [|c cs IH]; intros acc Hnd; [done|].
  cbn [foldl]. apply IH. case_decide as Hc; [done|].
  apply NoDup_app. split_and!; [done| |apply NoDup_singleton].
  intros x Hx ->%list_elem_of_singleton. done.
Qed.

(** Rows and keys of a frame. *)
Lemma NoDup_rows (df : DataFrame) : NoDup (df_keys df) → NoDup (rows df).
Proof. unfold df_keys. apply NoDup_fmap_1. Qed.

Lemma df_keys_row (df : DataFrame) r : r ∈ rows df → kayit_anahtari r ∈ df_keys df.
Proof. unfold df_keys. apply list_elem_of_fmap_2. Qed.

Lemma df_keys_inv (df : DataFrame) k :
  k ∈ df_keys df → ∃ r, k = kayit_anahtari r ∧ r ∈ rows df.
Proof. unfold df_keys. by intros ?%list_elem_of_fmap. Qed.

Lemma df_keys_inj (df : DataFrame) r r' :
  NoDup (df_keys df) → r ∈ rows df → r' ∈ rows df →
  kayit_anahtari r = kayit_anahtari r' → r = r'.
Proof. unfold df_keys. apply NoDup_fmap_eq. Qed.

Section Again.
Import Pandas SSH.

Ltac keyed_facts :=
  try done;
  eauto using keyed_cell, has_keys_keyed, columns_keyed_key, has_keys_elem.

(** A column of the concatenated frame is a column of the new frame,
    or of the old one when a record of it is retained. *)
Lemma sutunlar_inv (Y M : DataFrame) c :
  c ∈ son_sutunlar Y M →
  c ∈ columns Y ∨ (saklama_anahtarlari Y M ≠ ∅ ∧ c ∈ columns M).
Proof.
  unfold son_sutunlar. rewrite elem_of_union_columns.
  intros (cs & Hc & Hcs)%list_elem_of_join.
  apply list_elem_of_fmap in Hcs as [d [-> Hd]].
  unfold liste, yeni_kayitlar, saklanacak_eski_kayitlar in Hd. cbv zeta in Hd.
  rewrite !elem_of_app in Hd. destruct Hd as [Hd|[Hd|Hd]].
  - apply list_elem_of_fmap in Hd as [k [-> _]]. left. by rewrite columns_guncel in Hc.
  - case_decide; [by apply elem_of_nil in Hd|].
    apply list_elem_of_singleton in Hd as ->. by left.
  - case_decide as Hs; [by apply elem_of_nil in Hd|].
    apply list_elem_of_singleton in Hd as ->. by right.
Qed.

(** Rows that agree on the columns of the concatenated frame are laid
    out alike. *)
Lemma son_kayit_ext (Y1 M1 Y2 M2 : DataFrame) (r1 r2 : row) :
  (∀ c, c ≠ birlestirme_anahtari → c ∈ son_sutunlar Y2 M2 ↔ c ∈ son_sutunlar Y1 M1) →
  (∀ c, c ≠ birlestirme_anahtari → c ∈ son_sutunlar Y1 M1 → cell_of r2 c = cell_of r1 c) →
  son_kayit Y2 M2 r2 = son_kayit Y1 M1 r1.
Proof.
  intros Hcols Hcells. apply map_eq. intros c. unfold son_kayit.
  destruct (decide (c = birlestirme_anahtari)) as [->|Hne].
  - by rewrite !lookup_delete_eq.
  - rewrite !lookup_delete_ne by done. rewrite !reindex_lookup.
    destruct (decide (c ∈ son_sutunlar Y1 M1)) as [H1|H1].
    + rewrite decide_True by (by apply Hcols). f_equal. by apply Hcells.
    + rewrite decide_False; [done|]. by rewrite Hcols.
Qed.

Lemma birlesen_inv (Y M : DataFrame) (r : row) :
  (∀ r, r ∈ rows Y → cell_of r birlestirme_anahtari = CStr (kayit_anahtari r)) →
  r ∈ birlesen Y M →
  (∃ y v, y ∈ rows Y ∧ (r = y ∨ r = <[parca_durumu := v]> y)) ∨ r ∈ rows M.
Proof.
  intros HY. unfold birlesen. rewrite !elem_of_app.
  intros [Hr|[Hr|Hr]].
  - apply list_elem_of_bind in Hr as (k & Hr & _). rewrite rows_guncel in Hr by done.
    apply list_elem_of_fmap in Hr as (y & -> & Hy).
    apply list_elem_of_filter in Hy as [_ Hy].
    left. exists y, (cell_of (ilk M k) parca_durumu). split; [done|].
    case_decide; [by right|by left].
  - apply list_elem_of_filter in Hr as [_ Hr]. left. exists r, CNaN. split; [done|by left].
  - apply list_elem_of_filter in Hr as [_ Hr]. by right.
Qed.

Lemma sonuc_rows_inv (yeni mevcut : DataFrame) o :
  o ∈ rows (sonuc yeni mevcut) →
  ∃ r, r ∈ birlesen (keyed yeni) (keyed mevcut) ∧
       o = son_kayit (keyed yeni) (keyed mevcut) r.
Proof.
  unfold sonuc. cbn [rows]. rewrite merge_sort_Permutation.
  intros (r & -> & Hr)%list_elem_of_fmap. eauto.
Qed.

(** The key cells of a merged record are stripped strings. *)
Lemma birlesen_key_cell (yeni mevcut : DataFrame) (r : row) c :
  r ∈ birlesen (keyed yeni) (keyed mevcut) → c ∈ anahtar_sutunlar →
  ∃ r0, cell_of r c = CStr (Py.strip (py_str (cell_of r0 c))).
Proof.
  intros Hr Hc. apply birlesen_inv in Hr; [|intros r' Hr'; by apply (keyed_cell yeni)].
  destruct Hr as [(y & v & Hy & Hr)|Hr].
  - rewrite rows_keyed in Hy. apply list_elem_of_fmap in Hy as [r0 [-> _]]. exists r0.
    destruct Hr as [->| ->].
    + by apply hazirla_cell.
    + rewrite cell_of_insert_ne; [by apply hazirla_cell|].
      intros <-. by apply parca_durumu_fresh.
  - rewrite rows_keyed in Hr. apply list_elem_of_fmap in Hr as [r0 [-> _]]. exists r0.
    by apply hazirla_cell.
Qed.

Context (yeni mevcut : DataFrame).
Hypothesis yeni_keys : has_keys yeni.
Hypothesis mevcut_keys : has_keys mevcut.
Hypothesis yeni_rows : rows yeni ≠ [].
Hypothesis mevcut_rows : rows mevcut ≠ [].

Lemma sonuc_has_keys : has_keys (sonuc yeni mevcut).
Proof.
  unfold has_keys. apply Forall_forall. intros c Hc. apply sonuc_columns. split.
  - intros ->. by apply birlestirme_anahtari_fresh.
  - by apply sutunlar_keys.
Qed.

Lemma sonuc_rows_nonempty : rows (sonuc yeni mevcut) ≠ [].
Proof.
  destruct (nonempty_elem _ yeni_rows) as [rn Hrn].
  assert (kayit_anahtari rn ∈ df_keys (sonuc yeni mevcut)) as Hk.
  { apply sonuc_keys_elem; [done..|]. right. by apply list_elem_of_fmap_2. }
  unfold df_keys in Hk. intros Hnil. rewrite Hnil in Hk. by apply elem_of_nil in Hk.
Qed.

Lemma yeni_key_keyed rn : rn ∈ rows yeni → kayit_anahtari rn ∈ anahtarlar (keyed yeni).
Proof.
  intros Hrn. rewrite anahtarlar_keyed_keys. apply elem_of_list_to_set.
  by apply list_elem_of_fmap_2.
Qed.

(** The second run lays its records out on the columns of the first. *)
Lemma sonuc_sutunlar_again c :
  c ≠ birlestirme_anahtari →
  c ∈ son_sutunlar (keyed yeni) (keyed (sonuc yeni mevcut))
  ↔ c ∈ son_sutunlar (keyed yeni) (keyed mevcut).
Proof.
  intros Hne. destruct (nonempty_elem _ yeni_rows) as [rn Hrn].
  pose proof sonuc_has_keys as Hok.
  split; intros [Hc|[Hs Hc]]%sutunlar_inv.
  - apply (sutunlar_yeni (keyed yeni) (keyed mevcut)) with (k := kayit_anahtari rn);
      keyed_facts. by apply yeni_key_keyed.
  - apply (sonuc_columns yeni mevcut c).
    rewrite columns_keyed in Hc by done. case_decide; [done|].
    apply elem_of_app in Hc as [Hc|Hc%list_elem_of_singleton]; done.
  - apply (sutunlar_yeni (keyed yeni) (keyed (sonuc yeni mevcut)))
      with (k := kayit_anahtari rn); keyed_facts. by apply yeni_key_keyed.
  - apply set_choose_L in Hs as [k Hk].
    apply (sutunlar_eski (keyed yeni) (keyed (sonuc yeni mevcut))) with (k := k);
      keyed_facts.
    + unfold saklama_anahtarlari in Hk |- *.
      rewrite !anahtarlar_keyed_keys, elem_of_difference, !elem_of_list_to_set in Hk.
      rewrite !anahtarlar_keyed_keys, elem_of_difference, !elem_of_list_to_set.
      split; [|tauto]. apply sonuc_keys_elem; [done..|]. tauto.
    + apply columns_keyed_incl; [done|]. apply sonuc_columns. split; [done|].
      apply (sutunlar_eski (keyed yeni) (keyed mevcut)) with (k := k); keyed_facts.
Qed.

Lemma sonuc_again_columns c :
  c ∈ columns (sonuc yeni (sonuc yeni mevcut)) ↔ c ∈ columns (sonuc yeni mevcut).
Proof.
  rewrite !sonuc_columns.
  split; intros [Hne Hc]; (split; [done|]); by apply sonuc_sutunlar_again.
Qed.

(** A record of the first result passes the second run unchanged. *)
Lemma son_kayit_again o :
  o ∈ rows (sonuc yeni mevcut) →
  son_kayit (keyed yeni) (keyed (sonuc yeni mevcut)) (hazirla o) = o.
Proof.
  intros (r & Hr & ->)%sonuc_rows_inv.
  apply son_kayit_ext; [apply sonuc_sutunlar_again|].
  intros c Hne Hc. destruct (decide (c ∈ anahtar_sutunlar)) as [Hk|Hk].
  - rewrite hazirla_cell by done. unfold cell_of at 1. rewrite son_kayit_lookup by done.
    destruct (birlesen_key_cell yeni mevcut r c Hr Hk) as [r0 ->].
    cbn [default id]. change (py_str (CStr ?s)) with s. by rewrite strip_idemp.
  - unfold cell_of at 1. rewrite hazirla_lookup_ne by done. by rewrite son_kayit_lookup.
Qed.

Hypothesis yeni_NoDup : NoDup (df_keys yeni).
Hypothesis mevcut_NoDup : NoDup (df_keys mevcut).

Lemma ilk_sonuc o :
  o ∈ rows (sonuc yeni mevcut) →
  ilk (keyed (sonuc yeni mevcut)) (kayit_anahtari o) = hazirla o.
Proof.
  intros Ho. unfold ilk.
  rewrite (filter_esit (keyed (sonuc yeni mevcut)))
    by (intros r' Hr'; by apply (keyed_cell (sonuc yeni mevcut))).
  rewrite <-(kayit_anahtari_hazirla o).
  rewrite (filter_key_singleton kayit_anahtari); [done| |].
  - fold (df_keys (keyed (sonuc yeni mevcut))). rewrite df_keys_keyed. by apply sonuc_NoDup.
  - rewrite rows_keyed. by apply list_elem_of_fmap_2.
Qed.

Hypothesis yeni_durum : parca_durumu ∈ columns yeni.
Hypothesis mevcut_durum : parca_durumu ∈ columns mevcut.

Lemma sonuc_durum : parca_durumu ∈ columns (sonuc yeni mevcut).
Proof.
  destruct (nonempty_elem _ yeni_rows) as [rn Hrn].
  apply (yeni_sutun_sonuc yeni mevcut yeni_keys mevcut_keys rn); [done..|by_evaluation].
Qed.

(** The record the second run makes of a new record is the record the
    first run made of it. *)
Lemma guncel_again rn :
  rn ∈ rows yeni →
  son_kayit (keyed yeni) (keyed (sonuc yeni mevcut))
    (<[parca_durumu := cell_of (ilk (keyed (sonuc yeni mevcut)) (kayit_anahtari rn))
                               parca_durumu]> (hazirla rn))
  ∈ rows (sonuc yeni mevcut).
Proof.
  intros Hrn.
  assert (parca_durumu ∈ son_sutunlar (keyed yeni) (keyed mevcut)) as Hpd1
    by apply sonuc_columns, sonuc_durum.
  assert (parca_durumu ≠ birlestirme_anahtari) as Hpdne by by_evaluation.
  destruct (decide (kayit_anahtari rn ∈ df_keys mevcut)) as [Hk|Hk].
  - apply list_elem_of_fmap in Hk as [ro [Hk Hro]].
    pose proof (guncellenen_in_sonuc yeni mevcut yeni_keys mevcut_keys rn ro yeni_NoDup
                  mevcut_NoDup yeni_durum mevcut_durum Hrn Hro Hk) as Hin.
    assert (kayit_anahtari (guncellenen yeni mevcut rn ro) = kayit_anahtari rn) as Hkey.
    { unfold guncellenen. rewrite son_kayit_key by (intros; by apply sutunlar_keys).
      rewrite kayit_anahtari_insert_durum. apply kayit_anahtari_hazirla. }
    rewrite <-Hkey, (ilk_sonuc _ Hin).
    assert (cell_of (hazirla (guncellenen yeni mevcut rn ro)) parca_durumu
            = cell_of (hazirla ro) parca_durumu) as ->.
    { unfold cell_of at 1. rewrite hazirla_lookup_ne by (done || apply parca_durumu_fresh).
      rewrite guncellenen_lookup by (done || apply sonuc_durum). by rewrite decide_True. }
    replace (son_kayit (keyed yeni) (keyed (sonuc yeni mevcut))
               (<[parca_durumu := cell_of (hazirla ro) parca_durumu]> (hazirla rn)))
      with (guncellenen yeni mevcut rn ro); [done|].
    unfold guncellenen. symmetry. apply son_kayit_ext; [apply sonuc_sutunlar_again|done].
  - assert (son_kayit (keyed yeni) (keyed mevcut) (hazirla rn) ∈ rows (sonuc yeni mevcut))
      as Hin.
    { apply sonuc_row. unfold birlesen. apply elem_of_app. right. apply elem_of_app. left.
      apply list_elem_of_filter. split.
      - rewrite kayit_anahtari_hazirla. unfold ekleme_anahtarlari.
        rewrite !anahtarlar_keyed_keys, elem_of_difference, !elem_of_list_to_set.
        split; [by apply list_elem_of_fmap_2|done].
      - rewrite rows_keyed. by apply list_elem_of_fmap_2. }
    assert (kayit_anahtari (son_kayit (keyed yeni) (keyed mevcut) (hazirla rn))
            = kayit_anahtari rn) as Hkey.
    { rewrite son_kayit_key by (intros; by apply sutunlar_keys).
      apply kayit_anahtari_hazirla. }
    rewrite <-Hkey, (ilk_sonuc _ Hin).
    replace (son_kayit (keyed yeni) (keyed (sonuc yeni mevcut)) _)
      with (son_kayit (keyed yeni) (keyed mevcut) (hazirla rn)); [done|].
    symmetry. apply son_kayit_ext; [apply sonuc_sutunlar_again|].
    intros c Hne Hc. destruct (decide (c = parca_durumu)) as [->|Hcp].
    + rewrite cell_of_insert_eq. unfold cell_of at 1.
      rewrite hazirla_lookup_ne by (done || apply parca_durumu_fresh).
      by rewrite son_kayit_lookup.
    + by rewrite cell_of_insert_ne.
Qed.

(** The three parts of the concatenation, as an equation to rewrite with. *)
Lemma birlesen_unfold (Y M : DataFrame) :
  birlesen Y M =
  (elements (guncelleme_anahtarlari Y M) ≫= (λ k, rows (guncel Y M k)))
    ++ filter (λ r, kayit_anahtari r ∈ ekleme_anahtarlari Y M) (rows Y)
    ++ filter (λ r, kayit_anahtari r ∈ saklama_anahtarlari Y M) (rows M).
Proof. reflexivity. Qed.

Lemma sonuc_again_incl r :
  r ∈ rows (sonuc yeni (sonuc yeni mevcut)) → r ∈ rows (sonuc yeni mevcut).
Proof.
  intros (r2 & Hr2 & ->)%sonuc_rows_inv. rewrite birlesen_unfold in Hr2.
  pose proof sonuc_has_keys as Hok.
  rewrite !elem_of_app in Hr2. destruct Hr2 as [Hr2|[Hr2|Hr2]].
  - apply list_elem_of_bind in Hr2 as (k & Hr2 & _).
    rewrite rows_guncel in Hr2 by (intros r' Hr'; by apply (keyed_cell yeni)).
    rewrite decide_True in Hr2
      by (split; apply columns_keyed_incl; auto using sonuc_durum).
    apply list_elem_of_fmap in Hr2 as (y & -> & Hy).
    apply list_elem_of_filter in Hy as [Hk Hy]. rewrite rows_keyed in Hy.
    apply list_elem_of_fmap in Hy as (rn & -> & Hrn).
    rewrite kayit_anahtari_hazirla in Hk. subst k. by apply guncel_again.
  - apply list_elem_of_filter in Hr2 as [Hk Hy]. exfalso.
    rewrite rows_keyed in Hy. apply list_elem_of_fmap in Hy as (rn & -> & Hrn).
    rewrite kayit_anahtari_hazirla in Hk. unfold ekleme_anahtarlari in Hk.
    rewrite !anahtarlar_keyed_keys, elem_of_difference, !elem_of_list_to_set in Hk.
    destruct Hk as [_ Hk]. apply Hk. apply sonuc_keys_elem; [done..|]. right.
    by apply list_elem_of_fmap_2.
  - apply list_elem_of_filter in Hr2 as [_ Hy]. rewrite rows_keyed in Hy.
    apply list_elem_of_fmap in Hy as (o & -> & Ho). by rewrite son_kayit_again.
Qed.

Lemma sonuc_again_perm :
  rows (sonuc yeni (sonuc yeni mevcut)) ≡ₚ rows (sonuc yeni mevcut).
Proof.
  pose proof sonuc_has_keys as Hok.
  assert (NoDup (df_keys (sonuc yeni mevcut))) as Hnd1 by (by apply sonuc_NoDup).
  assert (NoDup (df_keys (sonuc yeni (sonuc yeni mevcut)))) as Hnd2
    by (by apply sonuc_NoDup).
  apply NoDup_Permutation.
  - apply NoDup_rows, Hnd2.
  - apply NoDup_rows, Hnd1.
  - intros r. split; [apply sonuc_again_incl|].
    intros Hr.
    assert (kayit_anahtari r ∈ df_keys (sonuc yeni (sonuc yeni mevcut))) as Hk.
    { apply sonuc_keys_elem; [done..|]. left. apply df_keys_row, Hr. }
    apply df_keys_inv in Hk as (r' & Hk & Hr').
    pose proof (sonuc_again_incl r' Hr') as Hr1.
    by rewrite (df_keys_inj _ r r' Hnd1 Hr Hr1 Hk).
Qed.

End Again.

(** X21.  Running the merger a second time with the same extract
    changes no record.  For tables with the key columns, the status
    column, rows, and no key twice: the merger, given the new table
    and its own result as the old one, returns the records of that
    result, each one cell for cell and as often as before, and the
    same columns; records and columns can come in another order. *)
Theorem verileri_birlestir_again (yeni mevcut : DataFrame) :
  has_keys yeni → has_keys mevcut → rows yeni ≠ [] → rows mevcut ≠ [] →
  NoDup (df_keys yeni) → NoDup (df_keys mevcut) →
  SSH.parca_durumu ∈ columns yeni → SSH.parca_durumu ∈ columns mevcut →
  ∃ out out2,
    SSH.verileri_birlestir yeni mevcut = Ok out ∧
    SSH.verileri_birlestir yeni out = Ok out2 ∧
    rows out2 ≡ₚ rows out ∧
    columns out2 ≡ₚ columns out.
Proof.
  intros Hky Hkm Hry Hrm Hny Hnm Hpy Hpm.
  exists (sonuc yeni mevcut), (sonuc yeni (sonuc yeni mevcut)). split_and!.
  - by apply verileri_birlestir_sonuc.
  - apply verileri_birlestir_sonuc; [done| |done|].
    + by apply sonuc_has_keys.
    + by apply sonuc_rows_nonempty.
  - by apply sonuc_again_perm.
  - apply NoDup_Permutation.
    + apply NoDup_filter, NoDup_union_columns.
    + apply NoDup_filter, NoDup_union_columns.
    + intros c. by apply sonuc_again_columns.
Qed.

Lemma verileri_birlestir_again_witness :
  ∃ out out2,
    SSH.verileri_birlestir Ornek.yeni_ornek Ornek.mevcut_ornek = Ok out ∧
    SSH.verileri_birlestir Ornek.yeni_ornek out = Ok out2 ∧
    rows out2 ≡ₚ rows out.
Proof.
  destruct (verileri_birlestir_again Ornek.yeni_ornek Ornek.mevcut_ornek)
    as (out & out2 & H1 & H2 & Hrows & _); [by_evaluation..|].
  exists out, out2. split_and!; assumption.
Defined.
